(** * Knowledge Graph Resources: the Wikidata query app and the catalog builder

    A shallow embedding of [app.py] (query templates, the WDQS transport
    with its rate-limit retry, the flattening of SPARQL bindings, the derived
    columns and the two sorts) and of [scripts/build_catalog.py] (the CSV
    row of a resource), with the properties of the specification settled on
    them.

    Python strings are modelled as [string]: a sequence of code points below
    256 (the Latin-1 range, which is also what HTTP header values decode to).
    Python exceptions are values of [exn]; a computation that may raise
    returns a [result]. *)

From Stdlib Require Import ZArith String Ascii List Lia Sorting.Sorted OrderedTypeEx.
From stdpp Require Import base option list gmap strings pretty.

Local Open Scope Z_scope.

(** ** The Python and library primitives the two programs call *)

Module Py.

(** The exceptions that the modelled calls raise. [HTTPError] is what
    [Response.raise_for_status] raises; [RequestException] stands for the
    failures of [requests.get] itself (connection errors, the 60 s timeout). *)
Inductive exn : Type :=
  | KeyError (key : string)
  | ValueError
  | OverflowError
  | OSError (errno : Z)
  | HTTPError (status : Z)
  | RequestException
  | JSONDecodeError.

Inductive result (A : Type) : Type :=
  | Return (a : A)
  | Raise (e : exn).
Arguments Return {A} a.
Arguments Raise {A} e.

#[export] Instance result_ret : MRet result := fun A a => Return a.

#[export] Instance result_bind : MBind result := fun A B k r =>
  match r with
  | Return a => k a
  | Raise e => Raise e
  end.

(** The one-character string of a code point, for the characters a string
    literal cannot hold. *)
Definition chr (n : nat) : string := String (ascii_of_nat n) EmptyString.

Definition dq : string := chr 34.
Definition nl : string := chr 10.

Definition ord (c : ascii) : Z := Z.of_nat (nat_of_ascii c).

(** [str.isspace] on one code point below 256: tab, line feed, vertical tab,
    form feed, carriage return, the four separators 28-31, space, NEL (133)
    and the no-break space (160). *)
Definition isspace (c : ascii) : bool :=
  let n := ord c in
  ((9 <=? n) && (n <=? 13)) || ((28 <=? n) && (n <=? 32))
  || (n =? 133) || (n =? 160).

Fixpoint lstrip_with (sp : ascii -> bool) (s : string) : string :=
  match s with
  | EmptyString => EmptyString
  | String c r => if sp c then lstrip_with sp r else s
  end.

(** Removes the trailing run of [sp] characters. *)
Fixpoint rstrip_with (sp : ascii -> bool) (s : string) : string :=
  match s with
  | EmptyString => EmptyString
  | String c r =>
      match rstrip_with sp r with
      | EmptyString => if sp c then EmptyString else String c EmptyString
      | r' => String c r'
      end
  end.

(** [s.strip()] *)
Definition strip (s : string) : string :=
  rstrip_with isspace (lstrip_with isspace s).

(** [s.startswith(prefix)] *)
Definition startswith (s prefix : string) : bool := String.prefix prefix s.

(** [sep.join(l)] *)
Definition join (sep : string) (l : list string) : string := String.concat sep l.

(** The decimal numeral of an integer, with a minus sign when negative. *)
Definition decimal (n : Z) : string := pretty n.

(** *** [int(s)] on a string

    CPython skips leading and trailing white space (for [int] that is tab to
    carriage return, space, NEL and the no-break space: the separators 28-31
    are not skipped), reads an optional sign and then decimal digits, where
    single underscores may stand between two digits. More than 4300 digits
    are refused. Every refusal is a [ValueError]. *)
Definition int_isspace (c : ascii) : bool :=
  let n := ord c in
  ((9 <=? n) && (n <=? 13)) || (n =? 32) || (n =? 133) || (n =? 160).

Definition digit_value (c : ascii) : option Z :=
  let n := ord c in
  if (48 <=? n) && (n <=? 57) then Some (n - 48) else None.

Definition MAX_STR_DIGITS : nat := 4300.


(** [digits acc count after_digit s]: the value of the digit string [s]
    continued from [acc], with the number of digits read; [after_digit] tells
    whether the previous character was a digit (an underscore needs one on
    both sides). *)
Fixpoint digits (acc : Z) (count : nat) (after_digit : bool) (s : string)
  : option (Z * nat) :=
  match s with
  | EmptyString => if after_digit then Some (acc, count) else None
  | String c r =>
      match digit_value c with
      | Some d => digits (10 * acc + d) (S count) true r
      | None =>
          if (ord c =? 95) && after_digit then digits acc count false r
          else None
      end
  end.

Definition int (s : string) : result Z :=
  let body := rstrip_with int_isspace (lstrip_with int_isspace s) in
  let '(sign, ds) :=
    match body with
    | String c r =>
        if ord c =? 43 then (1, r)
        else if ord c =? 45 then (-1, r)
        else (1, body)
    | EmptyString => (1, body)
    end in
  match digits 0 0 false ds with
  | Some (n, count) =>
      if (MAX_STR_DIGITS <? count)%nat then Raise ValueError
      else Return (sign * n)
  | None => Raise ValueError
  end.

(** *** [re.split] for a pattern of literal alternatives

    A pattern built from ordinary characters and [|] only is the alternation
    of the literal strings between the bars. [re.split] cuts the subject at
    every leftmost match, trying the alternatives in order. The
    alternatives met here are never empty (an empty one is skipped). *)
Fixpoint split_char (sep : ascii) (s : string) : list string :=
  match s with
  | EmptyString => [EmptyString]
  | String c r =>
      if Ascii.eqb c sep then EmptyString :: split_char sep r
      else match split_char sep r with
           | [] => [String c EmptyString]
           | w :: ws => String c w :: ws
           end
  end.

Definition re_alternatives (pat : string) : list string :=
  split_char "|"%char pat.

(** The length of the first alternative that is a prefix of [s]. *)
Fixpoint match_length (alts : list string) (s : string) : option nat :=
  match alts with
  | [] => None
  | a :: alts' =>
      if String.prefix a s then Some (String.length a)
      else match_length alts' s
  end.

(** Puts one more character in front of the first piece. *)
Definition push (c : ascii) (pieces : list string) : list string :=
  match pieces with
  | [] => [String c EmptyString]
  | w :: ws => String c w :: ws
  end.

(** [split_at alts skip s]: the pieces of [s], of which the first [skip]
    characters still belong to the separator matched last. *)
Fixpoint split_at (alts : list string) (skip : nat) (s : string)
  : list string :=
  match s with
  | EmptyString => [EmptyString]
  | String c r =>
      match skip with
      | S k => split_at alts k r
      | O =>
          match match_length alts s with
          | Some (S k) => EmptyString :: split_at alts k r
          | _ => push c (split_at alts 0 r)
          end
      end
  end.

(** [re.split(pat, s)] *)
Definition re_split (pat s : string) : list string :=
  split_at (re_alternatives pat) 0 s.

(** [s.split(sep)] for a non-empty literal separator. *)
Definition str_split (sep s : string) : list string :=
  split_at [sep] 0 s.

(** [s.lower()] on code points below 256: the letters A-Z, and the accented
    capitals 192-222 (the multiplication sign 215 apart). *)
Definition lower_char (c : ascii) : ascii :=
  let n := ord c in
  if ((65 <=? n) && (n <=? 90))
     || ((192 <=? n) && (n <=? 222) && negb (n =? 215))
  then ascii_of_nat (Z.to_nat (n + 32)) else c.

Fixpoint lower (s : string) : string :=
  match s with
  | EmptyString => EmptyString
  | String c r => String (lower_char c) (lower r)
  end.

(** [d[key]] on a dict. *)
Definition getitem {V} (d : gmap string V) (key : string) : result V :=
  match d !! key with
  | Some v => Return v
  | None => Raise (KeyError key)
  end.

(** [d.get(key, default)] on a dict. *)
Definition get {V} (d : gmap string V) (key : string) (default : V) : V :=
  match d !! key with
  | Some v => v
  | None => default
  end.

(** A [for] loop that appends [f x] for each [x]: the first exception ends
    it. *)
Fixpoint for_each {A B} (f : A -> result B) (l : list A) : result (list B) :=
  match l with
  | [] => Return []
  | x :: l' =>
      y ← f x; ys ← for_each f l'; Return (y :: ys)
  end.

End Py.

(** ** app.py *)

Module App.
Import Py.

Definition WDQS_URL : string := "https://query.wikidata.org/sparql".

Definition USER_AGENT : string :=
  "KGResourcesStreamlit/0.1 (contact: you@example.com)".

(** The two entries of the [Resource type] select box. *)
Definition RESOURCE_KINDS : list string :=
  [ "Ontologies + Controlled Vocabularies"; "Software (semantic / KG tools)" ].



(** *** The query templates

    Both templates are f-strings with one replacement field, [LIMIT]; a
    triple-quoted literal starts with the line break after the opening
    quotes and ends with the one before the closing quotes. The doubled
    braces of the f-strings stand for single braces. [fstring] joins the
    lines of such a literal. [LIMIT] is the value of the slider, one of
    [LIMIT_choice]: the field is its decimal numeral, which is what
    [str_int] returns for it and for every integer of at most 4300
    digits. *)
Fixpoint unlines (lines : list string) : string :=
  match lines with
  | [] => EmptyString
  | l :: lines' => l +:+ nl +:+ unlines lines'
  end.

Definition fstring (lines : list string) : string := nl +:+ unlines lines.

(** The query for ontologies, controlled vocabularies and taxonomies. *)
Definition BASE_QUERY_ONTO_VOCAB (LIMIT : Z) : string :=
  fstring [
    "SELECT";
    "  ?item";
    "  ?itemLabel";
    "  (GROUP_CONCAT(DISTINCT STR(?officialWebsite); separator="
      +:+ dq +:+ " | "
      +:+ dq +:+ ") AS ?officialWebsites)";
    "  (GROUP_CONCAT(DISTINCT ?licenseLabel; separator="
      +:+ dq +:+ " | "
      +:+ dq +:+ ") AS ?licenses)";
    "  (GROUP_CONCAT(DISTINCT ?partOfLabel; separator="
      +:+ dq +:+ " | "
      +:+ dq +:+ ") AS ?partOf)";
    "WHERE {";
    "  SERVICE wikibase:label { bd:serviceParam wikibase:language "
      +:+ dq +:+ "[AUTO_LANGUAGE],mul,en"
      +:+ dq +:+ ". }";
    "";
    "  {";
    "    SELECT DISTINCT ?item WHERE {";
    "      {";
    "        ?item p:P31 ?statement0 .";
    "        ?statement0 (ps:P31/(wdt:P279*)) wd:Q324254 .  # ontology";
    "      }";
    "      UNION";
    "      {";
    "        ?item p:P31 ?statement1 .";
    "        ?statement1 (ps:P31/(wdt:P279*)) wd:Q1469824 . # controlled vocabulary";
    "      }";
    "      UNION";
    "      {";
    "        ?item p:P31 ?statement2 .";
    "        ?statement2 (ps:P31/(wdt:P279*)) wd:Q8269924 .  # taxonomy  <-- add this";
    "      }";
    "    }";
    "    LIMIT " +:+ decimal LIMIT;
    "  }";
    "";
    "  OPTIONAL { ?item wdt:P856 ?officialWebsite . }";
    "  OPTIONAL { ?item wdt:P275 ?license . }";
    "  OPTIONAL { ?item wdt:P361 ?partOfEntity . }";
    "";
    "  SERVICE wikibase:label {";
    "    bd:serviceParam wikibase:language "
      +:+ dq +:+ "[AUTO_LANGUAGE],mul,en"
      +:+ dq +:+ ".";
    "    ?license rdfs:label ?licenseLabel .";
    "    ?partOfEntity rdfs:label ?partOfLabel .";
    "  }";
    "}";
    "GROUP BY ?item ?itemLabel"
  ].

(** The query for software. It selects [?partOf] as the first query does,
    and adds the sampled version and the latest publication date. *)
Definition BASE_QUERY_SOFTWARE (LIMIT : Z) : string :=
  fstring [
    "SELECT";
    "  ?item";
    "  ?itemLabel";
    "  (GROUP_CONCAT(DISTINCT STR(?officialWebsite); separator="
      +:+ dq +:+ " | "
      +:+ dq +:+ ") AS ?officialWebsites)";
    "  (GROUP_CONCAT(DISTINCT ?licenseLabel; separator="
      +:+ dq +:+ " | "
      +:+ dq +:+ ") AS ?licenses)";
    "  (GROUP_CONCAT(DISTINCT ?partOfLabel; separator="
      +:+ dq +:+ " | "
      +:+ dq +:+ ") AS ?partOf)";
    "  (SAMPLE(?version) AS ?latestVersion)";
    "  (MAX(?pubDate) AS ?latestReleaseDate)";
    "WHERE {";
    "  SERVICE wikibase:label { bd:serviceParam wikibase:language "
      +:+ dq +:+ "[AUTO_LANGUAGE],mul,en"
      +:+ dq +:+ ". }";
    "";
    "  {";
    "    SELECT DISTINCT ?item WHERE {";
    "      ?item wdt:P31/wdt:P279* wd:Q124653107 .  # software";
    "    }";
    "    LIMIT " +:+ decimal LIMIT;
    "  }";
    "";
    "  OPTIONAL { ?item wdt:P856 ?officialWebsite . }";
    "  OPTIONAL { ?item wdt:P275 ?license . }";
    "  OPTIONAL { ?item wdt:P361 ?partOfEntity . }";
    "";
    "  # P348 statement + P577 qualifier on that statement";
    "  OPTIONAL {";
    "    ?item p:P348 ?verStmt .";
    "    ?verStmt ps:P348 ?version .";
    "    OPTIONAL { ?verStmt pq:P577 ?pubDate . }";
    "  }";
    "";
    "    # P348 statement + P577 qualifier on that statement";
    "  OPTIONAL {";
    "    ?item p:P348 ?verStmt .";
    "    ?verStmt ps:P348 ?version .";
    "    OPTIONAL { ?verStmt pq:P577 ?pubDate . }";
    "  }";
    "";
    "  SERVICE wikibase:label {";
    "    bd:serviceParam wikibase:language "
      +:+ dq +:+ "[AUTO_LANGUAGE],mul,en"
      +:+ dq +:+ ".";
    "    ?license rdfs:label ?licenseLabel .";
    "    ?partOfEntity rdfs:label ?partOfLabel .";
    "  }";
    "}";
    "GROUP BY ?item ?itemLabel"
  ].

(** [query = BASE_QUERY_ONTO_VOCAB if RESOURCE_KIND.startswith("Ontologies")
    else BASE_QUERY_SOFTWARE] *)
Definition query (RESOURCE_KIND : string) (LIMIT : Z) : string :=
  if startswith RESOURCE_KIND "Ontologies" then BASE_QUERY_ONTO_VOCAB LIMIT
  else BASE_QUERY_SOFTWARE LIMIT.

Definition is_software (RESOURCE_KIND : string) : bool :=
  startswith RESOURCE_KIND "Software".


(** *** The WDQS transport ([run_wdqs])

    A SPARQL JSON result maps each bound variable of a row to a term, an
    object whose members ([type], [value], [xml:lang], [datatype]) are
    strings. The decoded body is kept as far as the app reads it: an object
    of objects of binding lists ([data["results"]["bindings"]]). *)
Abbreviation Term := (gmap string string).
Abbreviation Binding := (gmap string (gmap string string)).
Abbreviation Data := (gmap string (gmap string (list (gmap string (gmap string string))))).

Record Request : Type := {
  url : string;
  params : list (string * string);
  request_headers : list (string * string);
  timeout : Z
}.

(** A response of [requests]. The header names are kept in lower case, which
    is how the case-insensitive dict of [requests] compares them; [body] is
    [None] when the content is not JSON. *)
Record Response : Type := {
  status_code : Z;
  headers : gmap string string;
  body : option Data
}.

(** What a call of [requests.get] meets: the server's answer, or an
    exception of the transport itself. *)
Inductive outcome : Type :=
  | Answers (r : Response)
  | Fails (e : exn).

(** What a run meets outside the program: the remote endpoint, as the
    outcome of the n-th request (from 0) of the run, and the machine's
    monotonic clock, as its reading in nanoseconds when the run sleeps. A
    remote applied to a number and a request is that outcome. *)
Record remote : Type := {
  answer :> nat -> Request -> outcome;
  monotonic : Z
}.

(** What a run does to the outside world, in order. *)
Inductive event : Type :=
  | Get (rq : Request)
  | Sleep (secs : Z).

Definition is_get (e : event) : bool :=
  match e with Get _ => true | Sleep _ => false end.

Definition is_sleep (e : event) : bool :=
  match e with Sleep _ => true | Get _ => false end.

Definition requests_made (trace : list event) : nat :=
  length (List.filter is_get trace).

Definition suspensions (trace : list event) : nat :=
  length (List.filter is_sleep trace).

(** Effectful code: it reads the remote, extends the trace of events and
    returns or raises. *)
Definition IO (A : Type) : Type :=
  remote -> list event -> result A * list event.

#[export] Instance IO_ret : MRet IO := fun A a _ trace => (Return a, trace).

#[export] Instance IO_bind : MBind IO := fun A B k m srv trace =>
  match m srv trace with
  | (Return a, trace') => k a srv trace'
  | (Raise e, trace') => (Raise e, trace')
  end.

Definition lift {A} (r : result A) : IO A := fun _ trace => (r, trace).

(** [requests.get(url, params=..., headers=..., timeout=...)] *)
Definition requests_get (rq : Request) : IO Response :=
  fun srv trace =>
    match srv (requests_made trace) rq with
    | Answers r => (Return r, trace ++ [Get rq])
    | Fails e => (Raise e, trace ++ [Get rq])
    end.

(** The longest duration, in seconds, that CPython converts to its 64-bit
    count of nanoseconds, and the largest such count. *)
Definition SLEEP_MAX : Z := 9223372036.

Definition PyTime_MAX : Z := 9223372036854775807.

(** [time.sleep(secs)] for an integer, as CPython 3.11 does it on Linux. A
    negative duration is a [ValueError], one that does not fit the count of
    nanoseconds an [OverflowError]. The sleep is then until a deadline, the
    reading of the monotonic clock plus the duration: a sum beyond the
    largest count wraps to a negative deadline, which [clock_nanosleep]
    refuses with [EINVAL], and that is [OSError(22)] at once. *)
Definition time_sleep (secs : Z) : IO unit :=
  fun srv trace =>
    if secs <? 0 then (Raise ValueError, trace)
    else if SLEEP_MAX <? secs then (Raise OverflowError, trace)
    else if PyTime_MAX <? monotonic srv + secs * 1000000000
    then (Raise (OSError 22), trace)
    else (Return tt, trace ++ [Sleep secs]).

(** [r.headers.get(name, default)] *)
Definition headers_get (r : Response) (name default : string) : string :=
  get (headers r) (lower name) default.

(** [r.raise_for_status()]: the statuses from 400 to 599 raise. *)
Definition raise_for_status (r : Response) : result unit :=
  if (400 <=? status_code r) && (status_code r <? 600)
  then Raise (HTTPError (status_code r))
  else Return tt.

(** [r.json()] *)
Definition json (r : Response) : result Data :=
  match body r with
  | Some data => Return data
  | None => Raise JSONDecodeError
  end.

(** [int(r.headers.get("Retry-After", "5"))], the wait before the retry. *)
Definition retry_after (r : Response) : result Z :=
  int (headers_get r "Retry-After" "5").

Definition wdqs_request (query : string) : Request :=
  {| url := WDQS_URL;
     params := [("query", query); ("format", "json")];
     request_headers :=
       [("Accept", "application/sparql-results+json");
        ("User-Agent", USER_AGENT)];
     timeout := 60 |}.

Definition run_wdqs (query : string) : IO Data :=
  r ← requests_get (wdqs_request query);
  r ← (if status_code r =? 429 then
         secs ← lift (retry_after r);
         time_sleep secs;;
         requests_get (wdqs_request query)
       else mret r);
  lift (raise_for_status r);;
  lift (json r).

(** *** Flattening ([query_to_df]) *)

(** The dict appended for one binding. *)
Record Row : Type := {
  row_Item : string;
  row_Wikidata : string;
  row_Official_websites : string;
  row_Licenses : string;
  row_Part_of : string;
  row_latest_release : string
}.

(** [b.get(name, {}).get("value", "")] *)
Definition optional_value (b : Binding) (name : string) : string :=
  get (get b name ∅) "value" "".

(** The dict display evaluates its values in order: [itemLabel] first. *)
Definition row_of (b : Binding) : result Row :=
  item ← getitem b "itemLabel" ≫= (fun t => getitem t "value");
  wikidata ← getitem b "item" ≫= (fun t => getitem t "value");
  Return {| row_Item := item;
            row_Wikidata := wikidata;
            row_Official_websites := optional_value b "officialWebsites";
            row_Licenses := optional_value b "licenses";
            row_Part_of := optional_value b "partOf";
            row_latest_release := optional_value b "latestReleaseDate" |}.

(** The rows of the frame [query_to_df] returns, in the order of the
    bindings. The cache of [st.cache_data] is not modelled: this is the call
    that the first use of a query text makes. *)
Definition query_to_df (query : string) : IO (list Row) :=
  data ← run_wdqs query;
  results ← lift (getitem data "results");
  bindings ← lift (getitem results "bindings");
  lift (for_each row_of bindings).

(** *** The derived columns and the two sorts (the script after [query_to_df]) *)

(** A cell of the [latest release] column once [pd.to_datetime] has parsed
    it: an instant (nanoseconds since the epoch) or the missing value. *)
Inductive datetime : Type :=
  | Timestamp (ns : Z)
  | NaT.

(** A row of the frame with all its columns; [D] is the type of the
    [latest release] column, text as it is flattened and [datetime] once the
    software branch has parsed it. [index] is the row's label in the frame's
    index. *)
Record Rec (D : Type) : Type := {
  index : nat;
  Item : string;
  Wikidata : string;
  Official_websites : string;
  Licenses : string;
  Part_of : string;
  latest_release : D;
  Has_website : bool;
  Has_license : bool;
  Wikidata_page : string;
  Official_website : string
}.
Arguments index {D} _.
Arguments Item {D} _.
Arguments Wikidata {D} _.
Arguments Official_websites {D} _.
Arguments Licenses {D} _.
Arguments Part_of {D} _.
Arguments latest_release {D} _.
Arguments Has_website {D} _.
Arguments Has_license {D} _.
Arguments Wikidata_page {D} _.
Arguments Official_website {D} _.

(** [s.str.strip().ne("")] on one cell. *)
Definition nonblank (s : string) : bool := negb (String.eqb (strip s) "").

(** [s.str.split(" | ").str[0].fillna("")] on one cell. pandas reads a
    pattern of more than one character as a regular expression unless
    [regex=False] is passed, so the split is [re.split]. *)
Definition first_piece (s : string) : string :=
  match re_split " | " s with
  | w :: _ => w
  | [] => ""
  end.

(** Lines 163-168 on the row with label [i]. *)
Definition derive (i : nat) (r : Row) : Rec string :=
  {| index := i;
     Item := row_Item r;
     Wikidata := row_Wikidata r;
     Official_websites := row_Official_websites r;
     Licenses := row_Licenses r;
     Part_of := row_Part_of r;
     latest_release := row_latest_release r;
     Has_website := nonblank (row_Official_websites r);
     Has_license := nonblank (row_Licenses r);
     Wikidata_page := row_Wikidata r;
     Official_website := first_piece (row_Official_websites r) |}.

(** [pd.DataFrame(rows)] numbers the rows from 0. A frame made from no row
    has no column, and [df["Official websites"]] is then a [KeyError]. *)
Definition derived_columns (rows : list Row) : result (list (Rec string)) :=
  match rows with
  | [] => Raise (KeyError "Official websites")
  | _ => Return (imap derive rows)
  end.

(** The columns of the frame, in the order the script creates them. *)
Inductive column : Type :=
  | Col_Item
  | Col_Wikidata
  | Col_Official_websites
  | Col_Licenses
  | Col_Part_of
  | Col_latest_release
  | Col_Has_website
  | Col_Has_license
  | Col_Wikidata_page
  | Col_Official_website.

#[export] Instance column_eq_dec : EqDecision column.
Proof. solve_decision. Defined.

Definition column_name (c : column) : string :=
  match c with
  | Col_Item => "Item"
  | Col_Wikidata => "Wikidata"
  | Col_Official_websites => "Official websites"
  | Col_Licenses => "Licenses"
  | Col_Part_of => "Part of"
  | Col_latest_release => "latest release"
  | Col_Has_website => "Has website"
  | Col_Has_license => "Has license"
  | Col_Wikidata_page => "Wikidata page"
  | Col_Official_website => "Official website"
  end.

Definition df_columns : list column :=
  [ Col_Item; Col_Wikidata; Col_Official_websites; Col_Licenses; Col_Part_of;
    Col_latest_release; Col_Has_website; Col_Has_license; Col_Wikidata_page;
    Col_Official_website ].

(** The values of a column type as pandas orders them: [isna] tells the
    missing values, which a sort puts last whatever its direction, and
    [cmp] compares two values that are not missing. *)
Class Ordered (K : Type) : Type := {
  isna : K -> bool;
  cmp : K -> K -> comparison
}.

#[export] Instance string_ordered : Ordered string :=
  {| isna := fun _ => false; cmp := String.compare |}.

#[export] Instance bool_ordered : Ordered bool :=
  {| isna := fun _ => false; cmp := Bool.compare |}.

#[export] Instance datetime_ordered : Ordered datetime :=
  {| isna := fun d => match d with NaT => true | Timestamp _ => false end;
     cmp := fun a b =>
       match a, b with
       | Timestamp x, Timestamp y => Z.compare x y
       | _, _ => Eq
       end |}.

(** One key of a sort: missing values last ([na_position="last"], the
    default), the others in the asked direction. *)
Definition key_compare {K} `{Ordered K} (ascending : bool) (x y : K)
  : comparison :=
  match isna x, isna y with
  | true, true => Eq
  | true, false => Gt
  | false, true => Lt
  | false, false => if ascending then cmp x y else cmp y x
  end.

Definition column_compare {D} `{Ordered D} (c : column) (ascending : bool)
    (r s : Rec D) : comparison :=
  match c with
  | Col_Item => key_compare ascending (Item r) (Item s)
  | Col_Wikidata => key_compare ascending (Wikidata r) (Wikidata s)
  | Col_Official_websites =>
      key_compare ascending (Official_websites r) (Official_websites s)
  | Col_Licenses => key_compare ascending (Licenses r) (Licenses s)
  | Col_Part_of => key_compare ascending (Part_of r) (Part_of s)
  | Col_latest_release =>
      key_compare ascending (latest_release r) (latest_release s)
  | Col_Has_website => key_compare ascending (Has_website r) (Has_website s)
  | Col_Has_license => key_compare ascending (Has_license r) (Has_license s)
  | Col_Wikidata_page =>
      key_compare ascending (Wikidata_page r) (Wikidata_page s)
  | Col_Official_website =>
      key_compare ascending (Official_website r) (Official_website s)
  end.

(** The keys in order: a later key decides only where the earlier ones tie. *)
Fixpoint keys_compare {D} `{Ordered D} (keys : list (column * bool))
    (r s : Rec D) : comparison :=
  match keys with
  | [] => Eq
  | (c, ascending) :: keys' =>
      match column_compare c ascending r s with
      | Eq => keys_compare keys' r s
      | o => o
      end
  end.

(** [place keys r df]: [r] goes before the first row that is not before it. *)
Fixpoint place {D} `{Ordered D} (keys : list (column * bool)) (r : Rec D)
    (df : list (Rec D)) : list (Rec D) :=
  match df with
  | [] => [r]
  | s :: df' =>
      match keys_compare keys r s with
      | Gt => s :: place keys r df'
      | _ => r :: df
      end
  end.

(** [df.sort_values(by=..., ascending=...)] on several columns. pandas
    turns each column into integer codes and sorts them with NumPy's
    [lexsort], which keeps rows with equal keys in their order; the
    insertion sort below does the same. *)
Definition sort_values {D} `{Ordered D} (by_ : list column)
    (ascending : list bool) (df : list (Rec D)) : list (Rec D) :=
  foldr (place (zip by_ ascending)) [] df.

(** What the table shows in a cell. *)
Inductive cell (D : Type) : Type :=
  | Text (s : string)
  | Flag (b : bool)
  | Date (d : D).
Arguments Text {D} s.
Arguments Flag {D} b.
Arguments Date {D} d.

Definition cell_of {D} (c : column) (r : Rec D) : cell D :=
  match c with
  | Col_Item => Text (Item r)
  | Col_Wikidata => Text (Wikidata r)
  | Col_Official_websites => Text (Official_websites r)
  | Col_Licenses => Text (Licenses r)
  | Col_Part_of => Text (Part_of r)
  | Col_latest_release => Date (latest_release r)
  | Col_Has_website => Flag (Has_website r)
  | Col_Has_license => Flag (Has_license r)
  | Col_Wikidata_page => Text (Wikidata_page r)
  | Col_Official_website => Text (Official_website r)
  end.

(** A frame after a selection of columns: the columns kept, and the rows. *)
Record Table (D : Type) : Type := {
  columns : list column;
  records : list (Rec D)
}.
Arguments columns {D} _.
Arguments records {D} _.

(** The cells of the table, row by row, under their column names. *)
Definition cells {D} (t : Table D) : list (list (string * cell D)) :=
  map (fun r => map (fun c => (column_name c, cell_of c r)) (columns t))
      (records t).

(** [df[[c for c in desired_cols if c in df.columns]]] *)
Definition select {D} (desired_cols : list column) (t : Table D) : Table D :=
  {| columns := List.filter (fun c => bool_decide (c ∈ columns t)) desired_cols;
     records := records t |}.

(** [df.drop(columns=[c for c in cols if c in df.columns], errors="ignore")] *)
Definition drop {D} (cols : list column) (t : Table D) : Table D :=
  {| columns := List.filter (fun c => negb (bool_decide (c ∈ cols))) (columns t);
     records := records t |}.

Definition helper_cols : list column :=
  [ Col_Has_website; Col_Has_license; Col_Wikidata; Col_Official_websites ].

(** The table the script hands to [st.data_editor]. *)
Inductive View : Type :=
  | SoftwareView (t : Table datetime)
  | OntologyView (t : Table string).

Section Script.

(** [pd.to_datetime(series, errors="coerce")]: the parsed value at a
    position of the series. pandas may read the whole series to choose a
    format, so the value depends on the series and not only on the text at
    that position. *)
Variable to_datetime : list string -> nat -> datetime.

(** [df["latest release"] = pd.to_datetime(df["latest release"], errors="coerce")] *)
Definition parse_latest_release (df : list (Rec string)) : list (Rec datetime) :=
  imap (fun i r =>
          {| index := index r;
             Item := Item r;
             Wikidata := Wikidata r;
             Official_websites := Official_websites r;
             Licenses := Licenses r;
             Part_of := Part_of r;
             latest_release := to_datetime (map latest_release df) i;
             Has_website := Has_website r;
             Has_license := Has_license r;
             Wikidata_page := Wikidata_page r;
             Official_website := Official_website r |}) df.

(** The software branch: parse the dates, sort, select. *)
Definition software_sorted (df : list (Rec string)) : list (Rec datetime) :=
  sort_values
    [Col_latest_release; Col_Has_website; Col_Has_license; Col_Item]
    [false; false; false; true]
    (parse_latest_release df).

Definition software_view (df : list (Rec string)) : Table datetime :=
  drop helper_cols
    (select
       [Col_Item; Col_latest_release; Col_Licenses; Col_Official_website;
        Col_Wikidata_page]
       {| columns := df_columns; records := software_sorted df |}).

(** The other branch: sort, select. *)
Definition ontology_sorted (df : list (Rec string)) : list (Rec string) :=
  sort_values [Col_Has_website; Col_Has_license; Col_Item]
              [false; false; true] df.

Definition ontology_view (df : list (Rec string)) : Table string :=
  drop helper_cols
    (select
       [Col_Item; Col_Licenses; Col_Official_website; Col_Wikidata_page;
        Col_Part_of]
       {| columns := df_columns; records := ontology_sorted df |}).

(** The script from the choice of the query to the table, with the filter
    box left empty. *)
Definition script (RESOURCE_KIND : string) (LIMIT : Z) : IO View :=
  rows ← query_to_df (query RESOURCE_KIND LIMIT);
  df ← lift (derived_columns rows);
  mret (if is_software RESOURCE_KIND then SoftwareView (software_view df)
        else OntologyView (ontology_view df)).

End Script.

End App.

(** ** scripts/build_catalog.py *)

Module BuildCatalog.
Import Py.

Record Distribution : Type := {
  format : option string;
  media_type : option string;
  download_url : option string
}.

Record Resource : Type := {
  id : string;
  name : string;
  kind : string;
  domain : option string;
  free : option bool;
  publisher : option string;
  description : option string;
  license_name : option string;
  license_url : option string;
  homepage : option string;
  distributions : list Distribution
}.

(** The truth value of an optional string: [None] and the empty string are
    false. *)
Definition truthy (o : option string) : bool :=
  match o with
  | Some s => negb (String.eqb s "")
  | None => false
  end.

(** [o or ""] *)
Definition or_empty (o : option string) : string :=
  if truthy o then default "" o else "".

(** [[d.format for d in r.distributions if d.format]] *)
Definition formats_of (r : Resource) : list string :=
  omap (fun d => if truthy (format d) then format d else None)
       (distributions r).

(** One turn of the loop of [summarize_formats] on the pair of [seen] and
    [uniq]. *)
Definition note_format (st : gset string * list string) (f : string)
  : gset string * list string :=
  let '(seen, uniq) := st in
  if decide (f ∈ seen) then st else ({[ f ]} ∪ seen, uniq ++ [f]).

Definition summarize_formats (r : Resource) : string :=
  let fmts := formats_of r in
  let '(_, uniq) := foldl note_format (∅, []) fmts in
  join "|" uniq.

(** [str(b).lower()] *)
Definition str_bool_lower (b : bool) : string := if b then "true" else "false".

Definition fieldnames : list string :=
  [ "id"; "name"; "kind"; "domain"; "free"; "license_name"; "license_url";
    "publisher"; "homepage"; "formats" ].

(** The dict [write_csv] hands to the writer for one resource. *)
Definition csv_row (r : Resource) : gmap string string :=
  list_to_map
    [ ("id", id r);
      ("name", name r);
      ("kind", kind r);
      ("domain", or_empty (domain r));
      ("free", match free r with
               | None => ""
               | Some b => str_bool_lower b
               end);
      ("license_name", or_empty (license_name r));
      ("license_url", or_empty (license_url r));
      ("publisher", or_empty (publisher r));
      ("homepage", or_empty (homepage r));
      ("formats", summarize_formats r) ].

(** The fields of the CSV line of [r], in the order of [fieldnames]. *)
Definition csv_fields (r : Resource) : list string :=
  map (fun f => get (csv_row r) f "") fieldnames.

End BuildCatalog.

(** ** Inputs for running the models *)

Module Samples.
Import Py App BuildCatalog.

(** *** Calendar dates

    An instance of [to_datetime] for the dates that Wikidata serves,
    [YYYY-MM-DD] with an optional [T00:00:00Z] behind: the instant of
    midnight UTC of that day, and [NaT] for any other text and for days
    outside the range of a 64-bit count of nanoseconds. *)
Definition two_digits (a b : ascii) : option Z :=
  x ← digit_value a; y ← digit_value b; Some (10 * x + y).

Definition leap (y : Z) : bool :=
  ((y mod 4 =? 0) && negb (y mod 100 =? 0)) || (y mod 400 =? 0).

Definition days_in_month (y m : Z) : Z :=
  if m =? 2 then (if leap y then 29 else 28)
  else if (m =? 4) || (m =? 6) || (m =? 9) || (m =? 11) then 30 else 31.

(** Days from 1970-01-01 to the given day of the proleptic Gregorian
    calendar. *)
Definition days_from_civil (y m d : Z) : Z :=
  let y := if m <=? 2 then y - 1 else y in
  let era := y / 400 in
  let yoe := y - era * 400 in
  let doy := (153 * (if 2 <? m then m - 3 else m + 9) + 2) / 5 + d - 1 in
  let doe := yoe * 365 + yoe / 4 - yoe / 100 + doy in
  era * 146097 + doe - 719468.

Definition parse_date (s : string) : datetime :=
  match s with
  | String y1 (String y2 (String y3 (String y4 (String "-" (String m1
      (String m2 (String "-" (String d1 (String d2 rest))))))))) =>
      if String.eqb rest "" || String.eqb rest "T00:00:00Z" then
        match two_digits y1 y2, two_digits y3 y4, two_digits m1 m2,
              two_digits d1 d2 with
        | Some yh, Some yl, Some m, Some d =>
            let y := 100 * yh + yl in
            let ns := days_from_civil y m d * 86400 * 1000000000 in
            if (1 <=? m) && (m <=? 12) && (1 <=? d) && (d <=? days_in_month y m)
               && (- 2 ^ 63 <? ns) && (ns <? 2 ^ 63)
            then Timestamp ns else NaT
        | _, _, _, _ => NaT
        end
      else NaT
  | _ => NaT
  end.

Definition iso_to_datetime (series : list string) (i : nat) : datetime :=
  match series !! i with
  | Some s => parse_date s
  | None => NaT
  end.

(** *** Remotes *)

Definition response (status : Z) (hs : list (string * string))
    (bindings : list Binding) : Response :=
  {| status_code := status;
     headers := list_to_map hs;
     body := Some {[ "results" := {[ "bindings" := bindings ]} ]} |}.

(** A server met by a machine that has been up for an hour. *)
Definition up_an_hour (answers : nat -> Request -> outcome) : remote :=
  {| answer := answers; monotonic := 3600000000000 |}.

(** A server that is busy once, asks for two seconds and then answers. *)
Definition busy_once (bindings : list Binding) : remote :=
  up_an_hour (fun n _ =>
    match n with
    | O => Answers (response 429 [("retry-after", "2")] [])
    | _ => Answers (response 200 [] bindings)
    end).

(** A server that is busy at every request and names no wait. *)
Definition always_busy : remote :=
  up_an_hour (fun _ _ => Answers (response 429 [] [])).

(** A server that is busy and gives the time of the next try as an HTTP
    date, the other form RFC 9110 allows for [Retry-After]. *)
Definition busy_until_date : remote :=
  up_an_hour (fun _ _ =>
    Answers (response 429 [("retry-after", "Wed, 21 Oct 2015 07:28:00 GMT")] [])).

(** A server that is busy and sends a wait that is not a number. *)
Definition busy_soon : remote :=
  up_an_hour (fun _ _ => Answers (response 429 [("retry-after", "soon")] [])).

(** A server that is busy and asks for the longest wait that fits the count
    of nanoseconds. *)
Definition busy_for_ages : remote :=
  up_an_hour (fun _ _ =>
    Answers (response 429 [("retry-after", "9223372036")] [])).

(** A server that answers at once. *)
Definition ready (bindings : list Binding) : remote :=
  up_an_hour (fun _ _ => Answers (response 200 [] bindings)).

(** *** Bindings *)

Definition term (value : string) : Term := {[ "value" := value ]}.

(** A binding with the two required variables only. *)
Definition bare_binding (label uri : string) : Binding :=
  {[ "itemLabel" := term label; "item" := term uri ]}.

(** A software binding as the software query returns it, [partOf] bound. *)
Definition git_binding : Binding :=
  {[ "itemLabel" := term "Git";
     "item" := term "http://www.wikidata.org/entity/Q186055";
     "officialWebsites" := term "https://git-scm.com";
     "licenses" := term "GNU General Public License, version 2.0";
     "partOf" := term "Software Freedom Conservancy";
     "latestReleaseDate" := term "2024-05-31T00:00:00Z" ]}.

(** A binding without [itemLabel], one without [item]. *)
Definition unlabelled_binding : Binding :=
  {[ "item" := term "http://www.wikidata.org/entity/Q1" ]}.

Definition itemless_binding : Binding :=
  {[ "itemLabel" := term "Universe" ]}.

(** *** Rows *)

Definition row (item websites licenses released : string) : Row :=
  {| row_Item := item;
     row_Wikidata := "http://www.wikidata.org/entity/" +:+ item;
     row_Official_websites := websites;
     row_Licenses := licenses;
     row_Part_of := "";
     row_latest_release := released |}.

(** *** Resources *)



End Samples.

(** ** The properties as the specification words them *)

Module Stated.
Import Py App.

(** The optional variables of a binding, each with the column it fills. *)
Definition optional_fields : list (string * (Row -> string)) :=
  [ ("officialWebsites", row_Official_websites);
    ("licenses", row_Licenses);
    ("partOf", row_Part_of);
    ("latestReleaseDate", row_latest_release) ].


(** A binding gives the value of a variable. *)
Definition value_of (b : Binding) (name : string) : option string :=
  t ← b !! name; t !! "value".

(** The first segment of a text whose segments are joined by [" | "]. *)
Definition first_segment (s : string) : string :=
  match str_split " | " s with
  | w :: _ => w
  | [] => ""
  end.

(** The text before the first space of a text (all of it without one). *)
Fixpoint until_space (s : string) : string :=
  match s with
  | EmptyString => EmptyString
  | String c r => if Ascii.eqb c " " then EmptyString else String c (until_space r)
  end.

Fixpoint has_space (s : string) : bool :=
  match s with
  | EmptyString => false
  | String c r => Ascii.eqb c " " || has_space r
  end.

(** A text has a character that is not white space. *)
Fixpoint has_visible (s : string) : bool :=
  match s with
  | EmptyString => false
  | String c r => negb (isspace c) || has_visible r
  end.

(** [True] before [False], then [a] before [b] in the order of the names:
    the order of two rows on website, license and name, where [r] may stand
    before [s]. *)
Definition tie_order {D} (r s : Rec D) : Prop :=
  (Has_website r = true /\ Has_website s = false)
  \/ (Has_website r = Has_website s
      /\ ((Has_license r = true /\ Has_license s = false)
          \/ (Has_license r = Has_license s
              /\ String.leb (Item r) (Item s) = true))).

(** The order of the ontology table. *)
Definition ontology_order (r s : Rec string) : Prop := tie_order r s.


(** Two rows have the same sort key. *)
Definition same_ontology_key (r s : Rec string) : Prop :=
  Has_website r = Has_website s /\ Has_license r = Has_license s
  /\ Item r = Item s.

Definition same_software_key (r s : Rec datetime) : Prop :=
  latest_release r = latest_release s
  /\ Has_website r = Has_website s /\ Has_license r = Has_license s
  /\ Item r = Item s.

(** *** Notions for the proofs about sorting *)

(** The keys of the two sorts, each column with its direction. *)
Definition software_keys : list (column * bool) :=
  [ (Col_latest_release, false); (Col_Has_website, false);
    (Col_Has_license, false); (Col_Item, true) ].

Definition ontology_keys : list (column * bool) :=
  [ (Col_Has_website, false); (Col_Has_license, false); (Col_Item, true) ].

(** The laws of a column type: [key_compare] is a total order on its
    values, in either direction. *)
Class OrderedLaws (K : Type) `{Ordered K} : Prop := {
  key_antisym : forall (asc : bool) (x y : K),
    key_compare asc x y = CompOpp (key_compare asc y x);
  key_eq : forall (asc : bool) (x y : K), key_compare asc x y = Eq -> x = y;
  key_lt_trans : forall (asc : bool) (x y z : K),
    key_compare asc x y = Lt -> key_compare asc y z = Lt ->
    key_compare asc x z = Lt
}.

(** [r] may stand before [s]. *)
Definition before {D} `{Ordered D} (keys : list (column * bool))
    (r s : Rec D) : Prop :=
  keys_compare keys r s <> Gt.

(** [r] stands before [s] in a sorted frame made from a frame where [r]
    had the smaller label whenever the two tie. *)
Definition settled {D} `{Ordered D} (keys : list (column * bool))
    (r s : Rec D) : Prop :=
  keys_compare keys r s = Lt
  \/ (keys_compare keys r s = Eq /\ (index r < index s)%nat).

(** Labels that grow along the frame, as [pd.DataFrame] gives them. *)
Definition labelled {D} (df : list (Rec D)) : Prop :=
  StronglySorted (fun r s => (index r < index s)%nat) df.


(** *** Notions for the proof about the formats *)



End Stated.

(** ** scripts/build_catalog.py: loading the resource files *)

Module Loader.
Import Py BuildCatalog.

(** What [yaml.safe_load] returns: null, a boolean, an integer, a text, a
    sequence, or a mapping (kept by its text keys, the only ones the loader
    asks for). Floats and dates, which no field of a resource is declared to
    hold, are left out. *)
#[warnings="-register-all"]
Inductive yaml : Type :=
  | YNull
  | YBool (b : bool)
  | YInt (n : Z)
  | YStr (s : string)
  | YSeq (items : list yaml)
  | YMap (members : gmap string yaml).

(** How a load ends when it does not return. The first three are the
    [ValueError]s the script raises itself, kept by what their messages
    name; the others are raised by Python on a value of the wrong shape
    ([TypeError], [AttributeError], [KeyError]), by [open] or
    [yaml.safe_load] ([Read_error]); the last two are the [SystemExit]s of
    [main]. *)
Inductive failure : Type :=
  | Missing_field (key path : string)
  | Invalid_kind (path : string)
  | Invalid_boolean
  | Type_error
  | Attribute_error
  | Key_error (key : string)
  | Read_error
  | No_resources_folder
  | No_resources_found.

Inductive attempt (A : Type) : Type :=
  | Done (a : A)
  | Failed (e : failure).
Arguments Done {A} a.
Arguments Failed {A} e.

#[export] Instance attempt_ret : MRet attempt := fun A a => Done a.

#[export] Instance attempt_bind : MBind attempt := fun A B k r =>
  match r with
  | Done a => k a
  | Failed e => Failed e
  end.

Definition ALLOWED_KINDS : list string :=
  [ "ontology"; "taxonomy"; "vocabulary"; "reference-dataset"; "schema" ].

(** The truth value of a value: null, [False], 0 and what is empty are
    false. *)
Definition truth (v : yaml) : bool :=
  match v with
  | YNull => false
  | YBool b => b
  | YInt n => negb (n =? 0)
  | YStr s => negb (String.eqb s "")
  | YSeq l => match l with [] => false | _ => true end
  | YMap m => negb (bool_decide (m = ∅))
  end.

(** [v or default] *)
Definition or_else (v default : yaml) : yaml := if truth v then v else default.

Definition is_text (key : string) (v : yaml) : bool :=
  match v with
  | YStr s => String.eqb s key
  | _ => false
  end.

(** [key in obj]: a key of a mapping, an item of a sequence, a part of a
    text; a number or a boolean is not a container. *)
Definition contains (obj : yaml) (key : string) : attempt bool :=
  match obj with
  | YMap m => Done (bool_decide (is_Some (m !! key)))
  | YSeq l => Done (existsb (is_text key) l)
  | YStr s => Done (bool_decide (is_Some (String.index 0 key s)))
  | _ => Failed Type_error
  end.

(** [obj[key]] for a text key: only a mapping has text keys. *)
Definition subscript (obj : yaml) (key : string) : attempt yaml :=
  match obj with
  | YMap m =>
      match m !! key with
      | Some v => Done v
      | None => Failed (Key_error key)
      end
  | _ => Failed Type_error
  end.

(** [obj.get(key)]: only a mapping has the method. *)
Definition get_member (obj : yaml) (key : string) : attempt yaml :=
  match obj with
  | YMap m => Done (default YNull (m !! key))
  | _ => Failed Attribute_error
  end.

(** [_req(obj, key, path)]: the key must exist and be non-empty. *)
Definition _req (obj : yaml) (key path : string) : attempt yaml :=
  present ← contains obj key;
  if negb present then Failed (Missing_field key path)
  else
    v ← subscript obj key;
    match v with
    | YNull => Failed (Missing_field key path)
    | YStr s =>
        if String.eqb s "" then Failed (Missing_field key path) else Done v
    | _ => Done v
    end.

Definition TRUE_WORDS : list string := [ "true"; "yes"; "y"; "1" ].
Definition FALSE_WORDS : list string := [ "false"; "no"; "n"; "0" ].

(** [_bool_or_none(v)] *)
Definition _bool_or_none (v : yaml) : attempt (option bool) :=
  match v with
  | YNull => Done None
  | YBool b => Done (Some b)
  | YStr s =>
      if String.eqb s "" then Done None
      else
        let s := lower (strip s) in
        if bool_decide (s ∈ TRUE_WORDS) then Done (Some true)
        else if bool_decide (s ∈ FALSE_WORDS) then Done (Some false)
        else Failed Invalid_boolean
  | _ => Failed Invalid_boolean
  end.

(** [s.endswith(suffix)] *)
Definition endswith (s suffix : string) : bool :=
  (String.length suffix <=? String.length s)%nat
  && String.eqb
       (String.substring (String.length s - String.length suffix)
          (String.length suffix) s)
       suffix.

(** [os.path.join(a, b)] on POSIX paths. *)
Definition path_join (a b : string) : string :=
  if startswith b "/" then b
  else if String.eqb a "" || endswith a "/" then a +:+ b
  else a +:+ "/" +:+ b.

(** [os.path.basename(p)]: what follows the last slash. *)
Fixpoint basename (p : string) : string :=
  match p with
  | EmptyString => EmptyString
  | String c r =>
      if bool_decide (is_Some (String.index 0 "/" p)) then basename r
      else p
  end.

(** [sorted(l)] on texts, which Python compares by code points. *)
Fixpoint insert_sorted (x : string) (l : list string) : list string :=
  match l with
  | [] => [x]
  | y :: l' => if String.leb x y then x :: l else y :: insert_sorted x l'
  end.

Definition sorted (l : list string) : list string := foldr insert_sorted [] l.

Definition is_yaml_name (fn : string) : bool :=
  endswith fn ".yaml" || endswith fn ".yml".

(** [iter_yaml_files(root_dir)], from what [os.walk(root_dir)] yields: each
    directory with the names of its files. *)
Definition iter_yaml_files (walk : list (string * list string)) : list string :=
  sorted
    (concat
       (map (fun '(r, files) =>
               map (path_join r) (List.filter is_yaml_name files))
            walk)).

(** A distribution and a resource as the loader builds them: Python checks
    no field against its declared type, so each holds the value of the
    file. *)
Record Loaded_distribution : Type := {
  l_format : yaml;
  l_media_type : yaml;
  l_download_url : yaml
}.

Record Loaded : Type := {
  l_id : yaml;
  l_name : yaml;
  l_kind : yaml;
  l_domain : yaml;
  l_free : option bool;
  l_publisher : yaml;
  l_description : yaml;
  l_license_name : yaml;
  l_license_url : yaml;
  l_homepage : yaml;
  l_distributions : list Loaded_distribution
}.

(** [kind not in ALLOWED_KINDS]: a sequence or a mapping cannot be looked
    up in a set. *)
Definition allowed_kind (kind : yaml) : attempt bool :=
  match kind with
  | YStr s => Done (bool_decide (s ∈ ALLOWED_KINDS))
  | YSeq _ | YMap _ => Failed Type_error
  | _ => Done false
  end.

(** What [for d in v] goes through: the items of a sequence, the keys of a
    mapping, the characters of a text. *)
Definition iterate (v : yaml) : attempt (list yaml) :=
  match v with
  | YSeq l => Done l
  | YMap m => Done (map (fun kv => YStr (fst kv)) (map_to_list m))
  | YStr s => Done (map (fun c => YStr (String c EmptyString)) (list_ascii_of_string s))
  | _ => Failed Type_error
  end.

Definition load_distribution (d : yaml) : attempt Loaded_distribution :=
  f ← get_member d "format";
  m ← get_member d "media_type";
  u ← get_member d "download_url";
  Done {| l_format := f; l_media_type := m; l_download_url := u |}.

Fixpoint load_distributions (ds : list yaml) : attempt (list Loaded_distribution) :=
  match ds with
  | [] => Done []
  | d :: ds' =>
      x ← load_distribution d; xs ← load_distributions ds'; Done (x :: xs)
  end.

(** The body of the loop of [load_resources] for a file that is not
    skipped. *)
Definition load_resource (data : yaml) (fp : string) : attempt Loaded :=
  rid ← _req data "id" fp;
  name ← _req data "name" fp;
  kind ← _req data "kind" fp;
  ok ← allowed_kind kind;
  if negb ok then Failed (Invalid_kind fp)
  else
    license_obj ← (v ← get_member data "license"; Done (or_else v (YMap ∅)));
    links_obj ← (v ← get_member data "links"; Done (or_else v (YMap ∅)));
    ds ← (v ← get_member data "distributions"; iterate (or_else v (YSeq [])));
    dists ← load_distributions ds;
    domain ← get_member data "domain";
    free ← get_member data "free" ≫= _bool_or_none;
    publisher ← get_member data "publisher";
    description ← get_member data "description";
    license_name ← get_member license_obj "name";
    license_url ← get_member license_obj "url";
    homepage ← get_member links_obj "homepage";
    Done {| l_id := rid; l_name := name; l_kind := kind; l_domain := domain;
            l_free := free; l_publisher := publisher;
            l_description := description; l_license_name := license_name;
            l_license_url := license_url; l_homepage := homepage;
            l_distributions := dists |}.

Section Files.

(** [open(fp)] followed by [yaml.safe_load]: the value of the file, or the
    failure to read it. *)
Variable read : string -> attempt yaml.

(** The loop of [load_resources] over the paths. A file whose name starts
    with an underscore is read, then skipped. *)
Fixpoint load_files (paths : list string) : attempt (list Loaded) :=
  match paths with
  | [] => Done []
  | fp :: paths' =>
      data ← read fp;
      let data := or_else data (YMap ∅) in
      if startswith (basename fp) "_" then load_files paths'
      else r ← load_resource data fp; rs ← load_files paths'; Done (r :: rs)
  end.

(** [load_resources(resources_dir)], from what [os.walk] yields there. *)
Definition load_resources (walk : list (string * list string))
  : attempt (list Loaded) :=
  load_files (iter_yaml_files walk).

(** [main] up to the two writes: the resources it would write, or the exit. *)
Definition main_resources (isdir : bool) (walk : list (string * list string))
  : attempt (list Loaded) :=
  if negb isdir then Failed No_resources_folder
  else
    resources ← load_resources walk;
    match resources with
    | [] => Failed No_resources_found
    | _ => Done resources
    end.

End Files.

(** A loaded value as a field declared [str], and as one declared
    [Optional[str]]. *)
Definition as_str (v : yaml) : option string :=
  match v with
  | YStr s => Some s
  | _ => None
  end.

Definition as_text (v : yaml) : option (option string) :=
  match v with
  | YNull => Some None
  | YStr s => Some (Some s)
  | _ => None
  end.

Definition as_distribution (d : Loaded_distribution) : option Distribution :=
  f ← as_text (l_format d); m ← as_text (l_media_type d);
  u ← as_text (l_download_url d);
  Some {| format := f; media_type := m; download_url := u |}.

(** The loaded resource as the dataclass declares it, when every field
    holds a value of its declared type. *)
Definition as_resource (r : Loaded) : option Resource :=
  i ← as_str (l_id r); n ← as_str (l_name r); k ← as_str (l_kind r);
  d ← as_text (l_domain r); p ← as_text (l_publisher r);
  ds ← as_text (l_description r); ln ← as_text (l_license_name r);
  lu ← as_text (l_license_url r); h ← as_text (l_homepage r);
  dists ← mapM as_distribution (l_distributions r);
  Some {| BuildCatalog.id := i; name := n; kind := k; domain := d;
          free := l_free r; publisher := p; description := ds;
          license_name := ln; license_url := lu; homepage := h;
          distributions := dists |}.

End Loader.

(** ** scripts/build_catalog.py: the graph of [write_ttl] *)

Module Turtle.
Import Py BuildCatalog.

(** A node or a value of the graph: an IRI, a plain literal, or a literal
    of type [xsd:boolean]. *)
Inductive term : Type :=
  | URIRef (iri : string)
  | Literal (text : string)
  | Literal_boolean (b : bool).

Definition triple : Type := term * term * term.

(** The namespaces: [DCAT] is the script's, the others are rdflib's. *)
Definition DCAT : string := "http://www.w3.org/ns/dcat#".
Definition DCTERMS : string := "http://purl.org/dc/terms/".
Definition OWL : string := "http://www.w3.org/2002/07/owl#".
Definition SKOS : string := "http://www.w3.org/2004/02/skos/core#".
Definition RDF : string := "http://www.w3.org/1999/02/22-rdf-syntax-ns#".

(** [NS.local] and [NS["local"]] *)
Definition term_of (namespace local : string) : term :=
  URIRef (namespace +:+ local).

Definition is_slash (c : ascii) : bool := Ascii.eqb c "/".

(** [Namespace(base_iri.rstrip("/") + "/")] *)
Definition BASE (base_iri : string) : string :=
  rstrip_with is_slash base_iri +:+ "/".

Definition catalog (base_iri : string) : term :=
  term_of (BASE base_iri) "catalog".

Definition FREE (base_iri : string) : term :=
  term_of (BASE base_iri) "prop/free".

Definition subject (base_iri : string) (r : Resource) : term :=
  term_of (BASE base_iri) ("resource/" +:+ BuildCatalog.id r).

(** The node of the distribution numbered [i] of [r]. The number counts
    the entries of a list, so it has far fewer digits than [str_int]
    refuses, and the field [{i}] is its decimal numeral. *)
Definition distribution_node (base_iri : string) (r : Resource) (i : nat)
  : term :=
  term_of (BASE base_iri)
    ("distribution/" +:+ BuildCatalog.id r +:+ "/" +:+ decimal (Z.of_nat i)).

(** The triples added under [if o:], for a field that may be [None]. *)
Definition when_given (o : option string) (t : string -> triple)
  : list triple :=
  if truthy o then match o with Some s => [t s] | None => [] end else [].

(** The triples of the distribution at position [k] of the list, which
    [enumerate(..., start=1)] numbers [k + 1]. *)
Definition distribution_triples (base_iri : string) (r : Resource) (k : nat)
    (d : Distribution) : list triple :=
  let subj := subject base_iri r in
  let dist := distribution_node base_iri r (S k) in
  [ (dist, term_of RDF "type", term_of DCAT "Distribution");
    (subj, term_of DCAT "distribution", dist) ]
  ++ when_given (download_url d) (fun u => (dist, term_of DCAT "downloadURL", URIRef u))
  ++ when_given (media_type d) (fun m => (dist, term_of DCAT "mediaType", Literal m))
  ++ when_given (format d) (fun f => (dist, term_of DCTERMS "format", Literal f)).

(** The triples of the loop body of [write_ttl] for one resource, in the
    order they are added. *)
Definition resource_triples (base_iri : string) (r : Resource) : list triple :=
  let subj := subject base_iri r in
  [ (subj, term_of RDF "type",
     if String.eqb (kind r) "reference-dataset" then term_of DCAT "Dataset"
     else term_of DCAT "Resource") ]
  ++ (if String.eqb (kind r) "ontology"
      then [ (subj, term_of RDF "type", term_of OWL "Ontology") ] else [])
  ++ (if String.eqb (kind r) "taxonomy" || String.eqb (kind r) "vocabulary"
      then [ (subj, term_of RDF "type", term_of SKOS "ConceptScheme") ]
      else [])
  ++ [ (subj, term_of DCTERMS "identifier", Literal (BuildCatalog.id r));
       (subj, term_of DCTERMS "title", Literal (name r)) ]
  ++ when_given (description r)
       (fun s => (subj, term_of DCTERMS "description", Literal s))
  ++ when_given (publisher r)
       (fun s => (subj, term_of DCTERMS "publisher", Literal s))
  ++ when_given (homepage r)
       (fun s => (subj, term_of DCAT "landingPage", URIRef s))
  ++ (if truthy (license_url r)
      then when_given (license_url r)
             (fun s => (subj, term_of DCTERMS "license", URIRef s))
      else when_given (license_name r)
             (fun s => (subj, term_of DCTERMS "license", Literal s)))
  ++ when_given (domain r) (fun s => (subj, term_of DCAT "theme", Literal s))
  ++ match free r with
     | Some b => [ (subj, FREE base_iri, Literal_boolean b) ]
     | None => []
     end
  ++ [ (catalog base_iri, term_of DCAT "dataset", subj) ]
  ++ concat (imap (distribution_triples base_iri r) (distributions r)).

(** The triples [write_ttl] adds to the graph before it serializes it. The
    graph is the set of them. *)
Definition write_ttl (resources : list Resource) (base_iri : string)
  : list triple :=
  [ (catalog base_iri, term_of RDF "type", term_of DCAT "Catalog");
    (catalog base_iri, term_of DCTERMS "title",
     Literal "Open Knowledge Graph Resources Catalog");
    (catalog base_iri, term_of DCTERMS "description",
     Literal "A community-maintained catalog of open ontologies, taxonomies, vocabularies, and reference datasets.") ]
  ++ concat (map (resource_triples base_iri) resources).

End Turtle.

(** ** Inputs for running the catalog builder *)

Module CatalogSamples.
Import Py BuildCatalog Loader.

(** A resource file with a license and two distributions. *)
Definition skos_file : yaml :=
  YMap (list_to_map
    [ ("id", YStr "skos"); ("name", YStr "SKOS"); ("kind", YStr "vocabulary");
      ("free", YStr "Yes");
      ("license", YMap (list_to_map
         [ ("name", YStr "W3C Software Notice and License") ]));
      ("links", YMap (list_to_map
         [ ("homepage", YStr "https://www.w3.org/2004/02/skos/") ]));
      ("distributions", YSeq
         [ YMap (list_to_map [ ("format", YStr "rdf") ]);
           YMap (list_to_map [ ("format", YStr "ttl");
                               ("media_type", YStr "text/turtle") ]) ]) ]).

(** A file with a kind that is not allowed, and one without a kind. *)
Definition banana_file : yaml :=
  YMap (list_to_map
    [ ("id", YStr "banana"); ("name", YStr "Banana"); ("kind", YStr "banana") ]).

Definition kindless_file : yaml :=
  YMap (list_to_map [ ("id", YStr "x"); ("name", YStr "X") ]).

(** A file whose license is a text, not a mapping. *)
Definition license_text_file : yaml :=
  YMap (list_to_map
    [ ("id", YStr "foaf"); ("name", YStr "FOAF"); ("kind", YStr "ontology");
      ("license", YStr "CC-BY") ]).

(** A directory with a template beside one resource, as [os.walk] lists
    it, and its files. *)
Definition tree : list (string * list string) :=
  [ ("resources", ["skos.yaml"; "_template.yaml"; "README.md"]) ].

Definition read_tree (fp : string) : attempt yaml :=
  if String.eqb fp "resources/skos.yaml" then Done skos_file
  else if String.eqb fp "resources/_template.yaml" then Done kindless_file
  else Failed Read_error.

(** The same directory with a template that is not YAML. *)
Definition read_broken_template (fp : string) : attempt yaml :=
  if String.eqb fp "resources/skos.yaml" then Done skos_file
  else Failed Read_error.

(** A typed resource with every field given. *)
Definition skos : Resource :=
  {| BuildCatalog.id := "skos";
     name := "SKOS";
     kind := "vocabulary";
     domain := Some "general";
     free := Some true;
     publisher := Some "W3C";
     description := None;
     license_name := Some "W3C Software Notice and License";
     license_url := Some "https://www.w3.org/Consortium/Legal/copyright-software";
     homepage := Some "https://www.w3.org/2004/02/skos/";
     distributions :=
       [ {| format := Some "rdf"; media_type := None;
            download_url := Some "http://www.w3.org/2004/02/skos/core.rdf" |};
         {| format := Some "ttl"; media_type := Some "text/turtle";
            download_url := None |} ] |}.

End CatalogSamples.
(** ** Notions for stating the properties of the catalog builder *)

Module CatalogStated.
Import Py BuildCatalog Loader.

(** The order of [sorted] on paths: that of the code points. *)
Definition le_str (x y : string) : Prop := String.leb x y = true.

(** The paths [iter_yaml_files] takes from one directory of the walk. *)
Definition yaml_paths (entry : string * list string) : list string :=
  map (path_join (fst entry)) (List.filter is_yaml_name (snd entry)).

(** A file that is not skipped as a template. *)
Definition kept (fp : string) : bool := negb (startswith (basename fp) "_").

(** A member that is given: there, not null, not the empty text. *)
Definition given (m : gmap string yaml) (key : string) : Prop :=
  exists v : yaml, m !! key = Some v /\ v <> YNull /\ v <> YStr "".

(** [data.get(key)] on the mapping of a file. *)
Definition member (m : gmap string yaml) (key : string) : yaml :=
  default YNull (m !! key).

(** An optional text with the empty text read as no text. *)
Definition nonempty (o : option string) : option string :=
  if truthy o then o else None.

Definition distribution_without_blanks (d : Distribution) : Distribution :=
  {| format := nonempty (format d);
     media_type := nonempty (media_type d);
     download_url := nonempty (download_url d) |}.

(** A resource with every optional text that is empty taken out. *)
Definition without_blanks (r : Resource) : Resource :=
  {| BuildCatalog.id := BuildCatalog.id r;
     name := name r;
     kind := kind r;
     domain := nonempty (domain r);
     free := free r;
     publisher := nonempty (publisher r);
     description := nonempty (description r);
     license_name := nonempty (license_name r);
     license_url := nonempty (license_url r);
     homepage := nonempty (homepage r);
     distributions := map distribution_without_blanks (distributions r) |}.

(** A text made of slashes only. *)
Definition slashes (t : string) : Prop :=
  rstrip_with Turtle.is_slash t = "".

(** [c] ends with [s]. *)
Fixpoint ends_with (s c : string) : bool :=
  String.eqb s c
  || match c with
     | EmptyString => false
     | String _ c' => ends_with s c'
     end.

End CatalogStated.

(** ** The transport: rate limiting *)

Module TransportSpec.
Import Py App Samples.

(** What [run_wdqs] does, case by case. *)
Lemma run_wdqs_cases (query : string) (srv : remote) (trace : list event) :
  run_wdqs query srv trace =
  let rq := wdqs_request query in
  let once := trace ++ [Get rq] in
  match srv (requests_made trace) rq with
  | Fails e => (Raise e, once)
  | Answers r =>
      if status_code r =? 429 then
        match retry_after r with
        | Raise e => (Raise e, once)
        | Return secs =>
            if secs <? 0 then (Raise ValueError, once)
            else if SLEEP_MAX <? secs then (Raise OverflowError, once)
            else if PyTime_MAX <? monotonic srv + secs * 1000000000
            then (Raise (OSError 22), once)
            else
              let twice := (once ++ [Sleep secs]) ++ [Get rq] in
              match srv (requests_made (once ++ [Sleep secs])) rq with
              | Fails e => (Raise e, twice)
              | Answers r2 => (raise_for_status r2 ≫= (fun _ => json r2), twice)
              end
        end
      else (raise_for_status r ≫= (fun _ => json r), once)
  end.
Proof.
  unfold run_wdqs, mbind, IO_bind, requests_get, time_sleep, lift, mret, IO_ret.
  cbv zeta.
  destruct (srv (requests_made trace) (wdqs_request query)) as [r|e]; [|done].
  destruct (status_code r =? 429); cbn.
  - destruct (retry_after r) as [secs|e]; [|done].
    destruct (secs <? 0); [done|].
    destruct (SLEEP_MAX <? secs); [done|].
    destruct (PyTime_MAX <? _); [done|].
    destruct (srv _ _) as [r2|e]; [|done].
    by destruct (raise_for_status r2).
  - by destruct (raise_for_status r).
Qed.

(** A run from the empty trace sends one request, or a request, one sleep
    and a second request: never more. *)
Lemma run_wdqs_trace (query : string) (srv : remote) :
  let rq := wdqs_request query in
  let trace := snd (run_wdqs query srv []) in
  trace = [Get rq] \/ exists secs, trace = [Get rq; Sleep secs; Get rq].
Proof.
  cbv zeta. rewrite run_wdqs_cases. cbv zeta.
  destruct (srv _ _) as [r|e]; [|by left].
  destruct (status_code r =? 429); [|by left].
  destruct (retry_after r) as [secs|e]; [|by left].
  destruct (secs <? 0); [by left|].
  destruct (SLEEP_MAX <? secs); [by left|].
  destruct (PyTime_MAX <? _); [by left|].
  right. exists secs. by destruct (srv _ _).
Qed.

(** A busy answer whose wait is a duration [time.sleep] takes, with a
    deadline the clock can hold: one sleep of that duration, then the same
    request again, whose outcome ends the run. *)
Lemma run_wdqs_busy (query : string) (srv : remote) (r : Response) (secs : Z) :
  srv 0%nat (wdqs_request query) = Answers r ->
  status_code r = 429 ->
  retry_after r = Return secs ->
  0 <= secs <= SLEEP_MAX ->
  monotonic srv + secs * 1000000000 <= PyTime_MAX ->
  run_wdqs query srv [] =
    (match srv 1%nat (wdqs_request query) with
     | Fails e => Raise e
     | Answers r2 => raise_for_status r2 ≫= (fun _ => json r2)
     end,
     [Get (wdqs_request query); Sleep secs; Get (wdqs_request query)]).
Proof.
  intros Hsrv Hst Hwait [Hlo Hhi] Hclock.
  rewrite run_wdqs_cases. cbv zeta. cbn [requests_made List.filter length].
  rewrite Hsrv, Hst, Hwait. cbn [Z.eqb Pos.eqb].
  destruct (Z.ltb_spec secs 0); [lia|].
  destruct (Z.ltb_spec SLEEP_MAX secs); [lia|].
  destruct (Z.ltb_spec PyTime_MAX (monotonic srv + secs * 1000000000)); [lia|].
  cbn. by destruct (srv 1%nat _).
Qed.

(** A busy answer whose wait fits the count of nanoseconds but puts the
    deadline beyond it: the sleep is refused at once and the run ends after
    the first request. *)
Lemma run_wdqs_late (query : string) (srv : remote) (r : Response) (secs : Z) :
  srv 0%nat (wdqs_request query) = Answers r ->
  status_code r = 429 ->
  retry_after r = Return secs ->
  0 <= secs <= SLEEP_MAX ->
  PyTime_MAX < monotonic srv + secs * 1000000000 ->
  run_wdqs query srv [] = (Raise (OSError 22), [Get (wdqs_request query)]).
Proof.
  intros Hsrv Hst Hwait [Hlo Hhi] Hclock.
  rewrite run_wdqs_cases. cbv zeta. cbn [requests_made List.filter length].
  rewrite Hsrv, Hst, Hwait. cbn [Z.eqb Pos.eqb].
  destruct (Z.ltb_spec secs 0); [lia|].
  destruct (Z.ltb_spec SLEEP_MAX secs); [lia|].
  destruct (Z.ltb_spec PyTime_MAX (monotonic srv + secs * 1000000000)); [|lia].
  done.
Qed.

(** A busy answer whose wait [int] refuses: the exception ends the run
    after the first request. *)
Lemma run_wdqs_bad_wait (query : string) (srv : remote) (r : Response) (e : exn) :
  srv 0%nat (wdqs_request query) = Answers r ->
  status_code r = 429 ->
  retry_after r = Raise e ->
  run_wdqs query srv [] = (Raise e, [Get (wdqs_request query)]).
Proof.
  intros Hsrv Hst Hwait. rewrite run_wdqs_cases. cbv zeta.
  cbn [requests_made List.filter length]. by rewrite Hsrv, Hst, Hwait.
Qed.

Lemma raise_for_status_429 (r : Response) :
  status_code r = 429 -> raise_for_status r = Raise (HTTPError 429).
Proof. intros H. unfold raise_for_status. by rewrite H. Qed.

(** [int] raises nothing but [ValueError]. *)
Lemma int_raises (s : string) (e : exn) : int s = Raise e -> e = ValueError.
Proof.
  unfold int.
  destruct (rstrip_with _ _) as [|c body]; cbn zeta.
  - destruct (digits _ _ _ _) as [[n k]|]; [|congruence].
    destruct (_ <? _)%nat; congruence.
  - destruct (if ord c =? 43 then _ else _) as [sign ds].
    destruct (digits _ _ _ _) as [[n k]|]; [|congruence].
    destruct (_ <? _)%nat; congruence.
Qed.

Lemma retry_after_absent (r : Response) :
  headers r !! "retry-after" = None -> retry_after r = Return 5.
Proof.
  intros H. unfold retry_after, headers_get, get.
  change (lower "Retry-After") with "retry-after". by rewrite H.
Qed.

Lemma retry_after_present (r : Response) (v : string) :
  headers r !! "retry-after" = Some v -> retry_after r = int v.
Proof.
  intros H. unfold retry_after, headers_get, get.
  change (lower "Retry-After") with "retry-after". by rewrite H.
Qed.

(** X28: a run sends at most two requests. When the first answer is
    429 and its wait (the [Retry-After] header read by [int], 5 without the
    header) is a duration that [time.sleep] takes, then, with a deadline
    the clock can hold, the run sleeps once for that duration and sends the
    same request once more; when that second answer is 429 too, the run
    ends with [HTTPError 429] and no third request, and when it is a 200
    with a JSON body the run returns that body. With a deadline beyond the
    clock the sleep is refused, and the run ends after the one request. *)
Theorem run_wdqs_retries_once (query : string) (srv : remote) :
  let rq := wdqs_request query in
  let out := run_wdqs query srv [] in
  (requests_made (snd out) <= 2)%nat
  /\ (forall (r : Response) (secs : Z),
        srv 0%nat rq = Answers r ->
        status_code r = 429 ->
        retry_after r = Return secs ->
        0 <= secs <= SLEEP_MAX ->
        (monotonic srv + secs * 1000000000 <= PyTime_MAX ->
         snd out = [Get rq; Sleep secs; Get rq]
         /\ (forall r2 : Response,
               srv 1%nat rq = Answers r2 ->
               status_code r2 = 429 ->
               fst out = Raise (HTTPError 429))
         /\ (forall (r2 : Response) (data : Data),
               srv 1%nat rq = Answers r2 ->
               status_code r2 = 200 ->
               body r2 = Some data ->
               fst out = Return data))
        /\ (PyTime_MAX < monotonic srv + secs * 1000000000 ->
            out = (Raise (OSError 22), [Get rq]))).
Proof.
  cbv zeta. split.
  - destruct (run_wdqs_trace query srv) as [-> | [secs ->]]; cbn; lia.
  - intros r secs Hsrv Hst Hwait Hsecs. split.
    + intros Hclock.
      rewrite (run_wdqs_busy query srv r secs Hsrv Hst Hwait Hsecs Hclock).
      cbn [fst snd]. split; [done|]. split.
      * intros r2 -> Hst2. by rewrite (raise_for_status_429 r2 Hst2).
      * intros r2 data -> Hst2 Hbody.
        unfold raise_for_status, json. by rewrite Hst2, Hbody.
    + intros Hclock. by apply run_wdqs_late with r secs.
Qed.

Lemma run_wdqs_retries_once_witness :
  (requests_made (snd (run_wdqs "q" always_busy [])) <= 2)%nat
  /\ snd (run_wdqs "q" always_busy []) =
       [Get (wdqs_request "q"); Sleep 5; Get (wdqs_request "q")]
  /\ fst (run_wdqs "q" always_busy []) = Raise (HTTPError 429)
  /\ snd (run_wdqs "q" (busy_once [git_binding]) []) =
       [Get (wdqs_request "q"); Sleep 2; Get (wdqs_request "q")]
  /\ fst (run_wdqs "q" (busy_once [git_binding]) []) =
       Return {[ "results" := {[ "bindings" := [git_binding] ]} ]}
  /\ run_wdqs "q" busy_for_ages [] =
       (Raise (OSError 22), [Get (wdqs_request "q")]).
Proof.
  destruct (run_wdqs_retries_once "q" always_busy) as [Hmax Hbusy].
  destruct (Hbusy (response 429 [] []) 5) as ((Htrace & Hend & _) & _).
  { reflexivity. }
  { reflexivity. }
  { reflexivity. }
  { unfold SLEEP_MAX. lia. }
  { by vm_compute. }
  destruct (run_wdqs_retries_once "q" (busy_once [git_binding])) as [_ Honce].
  destruct (Honce (response 429 [("retry-after", "2")] []) 2)
    as ((Htrace2 & _ & Hdata) & _).
  { reflexivity. }
  { reflexivity. }
  { reflexivity. }
  { unfold SLEEP_MAX. lia. }
  { by vm_compute. }
  destruct (run_wdqs_retries_once "q" busy_for_ages) as [_ Hages].
  destruct (Hages (response 429 [("retry-after", "9223372036")] [])
              9223372036) as (_ & Hlate).
  { reflexivity. }
  { reflexivity. }
  { by vm_compute. }
  { unfold SLEEP_MAX. lia. }
  split; [exact Hmax|]. split; [exact Htrace|].
  split; [apply (Hend (response 429 [] [])); reflexivity|].
  split; [exact Htrace2|].
  split; [apply (Hdata (response 200 [] [git_binding])); reflexivity|].
  apply Hlate. by vm_compute.
Defined.

(** C1 at a busy answer that gives the time of the next try as a date, the
    other form RFC 9110 allows for [Retry-After]: the wait is not replaced
    by 5. The [ValueError] of [int] ends the run after one request, and
    the run neither sleeps nor tries again. *)
Theorem run_wdqs_http_date_no_retry :
  run_wdqs "q" busy_until_date [] = (Raise ValueError, [Get (wdqs_request "q")])
  /\ suspensions (snd (run_wdqs "q" busy_until_date [])) = 0%nat
  /\ requests_made (snd (run_wdqs "q" busy_until_date [])) = 1%nat.
Proof. by vm_compute. Qed.

(** X29: the wait is 5 when the answer has no [Retry-After] header, and
    [int] of the header's value when it has one; a value that [int] reads
    as a duration [time.sleep] takes, with a deadline the clock can hold,
    is the length of the one sleep; a value that [int] refuses is not
    replaced by 5: its [ValueError] ends the run after the first request,
    before any sleep. *)
Theorem retry_after_default_only_when_absent (r : Response) :
  (headers r !! "retry-after" = None -> retry_after r = Return 5)
  /\ (forall v : string,
        headers r !! "retry-after" = Some v -> retry_after r = int v)
  /\ (forall (query : string) (srv : remote) (secs : Z),
        srv 0%nat (wdqs_request query) = Answers r ->
        status_code r = 429 ->
        retry_after r = Return secs ->
        0 <= secs <= SLEEP_MAX ->
        monotonic srv + secs * 1000000000 <= PyTime_MAX ->
        List.filter is_sleep (snd (run_wdqs query srv [])) = [Sleep secs])
  /\ (forall (query : string) (srv : remote) (e : exn),
        srv 0%nat (wdqs_request query) = Answers r ->
        status_code r = 429 ->
        retry_after r = Raise e ->
        e = ValueError
        /\ run_wdqs query srv [] = (Raise ValueError, [Get (wdqs_request query)])).
Proof.
  split; [apply retry_after_absent|].
  split; [apply retry_after_present|].
  split.
  - intros query srv secs Hsrv Hst Hwait Hsecs Hclock.
    by rewrite (run_wdqs_busy query srv r secs Hsrv Hst Hwait Hsecs Hclock).
  - intros query srv e Hsrv Hst Hwait.
    assert (e = ValueError) as ->.
    { unfold retry_after in Hwait. by apply int_raises in Hwait. }
    split; [done|]. by apply run_wdqs_bad_wait with r.
Qed.

Lemma retry_after_default_only_when_absent_witness :
  retry_after (response 429 [] []) = Return 5
  /\ retry_after (response 429 [("retry-after", "2")] []) = Return 2
  /\ List.filter is_sleep (snd (run_wdqs "q" (busy_once []) [])) = [Sleep 2]
  /\ run_wdqs "q" busy_soon [] = (Raise ValueError, [Get (wdqs_request "q")]).
Proof.
  destruct (retry_after_default_only_when_absent (response 429 [] []))
    as (Habsent & _).
  destruct (retry_after_default_only_when_absent
              (response 429 [("retry-after", "2")] []))
    as (_ & Hpresent & Hsleep & _).
  destruct (retry_after_default_only_when_absent
              (response 429 [("retry-after", "soon")] []))
    as (_ & _ & _ & Hraise).
  split; [apply Habsent; reflexivity|].
  split; [rewrite (Hpresent "2"); reflexivity|].
  split.
  - apply (Hsleep "q" (busy_once []) 2).
    + reflexivity.
    + reflexivity.
    + reflexivity.
    + unfold SLEEP_MAX. lia.
    + by vm_compute.
  - apply (Hraise "q" busy_soon ValueError).
    + reflexivity.
    + reflexivity.
    + reflexivity.
Defined.

(** C3 at a [Retry-After] header that is a date, and at one that is a
    word: the wait read from the answer is the [ValueError] of [int], not
    the default of 5, which the code gives only to an answer without the
    header. *)
Theorem retry_after_unparseable_raises :
  retry_after
    (response 429 [("retry-after", "Wed, 21 Oct 2015 07:28:00 GMT")] [])
  = Raise ValueError
  /\ retry_after (response 429 [("retry-after", "soon")] []) = Raise ValueError
  /\ retry_after (response 429 [] []) = Return 5
  /\ fst (run_wdqs "q" busy_soon []) = Raise ValueError
  /\ suspensions (snd (run_wdqs "q" busy_soon [])) = 0%nat.
Proof. by vm_compute. Qed.

End TransportSpec.

(** ** The query templates *)

Module QuerySpec.
Import Py App Stated Samples.

Lemma app_cons (x : ascii) (a b : string) :
  String x a +:+ b = String x (a +:+ b).
Proof. reflexivity. Qed.

Lemma app_assoc_r (a b c : string) : (a +:+ b) +:+ c = a +:+ (b +:+ c).
Proof.
  induction a as [|x a IH]; [done|]. by rewrite !app_cons, IH.
Qed.

Lemma unlines_app (l1 l2 : list string) :
  unlines (l1 ++ l2) = unlines l1 +:+ unlines l2.
Proof.
  induction l1 as [|x l1 IH]; [done|].
  cbn [unlines app]. by rewrite IH, !app_assoc_r.
Qed.

(** A template whose one field stands at the end of a line is a fixed text
    around the field. *)
Lemma fstring_field (l1 l2 : list string) (a x : string) :
  fstring (l1 ++ (a +:+ x) :: l2)
  = (fstring l1 +:+ a) +:+ x +:+ (nl +:+ unlines l2).
Proof.
  unfold fstring. rewrite unlines_app. cbn [unlines].
  by rewrite !app_assoc_r.
Qed.


(** The limit is the only part of a query that varies: each template is a
    fixed text around the decimal form of [LIMIT]. *)
Lemma BASE_QUERY_SOFTWARE_limit :
  exists pre post : string, forall LIMIT : Z,
    BASE_QUERY_SOFTWARE LIMIT
    = pre +:+ "    LIMIT " +:+ decimal LIMIT +:+ nl +:+ post.
Proof.
  eexists _, _. intros LIMIT. unfold BASE_QUERY_SOFTWARE.
  match goal with
  | |- fstring ?l = _ =>
      change l with (firstn 15 l ++ ("    LIMIT " +:+ decimal LIMIT) :: skipn 16 l)
  end.
  rewrite fstring_field, app_assoc_r. cbn [firstn skipn]. reflexivity.
Qed.

Lemma BASE_QUERY_ONTO_VOCAB_limit :
  exists pre post : string, forall LIMIT : Z,
    BASE_QUERY_ONTO_VOCAB LIMIT
    = pre +:+ "    LIMIT " +:+ decimal LIMIT +:+ nl +:+ post.
Proof.
  eexists _, _. intros LIMIT. unfold BASE_QUERY_ONTO_VOCAB.
  match goal with
  | |- fstring ?l = _ =>
      change l with (firstn 26 l ++ ("    LIMIT " +:+ decimal LIMIT) :: skipn 27 l)
  end.
  rewrite fstring_field, app_assoc_r. cbn [firstn skipn]. reflexivity.
Qed.






End QuerySpec.

(** ** Flattening the bindings *)

Module FlattenSpec.
Import Py App Stated Samples.

Lemma optional_value_absent (b : Binding) (name : string) :
  b !! name = None -> optional_value b name = "".
Proof. intros H. unfold optional_value, get. by rewrite H, lookup_empty. Qed.


(** [row_of] by the two required values. *)
Lemma row_of_cases (b : Binding) :
  row_of b =
  match b !! "itemLabel" with
  | None => Raise (KeyError "itemLabel")
  | Some t =>
      match t !! "value" with
      | None => Raise (KeyError "value")
      | Some item =>
          match b !! "item" with
          | None => Raise (KeyError "item")
          | Some t' =>
              match t' !! "value" with
              | None => Raise (KeyError "value")
              | Some wikidata =>
                  Return {| row_Item := item;
                            row_Wikidata := wikidata;
                            row_Official_websites :=
                              optional_value b "officialWebsites";
                            row_Licenses := optional_value b "licenses";
                            row_Part_of := optional_value b "partOf";
                            row_latest_release :=
                              optional_value b "latestReleaseDate" |}
              end
          end
      end
  end.
Proof.
  unfold row_of, getitem, mbind, result_bind.
  destruct (b !! "itemLabel") as [t|]; [|done].
  destruct (t !! "value"); [|done].
  destruct (b !! "item") as [t'|]; [|done].
  by destruct (t' !! "value").
Qed.

Lemma for_each_length {A B} (f : A -> result B) (l : list A) (ys : list B) :
  for_each f l = Return ys -> length ys = length l.
Proof.
  revert ys. induction l as [|x l IH]; intros ys; cbn.
  - by intros [= <-].
  - unfold mbind, result_bind. destruct (f x); [|done].
    destruct (for_each f l) as [ys'|]; [|done].
    intros [= <-]. cbn. by rewrite (IH ys').
Qed.

Lemma for_each_lookup {A B} (f : A -> result B) (l : list A) (ys : list B)
    (i : nat) (x : A) (y : B) :
  for_each f l = Return ys -> l !! i = Some x -> ys !! i = Some y ->
  f x = Return y.
Proof.
  revert ys i. induction l as [|a l IH]; intros ys i; cbn; [done|].
  unfold mbind, result_bind. destruct (f a) as [b|] eqn:Ea; [|done].
  destruct (for_each f l) as [ys'|]; [|done].
  intros [= <-]. destruct i as [|i]; cbn.
  - by intros [= <-] [= <-].
  - by apply IH.
Qed.

Lemma for_each_total {A B} (f : A -> result B) (l : list A) :
  Forall (fun x => exists y, f x = Return y) l ->
  exists ys, for_each f l = Return ys.
Proof.
  induction 1 as [|x l [y Hy] _ [ys Hys]]; cbn; [by eexists|].
  unfold mbind, result_bind. rewrite Hy, Hys. by eexists.
Qed.

(** The loop ends with the exception of the first element that raises. *)
Lemma for_each_raises {A B} (f : A -> result B) (l : list A) (x : A) (e : exn) :
  x ∈ l -> f x = Raise e ->
  exists (x' : A) (e' : exn), x' ∈ l /\ f x' = Raise e'
    /\ for_each f l = Raise e'.
Proof.
  induction l as [|a l IH]; intros Hx Hfx; [by apply elem_of_nil in Hx|].
  cbn. unfold mbind, result_bind. destruct (f a) as [b|e'] eqn:Ea.
  - apply elem_of_cons in Hx as [-> | Hx]; [congruence|].
    destruct (IH Hx Hfx) as (x' & e' & Hx' & Hfx' & ->).
    exists x', e'. split; [by apply elem_of_cons; right | done].
  - exists a, e'. split; [by apply elem_of_cons; left | done].
Qed.

Lemma row_of_raises_key_error (b : Binding) (e : exn) :
  row_of b = Raise e ->
  (e = KeyError "itemLabel" \/ e = KeyError "value" \/ e = KeyError "item")
  /\ (value_of b "itemLabel" = None \/ value_of b "item" = None).
Proof.
  rewrite row_of_cases. unfold value_of.
  destruct (b !! "itemLabel") as [t|]; cbn; [|intros [= <-]; auto].
  destruct (t !! "value"); cbn; [|intros [= <-]; auto].
  destruct (b !! "item") as [t'|]; cbn; [|intros [= <-]; auto].
  destruct (t' !! "value"); cbn; [done | intros [= <-]; auto].
Qed.

(** C6: an optional variable that a binding lacks never makes flattening
    fail and comes out as the empty string. A binding raises only for want
    of a required value; with both, it gives a row whose column is empty
    for each of [officialWebsites], [licenses], [partOf] and
    [latestReleaseDate] that the binding lacks; and bindings that all hold
    the required values give one such row each. *)
Theorem flatten_absent_optional (b : Binding) :
  (forall e : exn,
     row_of b = Raise e ->
     value_of b "itemLabel" = None \/ value_of b "item" = None)
  /\ (forall label uri : string,
        value_of b "itemLabel" = Some label ->
        value_of b "item" = Some uri ->
        exists row : Row,
          row_of b = Return row
          /\ row_Item row = label /\ row_Wikidata row = uri
          /\ forall (name : string) (column : Row -> string),
               (name, column) ∈ optional_fields ->
               b !! name = None -> column row = "")
  /\ (forall bindings : list Binding,
        Forall (fun b' => is_Some (value_of b' "itemLabel")
                          /\ is_Some (value_of b' "item")) bindings ->
        exists rows : list Row,
          for_each row_of bindings = Return rows
          /\ length rows = length bindings
          /\ forall (i : nat) (b' : Binding) (row : Row),
               bindings !! i = Some b' -> rows !! i = Some row ->
               forall (name : string) (column : Row -> string),
                 (name, column) ∈ optional_fields ->
                 b' !! name = None -> column row = "").
Proof.
  assert (forall (b0 : Binding) label uri,
            value_of b0 "itemLabel" = Some label ->
            value_of b0 "item" = Some uri ->
            exists row : Row,
              row_of b0 = Return row
              /\ row_Item row = label /\ row_Wikidata row = uri
              /\ forall (name : string) (column : Row -> string),
                   (name, column) ∈ optional_fields ->
                   b0 !! name = None -> column row = "") as Hrow.
  { intros b0 label uri Hl Hu. rewrite row_of_cases. unfold value_of in Hl, Hu.
    destruct (b0 !! "itemLabel") as [t|]; [cbn in Hl|done]. rewrite Hl.
    destruct (b0 !! "item") as [t'|]; [cbn in Hu|done]. rewrite Hu.
    eexists. split; [done|]. split; [done|]. split; [done|].
    intros name column Hin Habs. unfold optional_fields in Hin.
    repeat (apply elem_of_cons in Hin as [[= -> ->] | Hin];
            [by apply optional_value_absent|]).
    by apply elem_of_nil in Hin. }
  split; [intros e He; by apply (row_of_raises_key_error b e)|].
  split; [apply Hrow|].
  intros bindings Hreq.
  destruct (for_each_total row_of bindings) as [rows Hrows].
  { eapply Forall_impl; [exact Hreq|]. intros b' [[l Hl] [u Hu]].
    destruct (Hrow b' l u Hl Hu) as (row & -> & _). by eexists. }
  exists rows. split; [done|]. split; [by apply for_each_length in Hrows|].
  intros i b' row Hb' Hrow' name column Hin Habs.
  pose proof (for_each_lookup _ _ _ i b' row Hrows Hb' Hrow') as Hb'row.
  rewrite Forall_forall in Hreq.
  destruct (Hreq b') as [[l Hl] [u Hu]]; [by apply list_elem_of_lookup_2 in Hb'|].
  destruct (Hrow b' l u Hl Hu) as (row' & Hrow'' & _ & _ & Hopt).
  assert (row' = row) as -> by congruence. by apply (Hopt name column).
Qed.

Lemma flatten_absent_optional_witness :
  exists row : Row,
    row_of (bare_binding "SKOS" "http://www.wikidata.org/entity/Q2288360")
      = Return row
    /\ row_Official_websites row = "" /\ row_Licenses row = ""
    /\ row_Part_of row = "" /\ row_latest_release row = "".
Proof.
  destruct (flatten_absent_optional
              (bare_binding "SKOS" "http://www.wikidata.org/entity/Q2288360"))
    as (_ & Hrow & _).
  destruct (Hrow "SKOS" "http://www.wikidata.org/entity/Q2288360")
    as (row & Hret & _ & _ & Hopt).
  - reflexivity.
  - reflexivity.
  - exists row. split; [exact Hret|].
    split; [apply (Hopt "officialWebsites"); [repeat constructor | reflexivity]|].
    split; [apply (Hopt "licenses"); [repeat constructor | reflexivity]|].
    split; [apply (Hopt "partOf"); [repeat constructor | reflexivity]|].
    apply (Hopt "latestReleaseDate"); [repeat constructor | reflexivity].
Defined.

(** C10: [item] and [itemLabel] are read without a default. A binding
    without [itemLabel] raises [KeyError] for that key, one with a label
    but without [item] raises it for [item]; and a frame is made of no list
    of bindings that holds such a binding: the loop ends with a [KeyError],
    and so does [query_to_df] on an answer with these bindings. *)
Theorem flatten_requires_item_and_label (b : Binding) :
  (b !! "itemLabel" = None -> row_of b = Raise (KeyError "itemLabel"))
  /\ (b !! "item" = None -> is_Some (value_of b "itemLabel") ->
      row_of b = Raise (KeyError "item"))
  /\ (b !! "itemLabel" = None \/ b !! "item" = None ->
      exists key : string, row_of b = Raise (KeyError key))
  /\ (forall bindings : list Binding,
        b ∈ bindings ->
        b !! "itemLabel" = None \/ b !! "item" = None ->
        (exists key : string, for_each row_of bindings = Raise (KeyError key))
        /\ forall (query : string) (srv : remote) (trace trace' : list event)
             (data : Data) (results : gmap string (list Binding)),
             run_wdqs query srv trace = (Return data, trace') ->
             data !! "results" = Some results ->
             results !! "bindings" = Some bindings ->
             exists key : string,
               query_to_df query srv trace = (Raise (KeyError key), trace')).
Proof.
  assert (b !! "itemLabel" = None \/ b !! "item" = None ->
          exists key : string, row_of b = Raise (KeyError key)) as Hlack.
  { rewrite row_of_cases. intros [-> | Hitem]; [by eexists|].
    destruct (b !! "itemLabel") as [t|]; [|by eexists].
    destruct (t !! "value"); [|by eexists]. rewrite Hitem. by eexists. }
  split; [by rewrite row_of_cases; intros ->|].
  split.
  { rewrite row_of_cases. unfold value_of. intros -> [label Hl].
    destruct (b !! "itemLabel") as [t|]; [cbn in Hl|done]. by rewrite Hl. }
  split; [done|].
  intros bindings Hin Hb. destruct (Hlack Hb) as [key Hkey].
  destruct (for_each_raises row_of bindings b _ Hin Hkey)
    as (b' & e' & _ & Hb' & Hloop).
  assert (exists key', e' = KeyError key') as [key' ->].
  { destruct (row_of_raises_key_error b' e' Hb') as [[-> | [-> | ->]] _];
      by eexists. }
  split; [by exists key'|].
  intros query srv trace trace' data results Hrun Hres Hbind.
  exists key'. unfold query_to_df, mbind, IO_bind, lift, getitem.
  by rewrite Hrun, Hres, Hbind, Hloop.
Qed.

Lemma flatten_requires_item_and_label_witness :
  row_of unlabelled_binding = Raise (KeyError "itemLabel")
  /\ row_of itemless_binding = Raise (KeyError "item")
  /\ exists key : string,
       query_to_df "q" (ready [git_binding; itemless_binding]) []
       = (Raise (KeyError key), [Get (wdqs_request "q")]).
Proof.
  destruct (flatten_requires_item_and_label unlabelled_binding)
    as (Hlabel & _).
  destruct (flatten_requires_item_and_label itemless_binding)
    as (_ & Hitem & _ & Hframe).
  split; [apply Hlabel; reflexivity|].
  split; [apply Hitem; [reflexivity | by eexists]|].
  destruct (Hframe [git_binding; itemless_binding]) as [_ Hquery].
  - apply list_elem_of_further, list_elem_of_here.
  - right. reflexivity.
  - eapply Hquery.
    + reflexivity.
    + reflexivity.
    + reflexivity.
Defined.

End FlattenSpec.

(** ** The derived columns *)

Module EnrichSpec.
Import Py App Stated Samples.

Lemma rstrip_with_empty (sp : ascii -> bool) (s : string) :
  rstrip_with sp s = "" ->
  lstrip_with sp s = "".
Proof.
  induction s as [|c r IH]; [done|]. cbn.
  destruct (rstrip_with sp r) eqn:E; [|done].
  destruct (sp c); [auto | done].
Qed.

Lemma lstrip_with_visible (s : string) :
  has_visible (lstrip_with isspace s) = has_visible s.
Proof.
  induction s as [|c r IH]; [done|]. cbn.
  destruct (isspace c) eqn:E; cbn; [done | by rewrite E].
Qed.

Lemma rstrip_with_visible (s : string) :
  String.eqb (rstrip_with isspace s) "" = negb (has_visible s).
Proof.
  induction s as [|c r IH]; [done|]. cbn.
  destruct (rstrip_with isspace r) eqn:E; cbn in IH.
  - destruct (isspace c); cbn; [done | done].
  - symmetry in IH. apply negb_false_iff in IH. rewrite IH.
    by rewrite orb_true_r.
Qed.

(** A cell is non-blank exactly when it has a character that is not white
    space. *)
Lemma nonblank_visible (s : string) : nonblank s = has_visible s.
Proof.
  unfold nonblank, strip. rewrite rstrip_with_visible, lstrip_with_visible.
  apply negb_involutive.
Qed.

Lemma head_push (c : ascii) (pieces : list string) :
  match push c pieces with w :: _ => w | [] => "" end
  = String c (match pieces with w :: _ => w | [] => "" end).
Proof. by destruct pieces. Qed.

Lemma prefix_empty (s : string) : String.prefix "" s = true.
Proof. by destruct s. Qed.

Lemma prefix_space (c : ascii) (r : string) :
  String.prefix " " (String c r) = Ascii.eqb c " ".
Proof.
  change (String.prefix " " (String c r))
    with (if ascii_dec " " c then String.prefix "" r else false).
  destruct (ascii_dec " " c) as [<- | Hne].
  - by rewrite prefix_empty.
  - symmetry. apply Ascii.eqb_neq. congruence.
Qed.

Lemma prefix_separator (c : ascii) (r : string) :
  String.prefix " | " (String c r) = true -> Ascii.eqb c " " = true.
Proof.
  change (String.prefix " | " (String c r))
    with (if ascii_dec " " c then String.prefix "| " r else false).
  destruct (ascii_dec " " c) as [<- | Hne]; [done | done].
Qed.

(** Read as a regular expression, [" | "] is a space or a space: the first
    piece ends at the first space. *)
Lemma first_piece_until_space (s : string) : first_piece s = until_space s.
Proof.
  unfold first_piece, re_split.
  change (re_alternatives " | ") with [" "; " "].
  induction s as [|c r IH]; [done|].
  cbn [split_at until_space match_length]. rewrite prefix_space.
  destruct (Ascii.eqb c " "); [done|].
  by rewrite head_push, IH.
Qed.

(** The piece is the first segment of the text as long as that segment has
    no space in it. *)
Lemma first_piece_is_first_segment (s : string) :
  has_space (first_segment s) = false -> first_piece s = first_segment s.
Proof.
  rewrite first_piece_until_space. unfold first_segment, str_split.
  induction s as [|c r IH]; [done|].
  cbn [split_at until_space match_length].
  destruct (String.prefix " | " (String c r)) eqn:Epre.
  - apply prefix_separator in Epre. by rewrite Epre.
  - rewrite head_push. cbn [has_space].
    destruct (Ascii.eqb c " "); [done|].
    cbn. intros Hno. by rewrite IH.
Qed.

Lemma derive_columns (i : nat) (row : Row) :
  Has_website (derive i row) = has_visible (row_Official_websites row)
  /\ Has_license (derive i row) = has_visible (row_Licenses row)
  /\ Official_website (derive i row) = until_space (row_Official_websites row).
Proof.
  cbn. by rewrite !nonblank_visible, first_piece_until_space.
Qed.

(** The text before the first space of a text that has none, followed by
    nothing or by a space. *)
Lemma until_space_app (u rest : string) :
  has_space u = false ->
  rest = "" \/ (exists r, rest = String " " r) ->
  until_space (u +:+ rest) = u.
Proof.
  intros Hu Hrest. induction u as [|c u IH].
  - destruct Hrest as [-> | [r ->]]; reflexivity.
  - cbn [has_space] in Hu. apply orb_false_iff in Hu as [Hc Hu].
    change (String c u +:+ rest) with (String c (u +:+ rest)).
    cbn [until_space]. rewrite Hc. by rewrite (IH Hu).
Qed.

Lemma until_space_whole (u : string) :
  has_space u = false -> until_space u = u.
Proof.
  induction u as [|c u IH]; [done|]. cbn [has_space until_space].
  intros Hu. apply orb_false_iff in Hu as [-> Hu]. by rewrite (IH Hu).
Qed.

Lemma until_space_join (u : string) (us : list string) :
  has_space u = false -> until_space (join " | " (u :: us)) = u.
Proof.
  intros Hu. unfold join. destruct us as [|v us]; cbn [String.concat].
  - by apply until_space_whole.
  - apply until_space_app; [done|]. right. by eexists.
Qed.

(** C5: [Has website] is true exactly when the trimmed text is not
    empty, so not for a text of white space only. The cell is a list of
    websites joined by [" | "], each an IRI and so without a space: the
    website shown is the first of them, and the empty text for a list of
    none. Whatever the cell, the website shown is its first segment whenever
    that segment has no space in it. *)
Theorem official_website_is_first_segment (i : nat) (row : Row) :
  let websites := row_Official_websites row in
  (Has_website (derive i row) = true <-> strip websites <> "")
  /\ (forall (u : string) (us : list string),
        has_space u = false ->
        websites = join " | " (u :: us) ->
        Official_website (derive i row) = u)
  /\ (websites = join " | " [] -> Official_website (derive i row) = "")
  /\ (has_space (first_segment websites) = false ->
      Official_website (derive i row) = first_segment websites)
  /\ (websites = " " -> Has_website (derive i row) = false)
  /\ (websites = "http://x | http://y" ->
      Has_website (derive i row) = true
      /\ Official_website (derive i row) = "http://x").
Proof.
  cbv zeta. split; [|split; [|split; [|split; [|split]]]].
  - cbn. unfold nonblank. rewrite negb_true_iff.
    destruct (String.eqb_spec (strip (row_Official_websites row)) "");
      split; congruence.
  - intros u us Hu Hjoin. cbn [Official_website derive].
    rewrite first_piece_until_space, Hjoin. by apply until_space_join.
  - intros Hjoin. cbn [Official_website derive]. by rewrite Hjoin.
  - cbn. apply first_piece_is_first_segment.
  - intros Hblank. cbn [Has_website derive]. by rewrite Hblank.
  - intros Htwo. cbn [Has_website Official_website derive]. by rewrite Htwo.
Qed.

Lemma official_website_is_first_segment_witness :
  Has_website (derive 0 (row "x" "http://x | http://y" "" "")) = true
  /\ Official_website (derive 0 (row "x" "http://x | http://y" "" ""))
     = "http://x"
  /\ Has_website (derive 0 (row "x" " " "" "")) = false.
Proof.
  destruct (official_website_is_first_segment 0
              (row "x" "http://x | http://y" "" ""))
    as (Hweb & Hfirst & _).
  destruct (official_website_is_first_segment 0 (row "x" " " "" ""))
    as (_ & _ & _ & _ & Hblank & _).
  split; [apply Hweb; by vm_compute|].
  split; [apply (Hfirst "http://x" ["http://y"]); reflexivity|].
  apply Hblank. reflexivity.
Defined.

(** Outside such lists, a text with a space inside its first segment is
    cut at that space, not at the separator [" | "]: pandas reads the
    pattern as a regular expression. *)
Lemma official_website_cut_at_space :
  let websites := "http://a.org/my page | http://b.org" in
  Official_website (derive 0 (row "A" websites "" "")) = "http://a.org/my"
  /\ first_segment websites = "http://a.org/my page"
  /\ re_split " | " websites = ["http://a.org/my"; "page"; "|"; "http://b.org"]
  /\ str_split " | " websites = ["http://a.org/my page"; "http://b.org"].
Proof. by vm_compute. Qed.

End EnrichSpec.

(** ** A sort on several columns is an ordered, stable rearrangement *)

Module SortSpec.
Import Py App Stated Samples.

Lemma string_compare_lt_trans (x y z : string) :
  String.compare x y = Lt -> String.compare y z = Lt -> String.compare x z = Lt.
Proof.
  intros Hxy Hyz. apply String_as_OT.cmp_lt.
  apply String_as_OT.lt_trans with y; by apply String_as_OT.cmp_lt.
Qed.

#[export] Instance string_laws : OrderedLaws string.
Proof.
  split.
  - intros [] x y; cbn; apply String.compare_antisym.
  - intros [] x y; cbn; intros E; apply String.compare_eq_iff in E; done.
  - intros [] x y z; cbn; intros; eauto using string_compare_lt_trans.
Qed.

#[export] Instance bool_laws : OrderedLaws bool.
Proof. split; [intros [] [] [] | intros [] [] [] | intros [] [] [] []]; done. Qed.

#[export] Instance datetime_laws : OrderedLaws datetime.
Proof.
  split.
  - intros [] [x|] [y|]; cbn; try done; rewrite (Z.compare_antisym x y);
      by destruct (x ?= y).
  - intros [] [x|] [y|]; cbn; try done; intros E; apply Z.compare_eq in E;
      by subst.
  - intros [] [x|] [y|] [z|]; cbn; try done; rewrite ?Z.compare_lt_iff; lia.
Qed.

Section Sorting.

Context {D : Type} `{OrderedLaws D}.

Lemma key_refl {K} `{OrderedLaws K} (asc : bool) (x : K) :
  key_compare asc x x = Eq.
Proof.
  pose proof (key_antisym asc x x) as E. by destruct (key_compare asc x x).
Qed.

(** Two rows tie on a column exactly when they hold the same value there. *)
Lemma column_compare_eq (c : column) (asc : bool) (r s : Rec D) :
  column_compare c asc r s = Eq <-> cell_of c r = cell_of c s.
Proof.
  destruct c; unfold column_compare, cell_of;
    (split; [intros E; apply key_eq in E; by rewrite E|]);
    intros [= ->]; apply key_refl.
Qed.

Lemma column_compare_antisym (c : column) (asc : bool) (r s : Rec D) :
  column_compare c asc r s = CompOpp (column_compare c asc s r).
Proof. destruct c; unfold column_compare; apply key_antisym. Qed.

Lemma column_compare_lt_trans (c : column) (asc : bool) (r s t : Rec D) :
  column_compare c asc r s = Lt -> column_compare c asc s t = Lt ->
  column_compare c asc r t = Lt.
Proof. destruct c; unfold column_compare; apply key_lt_trans. Qed.

Lemma column_compare_eq_l (c : column) (asc : bool) (r s t : Rec D) :
  column_compare c asc r s = Eq ->
  column_compare c asc r t = column_compare c asc s t.
Proof.
  destruct c; unfold column_compare; intros E; apply key_eq in E;
    by rewrite E.
Qed.

Lemma column_compare_eq_r (c : column) (asc : bool) (r s t : Rec D) :
  column_compare c asc r s = Eq ->
  column_compare c asc t r = column_compare c asc t s.
Proof.
  destruct c; unfold column_compare; intros E; apply key_eq in E;
    by rewrite E.
Qed.

Variable keys : list (column * bool).

Lemma keys_compare_antisym (r s : Rec D) :
  keys_compare keys r s = CompOpp (keys_compare keys s r).
Proof.
  induction keys as [|[c asc] ks IH]; [done|]. cbn.
  rewrite (column_compare_antisym c asc r s).
  by destruct (column_compare c asc s r).
Qed.

Lemma keys_compare_eq_l (r s t : Rec D) :
  keys_compare keys r s = Eq -> keys_compare keys r t = keys_compare keys s t.
Proof.
  induction keys as [|[c asc] ks IH]; [done|]. cbn.
  destruct (column_compare c asc r s) eqn:E; try done.
  intros Hks. rewrite (column_compare_eq_l c asc r s t E).
  by rewrite IH.
Qed.

Lemma keys_compare_eq_r (r s t : Rec D) :
  keys_compare keys r s = Eq -> keys_compare keys t r = keys_compare keys t s.
Proof.
  intros E. rewrite (keys_compare_antisym t r), (keys_compare_antisym t s).
  by rewrite (keys_compare_eq_l r s t E).
Qed.

Lemma keys_compare_lt_trans (r s t : Rec D) :
  keys_compare keys r s = Lt -> keys_compare keys s t = Lt ->
  keys_compare keys r t = Lt.
Proof.
  induction keys as [|[c asc] ks IH]; [done|]. cbn.
  destruct (column_compare c asc r s) eqn:Ers; try done.
  - rewrite (column_compare_eq_l c asc r s t Ers).
    destruct (column_compare c asc s t); auto.
  - intros _. destruct (column_compare c asc s t) eqn:Est; try done.
    + by rewrite <- (column_compare_eq_r c asc s t r Est), Ers.
    + by rewrite (column_compare_lt_trans c asc r s t Ers Est).
Qed.

Lemma before_trans (r s t : Rec D) :
  before keys r s -> before keys s t -> before keys r t.
Proof.
  unfold before. intros Hrs Hst.
  destruct (keys_compare keys r s) eqn:Ers; try done.
  - by rewrite (keys_compare_eq_l r s t Ers).
  - destruct (keys_compare keys s t) eqn:Est; try done.
    + by rewrite <- (keys_compare_eq_r s t r Est), Ers.
    + by rewrite (keys_compare_lt_trans r s t Ers Est).
Qed.

Lemma place_perm (r : Rec D) (df : list (Rec D)) :
  place keys r df ≡ₚ r :: df.
Proof.
  induction df as [|s df IH]; [done|]. cbn.
  destruct (keys_compare keys r s); try done.
  rewrite IH. apply Permutation_swap.
Qed.

Lemma place_settled (r : Rec D) (df : list (Rec D)) :
  Forall (fun s => (index r < index s)%nat) df ->
  StronglySorted (settled keys) df ->
  StronglySorted (settled keys) (place keys r df).
Proof.
  intros Hidx Hsorted. induction Hsorted as [|s df Hdf IH Hs]; cbn.
  - repeat constructor.
  - apply Forall_cons in Hidx as [Hrs Hidx].
    assert (StronglySorted (settled keys) (s :: df)) as Hsdf by by constructor.
    destruct (keys_compare keys r s) eqn:E.
    + constructor; [done|]. constructor; [by right|].
      rewrite Forall_forall in Hs, Hidx |- *. intros t Ht.
      specialize (Hs t Ht). specialize (Hidx t Ht). unfold settled in *.
      rewrite (keys_compare_eq_l r s t E). destruct Hs as [?|[? ?]]; auto.
    + constructor; [done|]. constructor; [by left|].
      rewrite Forall_forall in Hs |- *. intros t Ht.
      left. destruct (Hs t Ht) as [Hst|[Hst _]].
      * by apply keys_compare_lt_trans with s.
      * by rewrite <- (keys_compare_eq_r s t r Hst).
    + constructor; [by apply IH|].
      rewrite (place_perm r df). constructor; [|done].
      left. rewrite keys_compare_antisym, E. done.
Qed.

End Sorting.

Section SortValues.

Context {D : Type} `{OrderedLaws D}.
Variables (by_ : list column) (ascending : list bool).

Lemma sort_values_perm (df : list (Rec D)) :
  sort_values by_ ascending df ≡ₚ df.
Proof.
  unfold sort_values. induction df as [|r df IH]; [done|]. cbn.
  by rewrite place_perm, IH.
Qed.

Lemma sort_values_settled (df : list (Rec D)) :
  labelled df ->
  StronglySorted (settled (zip by_ ascending)) (sort_values by_ ascending df).
Proof.
  unfold sort_values. induction 1 as [|r df Hdf IH Hr]; cbn; [constructor|].
  apply place_settled; [|done].
  fold (sort_values by_ ascending df). by rewrite sort_values_perm.
Qed.

End SortValues.

Lemma StronglySorted_lookup {A} (R : A -> A -> Prop) (l : list A)
    (i j : nat) (x y : A) :
  StronglySorted R l -> (i < j)%nat -> l !! i = Some x -> l !! j = Some y ->
  R x y.
Proof.
  intros Hl. revert i j. induction Hl as [|a l Hl IH Ha]; intros i j Hij Hi Hj.
  - done.
  - destruct j as [|j]; [lia|]. cbn in Hj. destruct i as [|i].
    + cbn in Hi. injection Hi as ->.
      rewrite Forall_forall in Ha. apply Ha. by apply list_elem_of_lookup_2 in Hj.
    + cbn in Hi. apply (IH i j); [lia|done|done].
Qed.

(** *** The two sorts of the script *)

(** The frame made from the rows carries the positions as labels. *)
Lemma labelled_of_positions {D} (k : nat) (df : list (Rec D)) :
  (forall i r, df !! i = Some r -> index r = (k + i)%nat) -> labelled df.
Proof.
  revert k. induction df as [|r df IH]; intros k Hpos; [constructor|].
  constructor.
  - apply (IH (S k)). intros i s Hi.
    rewrite (Hpos (S i) s Hi). lia.
  - rewrite Forall_forall. intros s Hs.
    apply list_elem_of_lookup_1 in Hs as [i Hi].
    rewrite (Hpos 0%nat r eq_refl), (Hpos (S i) s Hi). lia.
Qed.

Lemma derive_lookup (rows : list Row) (i : nat) (r : Rec string) :
  imap derive rows !! i = Some r ->
  exists row, rows !! i = Some row /\ r = derive i row.
Proof.
  rewrite list_lookup_imap. destruct (rows !! i) as [row|]; [|done].
  intros [= <-]. by exists row.
Qed.

Lemma derive_labelled (rows : list Row) : labelled (imap derive rows).
Proof.
  apply (labelled_of_positions 0). intros i r Hi.
  by destruct (derive_lookup rows i r Hi) as (row & _ & ->).
Qed.

Section Parsed.

Variable to_datetime : list string -> nat -> datetime.

Lemma parse_lookup (df : list (Rec string)) (i : nat) (r : Rec datetime) :
  parse_latest_release to_datetime df !! i = Some r ->
  exists r0, df !! i = Some r0 /\ index r = index r0 /\ Item r = Item r0
    /\ Has_website r = Has_website r0 /\ Has_license r = Has_license r0
    /\ Part_of r = Part_of r0
    /\ latest_release r = to_datetime (map latest_release df) i.
Proof.
  unfold parse_latest_release. rewrite list_lookup_imap.
  destruct (df !! i) as [r0|]; [|done]. intros [= <-]. by exists r0.
Qed.

Lemma parse_labelled (rows : list Row) :
  labelled (parse_latest_release to_datetime (imap derive rows)).
Proof.
  apply (labelled_of_positions 0). intros i r Hi.
  destruct (parse_lookup _ i r Hi) as (r0 & Hr0 & -> & _).
  by destruct (derive_lookup rows i r0 Hr0) as (row & _ & ->).
Qed.

End Parsed.

(** In a frame whose labels are the positions, a row is found at its label. *)
Lemma labelled_at_index {D} (df : list (Rec D)) (r : Rec D) :
  (forall i s, df !! i = Some s -> index s = i) -> r ∈ df ->
  df !! index r = Some r.
Proof.
  intros Hpos Hr. apply list_elem_of_lookup_1 in Hr as [i Hi].
  by rewrite (Hpos i r Hi).
Qed.

Lemma same_software_key_ties (r s : Rec datetime) :
  same_software_key r s -> keys_compare software_keys r s = Eq.
Proof.
  intros (Hd & Hw & Hl & Hi). unfold software_keys, keys_compare, column_compare.
  by rewrite Hd, Hw, Hl, Hi, !key_refl.
Qed.

Lemma same_ontology_key_ties (r s : Rec string) :
  same_ontology_key r s -> keys_compare ontology_keys r s = Eq.
Proof.
  intros (Hw & Hl & Hi). unfold ontology_keys, keys_compare, column_compare.
  by rewrite Hw, Hl, Hi, !key_refl.
Qed.

Lemma bool_key_order (x y : bool) :
  key_compare false x y <> Gt ->
  (x = true /\ y = false) \/ (x = y /\ key_compare false x y = Eq).
Proof. destruct x, y; cbn; intros ?; auto; done. Qed.

(** What the comparison on website, license and name says. *)
Lemma before_tie_order {D} `{Ordered D} (r s : Rec D) :
  keys_compare ontology_keys r s <> Gt -> tie_order r s.
Proof.
  unfold ontology_keys, keys_compare, column_compare, tie_order. intros Hcmp.
  destruct (key_compare false (Has_website r) (Has_website s)) eqn:Ew.
  - destruct (bool_key_order (Has_website r) (Has_website s)) as [?|[-> _]];
      [by rewrite Ew | by left |]. right. split; [done|].
    destruct (key_compare false (Has_license r) (Has_license s)) eqn:El.
    + destruct (bool_key_order (Has_license r) (Has_license s)) as [?|[-> _]];
        [by rewrite El | by left |]. right. split; [done|].
      unfold String.leb. cbn in Hcmp.
      by destruct (String.compare (Item r) (Item s)).
    + destruct (bool_key_order (Has_license r) (Has_license s)) as [?|[_ ?]];
        [by rewrite El | by left | congruence].
    + done.
  - destruct (bool_key_order (Has_website r) (Has_website s)) as [?|[_ ?]];
      [by rewrite Ew | by left | congruence].
  - done.
Qed.


Lemma settled_before {D} `{Ordered D} (keys : list (column * bool))
    (r s : Rec D) :
  settled keys r s -> keys_compare keys r s <> Gt.
Proof. intros [E | [E _]]; by rewrite E. Qed.



Lemma sorted_found_at_index {D} `{OrderedLaws D} (by_ : list column)
    (ascending : list bool) (df : list (Rec D)) (i : nat) (r : Rec D) :
  (forall k s, df !! k = Some s -> index s = k) ->
  sort_values by_ ascending df !! i = Some r -> df !! index r = Some r.
Proof.
  intros Hpos Hr. apply labelled_at_index; [done|].
  rewrite <- (sort_values_perm by_ ascending df).
  by apply list_elem_of_lookup_2 in Hr.
Qed.

(** Two rows of a frame whose labels are its positions and that tie on the
    keys come out of the sort in the order they went in. *)
Lemma sorted_keeps_ties {D} `{OrderedLaws D} (by_ : list column)
    (ascending : list bool) (df : list (Rec D)) (a b : nat) (r s : Rec D) :
  labelled df ->
  (forall k t, df !! k = Some t -> index t = k) ->
  (a < b)%nat -> df !! a = Some r -> df !! b = Some s ->
  keys_compare (zip by_ ascending) r s = Eq ->
  exists i j : nat,
    (i < j)%nat
    /\ sort_values by_ ascending df !! i = Some r
    /\ sort_values by_ ascending df !! j = Some s.
Proof.
  intros Hlab Hpos Hab Hr Hs Htie.
  assert (r ∈ sort_values by_ ascending df) as Hri
    by (rewrite sort_values_perm; by apply list_elem_of_lookup_2 in Hr).
  assert (s ∈ sort_values by_ ascending df) as Hsj
    by (rewrite sort_values_perm; by apply list_elem_of_lookup_2 in Hs).
  apply list_elem_of_lookup_1 in Hri as [i Hi].
  apply list_elem_of_lookup_1 in Hsj as [j Hj].
  exists i, j. split; [|done].
  rewrite <- (Hpos a r Hr), <- (Hpos b s Hs) in Hab.
  destruct (Nat.lt_total i j) as [Hij | [-> | Hji]]; [done| |].
  - rewrite Hi in Hj. injection Hj as ->. lia.
  - destruct (StronglySorted_lookup _ _ j i s r
                (sort_values_settled _ _ _ Hlab) Hji Hj Hi)
      as [Hlt | [_ Hidx]]; [|lia].
    rewrite keys_compare_antisym, Htie in Hlt. done.
Qed.

(** C7: both sorts are stable. Each keeps the rows of the frame it sorts,
    no more and no fewer, and each row keeps as its label the position it
    had in that frame; of two rows of the frame with the same sort key
    (date, website, license and name for software; website, license and name
    for the other table), the one that stood first in the frame stands
    upper in the sorted table, and of two such rows of the sorted table the
    upper one is the one that stood first in the frame. *)
Theorem sort_values_stable (to_datetime : list string -> nat -> datetime)
    (rows : list Row) :
  let df := imap derive rows in
  let parsed := parse_latest_release to_datetime df in
  software_sorted to_datetime df ≡ₚ parsed
  /\ ontology_sorted df ≡ₚ df
  /\ (forall (a b : nat) (r s : Rec datetime),
        (a < b)%nat -> parsed !! a = Some r -> parsed !! b = Some s ->
        same_software_key r s ->
        exists i j : nat,
          (i < j)%nat
          /\ software_sorted to_datetime df !! i = Some r
          /\ software_sorted to_datetime df !! j = Some s)
  /\ (forall (a b : nat) (r s : Rec string),
        (a < b)%nat -> df !! a = Some r -> df !! b = Some s ->
        same_ontology_key r s ->
        exists i j : nat,
          (i < j)%nat
          /\ ontology_sorted df !! i = Some r
          /\ ontology_sorted df !! j = Some s)
  /\ (forall (i j : nat) (r s : Rec datetime),
        (i < j)%nat ->
        software_sorted to_datetime df !! i = Some r ->
        software_sorted to_datetime df !! j = Some s ->
        same_software_key r s ->
        parsed !! index r = Some r /\ parsed !! index s = Some s
        /\ (index r < index s)%nat)
  /\ (forall (i j : nat) (r s : Rec string),
        (i < j)%nat ->
        ontology_sorted df !! i = Some r ->
        ontology_sorted df !! j = Some s ->
        same_ontology_key r s ->
        df !! index r = Some r /\ df !! index s = Some s
        /\ (index r < index s)%nat).
Proof.
  cbv zeta.
  assert (forall k s, imap derive rows !! k = Some s -> index s = k) as Hdf.
  { intros k s Hs. by destruct (derive_lookup rows k s Hs) as (row & _ & ->). }
  assert (forall k s,
            parse_latest_release to_datetime (imap derive rows) !! k = Some s ->
            index s = k) as Hparsed.
  { intros k s Hs. destruct (parse_lookup _ _ k s Hs) as (s0 & Hs0 & -> & _).
    by apply Hdf. }
  split; [apply sort_values_perm|]. split; [apply sort_values_perm|].
  split; [|split; [|split]].
  - intros a b r s Hab Hr Hs Hkey. unfold software_sorted.
    apply (sorted_keeps_ties _ _ _ a b r s
             (parse_labelled to_datetime rows) Hparsed Hab Hr Hs).
    by apply same_software_key_ties.
  - intros a b r s Hab Hr Hs Hkey. unfold ontology_sorted.
    apply (sorted_keeps_ties _ _ _ a b r s
             (derive_labelled rows) Hdf Hab Hr Hs).
    by apply same_ontology_key_ties.
  - intros i j r s Hij Hr Hs Hkey. unfold software_sorted in *.
    split; [by apply sorted_found_at_index in Hr|].
    split; [by apply sorted_found_at_index in Hs|].
    destruct (StronglySorted_lookup _ _ i j r s
                (sort_values_settled _ _ _ (parse_labelled to_datetime rows))
                Hij Hr Hs) as [Hlt | [_ Hidx]]; [|done].
    apply same_software_key_ties in Hkey.
    unfold software_keys in Hkey. cbn [zip zip_with] in Hlt. congruence.
  - intros i j r s Hij Hr Hs Hkey. unfold ontology_sorted in *.
    split; [by apply sorted_found_at_index in Hr|].
    split; [by apply sorted_found_at_index in Hs|].
    destruct (StronglySorted_lookup _ _ i j r s
                (sort_values_settled _ _ _ (derive_labelled rows))
                Hij Hr Hs) as [Hlt | [_ Hidx]]; [|done].
    apply same_ontology_key_ties in Hkey.
    unfold ontology_keys in Hkey. cbn [zip zip_with] in Hlt. congruence.
Qed.

Lemma sort_values_stable_witness :
  let rows := [ row "SKOS" "" "" "2020-01-01";
                row "FOAF" "http://xmlns.com/foaf" "" "2020-01-01";
                row "SKOS" "" "" "2020-01-01" ] in
  let df := imap derive rows in
  (exists i j : nat,
     (i < j)%nat
     /\ map index (software_sorted iso_to_datetime df) !! i = Some 0%nat
     /\ map index (software_sorted iso_to_datetime df) !! j = Some 2%nat)
  /\ (exists i j : nat,
        (i < j)%nat
        /\ map index (ontology_sorted df) !! i = Some 0%nat
        /\ map index (ontology_sorted df) !! j = Some 2%nat)
  /\ length (software_sorted iso_to_datetime df) = 3%nat
  /\ length (ontology_sorted df) = 3%nat.
Proof.
  cbv zeta.
  destruct (sort_values_stable iso_to_datetime
              [ row "SKOS" "" "" "2020-01-01";
                row "FOAF" "http://xmlns.com/foaf" "" "2020-01-01";
                row "SKOS" "" "" "2020-01-01" ])
    as (Hsoft & Hont & Hsoft_ties & Hont_ties & _).
  split; [|split; [|split]].
  - destruct (Hsoft_ties 0%nat 2%nat
                {| index := 0; Item := "SKOS";
                   Wikidata := "http://www.wikidata.org/entity/SKOS";
                   Official_websites := ""; Licenses := ""; Part_of := "";
                   latest_release := Timestamp 1577836800000000000;
                   Has_website := false; Has_license := false;
                   Wikidata_page := "http://www.wikidata.org/entity/SKOS";
                   Official_website := "" |}
                {| index := 2; Item := "SKOS";
                   Wikidata := "http://www.wikidata.org/entity/SKOS";
                   Official_websites := ""; Licenses := ""; Part_of := "";
                   latest_release := Timestamp 1577836800000000000;
                   Has_website := false; Has_license := false;
                   Wikidata_page := "http://www.wikidata.org/entity/SKOS";
                   Official_website := "" |})
      as (i & j & Hij & Hi & Hj).
    + lia.
    + reflexivity.
    + reflexivity.
    + repeat split.
    + exists i, j. split; [done|]. rewrite !list_lookup_fmap, Hi, Hj. done.
  - destruct (Hont_ties 0%nat 2%nat
                (derive 0 (row "SKOS" "" "" "2020-01-01"))
                (derive 2 (row "SKOS" "" "" "2020-01-01")))
      as (i & j & Hij & Hi & Hj).
    + lia.
    + reflexivity.
    + reflexivity.
    + repeat split.
    + exists i, j. split; [done|]. rewrite !list_lookup_fmap, Hi, Hj. done.
  - by rewrite Hsoft.
  - by rewrite Hont.
Defined.

End SortSpec.

(** ** The [Part of] column *)

Module PartOfSpec.
Import Py App Stated Samples.







End PartOfSpec.

(** ** The formats column of the catalog *)

Module CatalogSpec.
Import Py BuildCatalog Stated Samples.















End CatalogSpec.

(** ** Loading the resource files *)

Module LoaderSpec.
Import Py BuildCatalog Loader CatalogSamples CatalogStated.

Lemma req_cases (m : gmap string yaml) (key path : string) :
  _req (YMap m) key path =
  match m !! key with
  | None | Some YNull => Failed (Missing_field key path)
  | Some (YStr s) =>
      if String.eqb s "" then Failed (Missing_field key path)
      else Done (YStr s)
  | Some v => Done v
  end.
Proof.
  unfold _req, contains, subscript, mbind, attempt_bind.
  destruct (m !! key) as [v|] eqn:E.
  - rewrite bool_decide_eq_true_2 by by eexists. cbn. by destruct v.
  - rewrite bool_decide_eq_false_2 by by intros [? ?]. done.
Qed.

Lemma req_done (m : gmap string yaml) (key path : string) (v : yaml) :
  _req (YMap m) key path = Done v
  <-> m !! key = Some v /\ v <> YNull /\ v <> YStr "".
Proof.
  rewrite req_cases.
  destruct (m !! key) as [[| b | n | s | l | m']|];
    try destruct (String.eqb_spec s "") as [-> | Hne];
    (split;
     [ intros Hv; try discriminate Hv; injection Hv as <-;
       repeat split; congruence
     | intros (Hv & Hnull & Hempty); congruence ]).
Qed.

Lemma req_failed (m : gmap string yaml) (key path : string) (e : failure) :
  _req (YMap m) key path = Failed e -> e = Missing_field key path.
Proof.
  rewrite req_cases.
  destruct (m !! key) as [[| b | n | s | l | m']|];
    try destruct (String.eqb s ""); congruence.
Qed.

(** X1: [_req] on a mapping returns the member exactly when it is there and
    is neither null nor the empty text ([False], 0 and empty containers are
    returned as they are), and fails only with the missing-field error that
    names the key and the file. *)
Theorem req_returns_nonempty_member (m : gmap string yaml) (key path : string) :
  (forall v : yaml,
     _req (YMap m) key path = Done v
     <-> m !! key = Some v /\ v <> YNull /\ v <> YStr "")
  /\ (forall e : failure,
        _req (YMap m) key path = Failed e -> e = Missing_field key path)
  /\ _req (YMap (<[key := YBool false]> m)) key path = Done (YBool false)
  /\ _req (YMap (<[key := YInt 0]> m)) key path = Done (YInt 0).
Proof.
  split; [|split; [|split]].
  - apply req_done.
  - apply req_failed.
  - by rewrite req_cases, lookup_insert_eq.
  - by rewrite req_cases, lookup_insert_eq.
Qed.

Lemma req_returns_nonempty_member_witness :
  _req (YMap {[ "id" := YStr "skos" ]}) "id" "resources/skos.yaml"
  = Done (YStr "skos").
Proof.
  destruct (req_returns_nonempty_member {[ "id" := YStr "skos" ]} "id"
              "resources/skos.yaml") as (Hdone & _).
  apply Hdone. split; [reflexivity|]. split; discriminate.
Defined.

Lemma words_disjoint (s : string) : s ∈ TRUE_WORDS -> s ∈ FALSE_WORDS -> False.
Proof.
  unfold TRUE_WORDS, FALSE_WORDS. rewrite !elem_of_cons, !elem_of_nil.
  intros [-> | [-> | [-> | [-> | []]]]] [? | [? | [? | [? | []]]]];
    discriminate.
Qed.

(** X2: [_bool_or_none] gives a boolean for a boolean and for the eight
    spellings, whatever their case and the white space around them; it
    gives [None] for null and for the empty text only; anything else, a
    text of white space and the integers 0 and 1 among them, is an
    invalid-boolean error. *)
Theorem bool_or_none_spellings (v : yaml) :
  (forall b : bool,
     _bool_or_none v = Done (Some b)
     <-> v = YBool b
         \/ exists s : string,
              v = YStr s
              /\ lower (strip s) ∈ (if b then TRUE_WORDS else FALSE_WORDS))
  /\ (_bool_or_none v = Done None <-> v = YNull \/ v = YStr "")
  /\ (forall e : failure, _bool_or_none v = Failed e -> e = Invalid_boolean)
  /\ (forall n : Z, _bool_or_none (YInt n) = Failed Invalid_boolean)
  /\ _bool_or_none (YStr " ") = Failed Invalid_boolean.
Proof.
  split; [|split; [|split; [|split]]]; [| | | done | done].
  - intros b. destruct v as [| b' | n | s | l | m]; cbn.
    + split; [done | intros [? | (s & ? & _)]; done].
    + split; [intros [= ->]; by left | intros [[= ->] | (s & ? & _)]; done].
    + split; [done | intros [? | (s & ? & _)]; done].
    + destruct (String.eqb_spec s "") as [-> | Hne].
      * split; [done|]. intros [? | (s & [= <-] & Hin)]; [done|].
        exfalso. revert Hin. change (lower (strip "")) with "".
        unfold TRUE_WORDS, FALSE_WORDS.
        destruct b; rewrite !elem_of_cons, elem_of_nil; intuition discriminate.
      * destruct (bool_decide_reflect (lower (strip s) ∈ TRUE_WORDS)) as [Ht | Ht].
        { split.
          - intros [= <-]. right. by exists s.
          - intros [? | (s' & [= <-] & Hin)]; [done|]. destruct b; [done|].
            by destruct (words_disjoint _ Ht Hin). }
        destruct (bool_decide_reflect (lower (strip s) ∈ FALSE_WORDS)) as [Hf | Hf].
        { split.
          - intros [= <-]. right. by exists s.
          - intros [? | (s' & [= <-] & Hin)]; [done|]. by destruct b. }
        split; [done|]. intros [? | (s' & [= <-] & Hin)]; [done|].
        by destruct b.
    + split; [done | intros [? | (s & ? & _)]; done].
    + split; [done | intros [? | (s & ? & _)]; done].
  - destruct v as [| b' | n | s | l | m]; cbn; try (split; [done | intros [? | ?]; done]).
    + split; [by left | done].
    + destruct (String.eqb_spec s "") as [-> | Hne]; [split; [by right | done]|].
      destruct (bool_decide _); [split; [done | intros [? | [= ?]]; done]|].
      destruct (bool_decide _); split; try done; intros [? | [= ?]]; done.
  - intros e. destruct v as [| b' | n | s | l | m]; cbn; try done;
      try by intros [= <-].
    destruct (String.eqb s ""); [done|].
    destruct (bool_decide _); [done|]. destruct (bool_decide _); [done|].
    by intros [= <-].
Qed.

Lemma bool_or_none_spellings_witness :
  _bool_or_none (YStr " Yes ") = Done (Some true).
Proof.
  destruct (bool_or_none_spellings (YStr " Yes ")) as (Hdone & _).
  apply Hdone. right. exists " Yes ". split; [reflexivity|].
  change (lower (strip " Yes ")) with "yes".
  apply list_elem_of_further, list_elem_of_here.
Defined.

Lemma csv_row_lookup (r : Resource) (f : string) :
  csv_row r !! f =
  if decide (f = "id") then Some (BuildCatalog.id r)
  else if decide (f = "name") then Some (name r)
  else if decide (f = "kind") then Some (kind r)
  else if decide (f = "domain") then Some (or_empty (domain r))
  else if decide (f = "free")
       then Some (match free r with
                  | None => ""
                  | Some b => str_bool_lower b
                  end)
  else if decide (f = "license_name") then Some (or_empty (license_name r))
  else if decide (f = "license_url") then Some (or_empty (license_url r))
  else if decide (f = "publisher") then Some (or_empty (publisher r))
  else if decide (f = "homepage") then Some (or_empty (homepage r))
  else if decide (f = "formats") then Some (summarize_formats r)
  else None.
Proof.
  unfold csv_row, list_to_map. cbn [foldr fst snd].
  repeat (rewrite lookup_insert;
          match goal with
          | |- context [decide (?k = f)] =>
              destruct (decide (k = f)) as [<- | ?];
              [reflexivity | destruct (decide (f = k)); [congruence|]]
          end).
  apply lookup_empty.
Qed.

(** X3: the dict that [write_csv] hands to the writer has the header's
    fields as its keys, all of them and no other, so the writer finds a
    value for every column and no key it would refuse; the header names no
    column twice, and a line has ten fields. *)
Theorem csv_row_keys_are_fieldnames (r : Resource) :
  (forall f : string, is_Some (csv_row r !! f) <-> f ∈ fieldnames)
  /\ NoDup fieldnames
  /\ length (csv_fields r) = 10%nat.
Proof.
  split; [|split].
  - intros f. rewrite csv_row_lookup. unfold fieldnames.
    rewrite !elem_of_cons, elem_of_nil.
    repeat (destruct (decide (f = _)) as [-> | ?]; [split; [tauto | by eexists]|]).
    split; [by intros [? ?] | tauto].
  - compute_done.
  - reflexivity.
Qed.

(** X4: the [free] column written by [write_csv] reads back through
    [_bool_or_none] as the value the resource holds: empty for [None],
    [true] and [false] for the booleans. *)
Theorem csv_free_reads_back (r : Resource) :
  exists f : string,
    csv_row r !! "free" = Some f
    /\ _bool_or_none (YStr f) = Done (free r)
    /\ (f = "" \/ f = "true" \/ f = "false").
Proof.
  rewrite csv_row_lookup. cbn. eexists. split; [reflexivity|].
  destruct (free r) as [[]|]; cbn; auto.
Qed.

(** *** The files found *)

Lemma le_str_total (x y : string) : String.leb x y = false -> le_str y x.
Proof.
  unfold le_str, String.leb. rewrite (String.compare_antisym x y).
  by destruct (String.compare y x).
Qed.

#[local] Instance le_str_trans : Transitive le_str.
Proof.
  intros x y z. unfold le_str, String.leb.
  destruct (String.compare x y) eqn:Exy; [| |done].
  - apply String.compare_eq_iff in Exy as ->. done.
  - destruct (String.compare y z) eqn:Eyz; [| |done].
    + apply String.compare_eq_iff in Eyz as <-. by rewrite Exy.
    + by rewrite (SortSpec.string_compare_lt_trans x y z Exy Eyz).
Qed.

#[local] Instance le_str_antisym : AntiSymm eq le_str.
Proof.
  intros x y. unfold le_str, String.leb. rewrite (String.compare_antisym y x).
  destruct (String.compare x y) eqn:E; try done.
  intros _ _. by apply String.compare_eq_iff.
Qed.

Lemma insert_sorted_perm (x : string) (l : list string) :
  insert_sorted x l ≡ₚ x :: l.
Proof.
  induction l as [|y l IH]; [done|]. cbn.
  destruct (String.leb x y); [done|]. rewrite IH. apply Permutation_swap.
Qed.

Lemma sorted_perm (l : list string) : sorted l ≡ₚ l.
Proof.
  unfold sorted. induction l as [|x l IH]; [done|]. cbn.
  by rewrite insert_sorted_perm, IH.
Qed.

Lemma insert_sorted_sorted (x : string) (l : list string) :
  StronglySorted le_str l -> StronglySorted le_str (insert_sorted x l).
Proof.
  induction 1 as [|y l Hl IH Hy]; cbn; [repeat constructor|].
  destruct (String.leb x y) eqn:E.
  - constructor; [by constructor|]. constructor; [done|].
    eapply Forall_impl; [exact Hy|]. intros z Hz. by trans y.
  - constructor; [done|]. rewrite insert_sorted_perm.
    constructor; [by apply le_str_total | done].
Qed.

Lemma sorted_sorted (l : list string) : StronglySorted le_str (sorted l).
Proof.
  unfold sorted. induction l as [|x l IH]; cbn; [constructor|].
  by apply insert_sorted_sorted.
Qed.

(** Two ordered lists with the same elements are the same list. *)
Lemma ordered_unique (l1 l2 : list string) :
  StronglySorted le_str l1 -> StronglySorted le_str l2 -> l1 ≡ₚ l2 -> l1 = l2.
Proof.
  intros H1. revert l2. induction H1 as [|x l1 Hl1 IH Hx]; intros l2 H2 Hperm.
  - by apply Permutation_nil_l in Hperm.
  - destruct H2 as [|y l2 Hl2 Hy].
    + by apply Permutation_nil_r in Hperm.
    + assert (x = y) as <-.
      { assert (x ∈ y :: l2) as Hxin by (rewrite <- Hperm; left).
        assert (y ∈ x :: l1) as Hyin by (rewrite Hperm; left).
        apply elem_of_cons in Hxin as [-> | Hxin]; [done|].
        apply elem_of_cons in Hyin as [-> | Hyin]; [done|].
        rewrite Forall_forall in Hx, Hy.
        apply le_str_antisym; auto. }
      f_equal. apply Permutation_cons_inv in Hperm. by apply IH.
Qed.

Lemma sorted_of_perm (l1 l2 : list string) : l1 ≡ₚ l2 -> sorted l1 = sorted l2.
Proof.
  intros Hperm. apply ordered_unique; try apply sorted_sorted.
  by rewrite !sorted_perm.
Qed.

Lemma iter_yaml_files_flat (walk : list (string * list string)) :
  iter_yaml_files walk = sorted (flat_map yaml_paths walk).
Proof.
  unfold iter_yaml_files. f_equal. rewrite List.flat_map_concat_map.
  f_equal. apply List.map_ext. by intros [r files].
Qed.

Lemma filter_perm {A} (p : A -> bool) (l l' : list A) :
  l ≡ₚ l' -> List.filter p l ≡ₚ List.filter p l'.
Proof.
  induction 1 as [|x l l' _ IH|x y l|l l' l'' _ IH _ IH'].
  - done.
  - cbn. destruct (p x); [by constructor | done].
  - cbn. destruct (p x), (p y); try done. apply Permutation_swap.
  - by etransitivity.
Qed.

(** The paths of a directory do not depend on the order of its files. *)
Lemma yaml_paths_perm (e e' : string * list string) :
  fst e = fst e' -> snd e ≡ₚ snd e' -> yaml_paths e ≡ₚ yaml_paths e'.
Proof.
  intros Hdir Hfiles. unfold yaml_paths. rewrite Hdir.
  by apply Permutation_map, filter_perm.
Qed.

Lemma flat_map_yaml_paths_perm (walk walk' : list (string * list string)) :
  Forall2 (fun e e' => fst e = fst e' /\ snd e ≡ₚ snd e') walk walk' ->
  flat_map yaml_paths walk ≡ₚ flat_map yaml_paths walk'.
Proof.
  induction 1 as [|e e' walk walk' [Hdir Hfiles] _ IH]; [done|].
  cbn [flat_map]. by rewrite (yaml_paths_perm e e' Hdir Hfiles), IH.
Qed.

(** X5: [iter_yaml_files] returns, in ascending order of code points, the
    joined paths of the files whose names end in [.yaml] or [.yml], each as
    often as [os.walk] lists it, and nothing else; neither the order in
    which [os.walk] visits the directories nor the order in which it lists
    the files of a directory shows in the result. *)
Theorem iter_yaml_files_sorted (walk : list (string * list string)) :
  StronglySorted (fun p q => String.leb p q = true) (iter_yaml_files walk)
  /\ iter_yaml_files walk
     ≡ₚ flat_map (fun entry =>
                    map (path_join (fst entry))
                        (List.filter
                           (fun fn => endswith fn ".yaml" || endswith fn ".yml")
                           (snd entry)))
                 walk
  /\ (forall p : string,
        p ∈ iter_yaml_files walk
        <-> exists (r : string) (files : list string) (fn : string),
              (r, files) ∈ walk /\ fn ∈ files
              /\ (endswith fn ".yaml" = true \/ endswith fn ".yml" = true)
              /\ p = path_join r fn)
  /\ (forall walk' walk'' : list (string * list string),
        walk ≡ₚ walk' ->
        Forall2 (fun e e' => fst e = fst e' /\ snd e ≡ₚ snd e') walk' walk'' ->
        iter_yaml_files walk'' = iter_yaml_files walk).
Proof.
  rewrite iter_yaml_files_flat. split; [apply sorted_sorted|].
  split; [apply sorted_perm|]. split.
  - intros p. rewrite sorted_perm, list_elem_of_In, List.in_flat_map. split.
    + intros ([r files] & Hin & Hp). unfold yaml_paths in Hp. cbn in Hp.
      apply List.in_map_iff in Hp as (fn & <- & Hfn).
      apply List.filter_In in Hfn as [Hfn Hyaml].
      exists r, files, fn. rewrite !list_elem_of_In.
      unfold is_yaml_name in Hyaml. apply orb_true_iff in Hyaml. done.
    + intros (r & files & fn & Hin & Hfn & Hyaml & ->).
      exists (r, files). rewrite <- list_elem_of_In. split; [done|].
      unfold yaml_paths. cbn. apply List.in_map, List.filter_In.
      rewrite <- list_elem_of_In. split; [done|].
      unfold is_yaml_name. by apply orb_true_iff.
  - intros walk' walk'' Hperm Hfiles. rewrite iter_yaml_files_flat.
    apply sorted_of_perm.
    rewrite <- (flat_map_yaml_paths_perm walk' walk'' Hfiles).
    symmetry. by apply Permutation_flat_map.
Qed.

Lemma iter_yaml_files_sorted_witness :
  iter_yaml_files [("res/sub", ["z.yaml"; "notes.txt"]);
                   ("res", ["b.yaml"; "a.yml"; "b.yaml"])]
  = ["res/a.yml"; "res/b.yaml"; "res/b.yaml"; "res/sub/z.yaml"]
  /\ iter_yaml_files [("res", ["a.yml"; "b.yaml"; "b.yaml"]);
                      ("res/sub", ["notes.txt"; "z.yaml"])]
     = iter_yaml_files [("res/sub", ["z.yaml"; "notes.txt"]);
                        ("res", ["b.yaml"; "a.yml"; "b.yaml"])].
Proof.
  split; [reflexivity|].
  destruct (iter_yaml_files_sorted
              [("res/sub", ["z.yaml"; "notes.txt"]);
               ("res", ["b.yaml"; "a.yml"; "b.yaml"])])
    as (_ & _ & _ & Horder).
  apply (Horder [("res", ["b.yaml"; "a.yml"; "b.yaml"]);
                 ("res/sub", ["z.yaml"; "notes.txt"])]).
  - apply Permutation_swap.
  - constructor; [split; [reflexivity | apply Permutation_swap]|].
    constructor; [split; [reflexivity | apply Permutation_swap]|].
    constructor.
Defined.

(** *** The resources loaded *)

Lemma load_resource_needs_mapping (data : yaml) (fp : string) (r : Loaded) :
  load_resource data fp = Done r -> exists m, data = YMap m.
Proof.
  destruct data as [| b | n | s | l | m]; [| | | | |by eexists];
    unfold load_resource, _req, contains, subscript, mbind, attempt_bind;
    try done.
  - destruct (bool_decide _); done.
  - destruct (existsb _ _); done.
Qed.

(** X6: a resource that loads comes from a mapping whose [id] and [name]
    are given and not empty and whose [kind] is one of the five allowed
    texts; the entry holds these three values as the file has them. *)
Theorem loaded_resource_is_valid (data : yaml) (fp : string) (r : Loaded) :
  load_resource data fp = Done r ->
  exists (m : gmap string yaml) (k : string),
    data = YMap m
    /\ m !! "id" = Some (l_id r) /\ l_id r <> YNull /\ l_id r <> YStr ""
    /\ m !! "name" = Some (l_name r) /\ l_name r <> YNull
    /\ l_name r <> YStr ""
    /\ m !! "kind" = Some (YStr k) /\ l_kind r = YStr k /\ k ∈ ALLOWED_KINDS.
Proof.
  intros Hload. destruct (load_resource_needs_mapping data fp r Hload) as [m ->].
  revert Hload. unfold load_resource, mbind at 1 2 3 4, attempt_bind.
  destruct (_req (YMap m) "id" fp) as [rid|] eqn:Eid; [|done].
  destruct (_req (YMap m) "name" fp) as [nm|] eqn:Ename; [|done].
  destruct (_req (YMap m) "kind" fp) as [kd|] eqn:Ekind; [|done].
  apply req_done in Eid as (Eid & ? & ?).
  apply req_done in Ename as (Ename & ? & ?).
  apply req_done in Ekind as (Ekind & ? & ?).
  destruct (allowed_kind kd) as [ok|] eqn:Eok; [|done].
  destruct ok; cbn [negb]; [|done].
  destruct kd as [| b | n | k | l | m']; try done.
  cbn in Eok. injection Eok as Eok. apply bool_decide_eq_true in Eok.
  intros Hrest. exists m, k.
  assert (l_id r = rid /\ l_name r = nm /\ l_kind r = YStr k) as (-> & -> & ->).
  { revert Hrest. unfold mbind, attempt_bind.
    repeat match goal with
           | |- context [match ?x with Done _ => _ | Failed _ => _ end] =>
               destruct x; [|done]
           end.
    by intros [= <-]. }
  done.
Qed.

Lemma loaded_resource_is_valid_witness :
  exists (r : Loaded) (m : gmap string yaml) (k : string),
    load_resource skos_file "resources/skos.yaml" = Done r
    /\ skos_file = YMap m
    /\ m !! "id" = Some (l_id r) /\ l_id r <> YNull /\ l_id r <> YStr ""
    /\ m !! "name" = Some (l_name r) /\ l_name r <> YNull
    /\ l_name r <> YStr ""
    /\ m !! "kind" = Some (YStr k) /\ l_kind r = YStr k /\ k ∈ ALLOWED_KINDS.
Proof.
  assert (exists r, load_resource skos_file "resources/skos.yaml" = Done r)
    as [r Hload] by (eexists; vm_compute; reflexivity).
  destruct (loaded_resource_is_valid skos_file "resources/skos.yaml" r Hload)
    as (m & k & Hvalid).
  exists r, m, k. split; [exact Hload | exact Hvalid].
Defined.

Lemma req_given (m : gmap string yaml) (key path : string) :
  given m key -> exists v, _req (YMap m) key path = Done v /\ m !! key = Some v.
Proof.
  intros (v & Hv). exists v. split; [|by destruct Hv].
  by apply req_done.
Qed.

Lemma req_not_given (m : gmap string yaml) (key path : string) :
  ~ given m key -> _req (YMap m) key path = Failed (Missing_field key path).
Proof.
  intros Hng. destruct (_req (YMap m) key path) as [v|e] eqn:E.
  - destruct Hng. exists v. by apply (req_done m key path).
  - by apply req_failed in E as ->.
Qed.

(** X7: what the loader refuses. A file without [id] (an empty file among
    them), then without [name], then without [kind], is refused with the
    missing-field error for that key and that file; with the three given, a
    kind that is a text outside the five allowed ones is refused with the
    invalid-kind error (an empty kind counts as missing). *)
Theorem load_resource_rejects (m : gmap string yaml) (fp : string) :
  (~ given m "id" ->
   load_resource (YMap m) fp = Failed (Missing_field "id" fp))
  /\ (given m "id" -> ~ given m "name" ->
      load_resource (YMap m) fp = Failed (Missing_field "name" fp))
  /\ (given m "id" -> given m "name" -> ~ given m "kind" ->
      load_resource (YMap m) fp = Failed (Missing_field "kind" fp))
  /\ (forall k : string,
        given m "id" -> given m "name" -> m !! "kind" = Some (YStr k) ->
        k <> "" -> k ∉ ALLOWED_KINDS ->
        load_resource (YMap m) fp = Failed (Invalid_kind fp))
  /\ load_resource (or_else YNull (YMap ∅)) fp = Failed (Missing_field "id" fp).
Proof.
  split; [|split; [|split; [|split]]].
  - intros Hid. unfold load_resource, mbind at 1, attempt_bind.
    by rewrite (req_not_given m "id" fp Hid).
  - intros Hid Hname. unfold load_resource, mbind at 1 2, attempt_bind.
    destruct (req_given m "id" fp Hid) as (v & -> & _).
    by rewrite (req_not_given m "name" fp Hname).
  - intros Hid Hname Hkind. unfold load_resource, mbind at 1 2 3, attempt_bind.
    destruct (req_given m "id" fp Hid) as (v & -> & _).
    destruct (req_given m "name" fp Hname) as (w & -> & _).
    by rewrite (req_not_given m "kind" fp Hkind).
  - intros k Hid Hname Hkind Hne Hk.
    unfold load_resource, mbind at 1 2 3 4, attempt_bind.
    destruct (req_given m "id" fp Hid) as (v & -> & _).
    destruct (req_given m "name" fp Hname) as (w & -> & _).
    rewrite req_cases, Hkind. destruct (String.eqb_spec k ""); [done|].
    cbn. by rewrite bool_decide_eq_false_2.
  - reflexivity.
Qed.

Lemma load_resource_rejects_witness :
  load_resource kindless_file "resources/x.yaml"
    = Failed (Missing_field "kind" "resources/x.yaml")
  /\ load_resource banana_file "resources/banana.yaml"
     = Failed (Invalid_kind "resources/banana.yaml").
Proof.
  split.
  - destruct (load_resource_rejects
                (list_to_map [ ("id", YStr "x"); ("name", YStr "X") ])
                "resources/x.yaml") as (_ & _ & Hkind & _).
    apply Hkind.
    + exists (YStr "x"). split; [reflexivity | split; discriminate].
    + exists (YStr "X"). split; [reflexivity | split; discriminate].
    + intros (v & Hv & _). vm_compute in Hv. discriminate Hv.
  - destruct (load_resource_rejects
                (list_to_map [ ("id", YStr "banana"); ("name", YStr "Banana");
                               ("kind", YStr "banana") ])
                "resources/banana.yaml") as (_ & _ & _ & Hbad & _).
    apply (Hbad "banana").
    + exists (YStr "banana"). split; [reflexivity | split; discriminate].
    + exists (YStr "Banana"). split; [reflexivity | split; discriminate].
    + reflexivity.
    + discriminate.
    + unfold ALLOWED_KINDS. rewrite !elem_of_cons, elem_of_nil.
      intros [? | [? | [? | [? | [? | []]]]]]; discriminate.
Defined.

Section Files.

Variable read : string -> attempt yaml.

Lemma load_files_cons (fp : string) (paths : list string) :
  load_files read (fp :: paths) =
  match read fp with
  | Failed e => Failed e
  | Done data =>
      if kept fp then
        match load_resource (or_else data (YMap ∅)) fp with
        | Failed e => Failed e
        | Done r =>
            match load_files read paths with
            | Failed e => Failed e
            | Done rs => Done (r :: rs)
            end
        end
      else load_files read paths
  end.
Proof.
  cbn [load_files]. unfold mbind, attempt_bind, kept.
  destruct (read fp) as [data|]; [|done].
  by destruct (startswith (basename fp) "_").
Qed.

Lemma load_files_unreadable (paths : list string) (fp : string) (e : failure) :
  fp ∈ paths -> read fp = Failed e ->
  exists e' : failure, load_files read paths = Failed e'.
Proof.
  induction paths as [|fp0 paths IH]; intros Hin Hfail.
  - by apply elem_of_nil in Hin.
  - rewrite load_files_cons. apply elem_of_cons in Hin as [-> | Hin].
    + rewrite Hfail. by eexists.
    + destruct (IH Hin Hfail) as [e' ->].
      destruct (read fp0); [|by eexists]. destruct (kept fp0); [|by eexists].
      destruct (load_resource _ fp0); by eexists.
Qed.

Lemma load_files_filter (paths : list string) :
  Forall (fun fp => kept fp = false -> exists data, read fp = Done data) paths ->
  load_files read paths = load_files read (List.filter kept paths).
Proof.
  induction 1 as [|fp paths Hfp _ IH]; [done|].
  cbn [List.filter]. destruct (kept fp) eqn:Ekept.
  - rewrite !load_files_cons, Ekept, IH. done.
  - rewrite load_files_cons, Ekept. destruct (Hfp eq_refl) as [data ->].
    done.
Qed.

(** X8: the loader returns all or nothing. When it returns, every file met
    had been read, and the resources are those of the files whose names do
    not start with an underscore, one for each, in the order of the paths.
    When a file cannot be read, or one that is not skipped is refused, the
    load fails and returns no resource. *)
Theorem load_files_all_or_nothing (paths : list string) :
  (forall rs : list Loaded,
     load_files read paths = Done rs ->
     Forall (fun fp => exists data, read fp = Done data) paths
     /\ Forall2 (fun fp r =>
                   exists data,
                     read fp = Done data
                     /\ load_resource (or_else data (YMap ∅)) fp = Done r)
                (List.filter kept paths) rs)
  /\ (forall (fp : string) (e : failure),
        fp ∈ paths -> read fp = Failed e ->
        exists e' : failure, load_files read paths = Failed e')
  /\ (forall (fp : string) (data : yaml) (e : failure),
        fp ∈ paths -> kept fp = true -> read fp = Done data ->
        load_resource (or_else data (YMap ∅)) fp = Failed e ->
        exists e' : failure, load_files read paths = Failed e').
Proof.
  induction paths as [|fp paths IH].
  - split; [|split].
    + intros rs [= <-]. split; constructor.
    + intros fp e Hin. by apply elem_of_nil in Hin.
    + intros fp data e Hin. by apply elem_of_nil in Hin.
  - destruct IH as (IHdone & IHread & IHbad). rewrite load_files_cons.
    split; [|split].
    + intros rs. destruct (read fp) as [data|] eqn:Eread; [|done].
      cbn [List.filter]. destruct (kept fp).
      * destruct (load_resource _ fp) as [r|] eqn:Eload; [|done].
        destruct (load_files read paths) as [rs'|]; [|done].
        intros [= <-]. destruct (IHdone rs' eq_refl) as [Hall Hrs].
        split; constructor; eauto.
      * intros Hrs. destruct (IHdone rs Hrs) as [Hall Hrs'].
        split; [constructor; eauto | done].
    + intros fp' e Hin Hfail. rewrite <- load_files_cons.
      by apply (load_files_unreadable (fp :: paths) fp' e).
    + intros fp' data e Hin Hkept Hread Hbad.
      apply elem_of_cons in Hin as [-> | Hin].
      * rewrite Hread, Hkept, Hbad. by eexists.
      * destruct (IHbad fp' data e Hin Hkept Hread Hbad) as [e' ->].
        destruct (read fp); [|by eexists]. destruct (kept fp); [|by eexists].
        destruct (load_resource _ fp); by eexists.
Qed.

(** X9: a file whose name starts with an underscore adds no resource and
    is never validated, whatever it holds, but it is read like the others:
    with readable templates the load is that of the other files, and a
    template that cannot be read makes the load fail. *)
Theorem templates_are_read_then_skipped (paths : list string) :
  (Forall (fun fp => kept fp = false -> exists data, read fp = Done data) paths ->
   load_files read paths = load_files read (List.filter kept paths))
  /\ (forall (fp : string) (e : failure),
        fp ∈ paths -> kept fp = false -> read fp = Failed e ->
        exists e' : failure, load_files read paths = Failed e').
Proof.
  split.
  - apply load_files_filter.
  - intros fp e Hin _ Hread. by apply (load_files_unreadable paths fp e).
Qed.

End Files.

Lemma load_files_all_or_nothing_witness :
  (exists rs : list Loaded,
     load_files read_tree ["resources/_template.yaml"; "resources/skos.yaml"]
       = Done rs
     /\ Forall2 (fun fp r =>
                   exists data,
                     read_tree fp = Done data
                     /\ load_resource (or_else data (YMap ∅)) fp = Done r)
                ["resources/skos.yaml"] rs)
  /\ exists e : failure,
       load_files read_tree ["resources/skos.yaml"; "resources/banana.yaml"]
       = Failed e.
Proof.
  split.
  - assert (exists rs,
              load_files read_tree
                ["resources/_template.yaml"; "resources/skos.yaml"] = Done rs)
      as [rs Hrs] by (eexists; vm_compute; reflexivity).
    exists rs. split; [exact Hrs|].
    destruct (load_files_all_or_nothing read_tree
                ["resources/_template.yaml"; "resources/skos.yaml"])
      as (Hdone & _).
    exact (proj2 (Hdone rs Hrs)).
  - destruct (load_files_all_or_nothing read_tree
                ["resources/skos.yaml"; "resources/banana.yaml"])
      as (_ & Hread & _).
    apply (Hread "resources/banana.yaml" Read_error).
    + apply list_elem_of_further, list_elem_of_here.
    + reflexivity.
Defined.

Lemma templates_are_read_then_skipped_witness :
  load_files read_tree ["resources/_template.yaml"; "resources/skos.yaml"]
    = load_files read_tree ["resources/skos.yaml"]
  /\ exists e : failure,
       load_files read_broken_template
         ["resources/_template.yaml"; "resources/skos.yaml"] = Failed e.
Proof.
  split.
  - destruct (templates_are_read_then_skipped read_tree
                ["resources/_template.yaml"; "resources/skos.yaml"])
      as (Hskip & _).
    apply Hskip. repeat constructor.
    + intros _. exists kindless_file. reflexivity.
    + intros Hkept. discriminate Hkept.
  - destruct (templates_are_read_then_skipped read_broken_template
                ["resources/_template.yaml"; "resources/skos.yaml"])
      as (_ & Hbroken).
    apply (Hbroken "resources/_template.yaml" Read_error).
    + apply list_elem_of_here.
    + reflexivity.
    + reflexivity.
Defined.

(** *** The optional members *)

(** What a resource that loads holds, member by member. *)
Lemma load_resource_done (m : gmap string yaml) (fp : string) (r : Loaded) :
  load_resource (YMap m) fp = Done r ->
  (exists ds : list yaml,
     iterate (or_else (member m "distributions") (YSeq [])) = Done ds
     /\ load_distributions ds = Done (l_distributions r))
  /\ _bool_or_none (member m "free") = Done (l_free r)
  /\ l_domain r = member m "domain"
  /\ l_publisher r = member m "publisher"
  /\ l_description r = member m "description"
  /\ get_member (or_else (member m "license") (YMap ∅)) "name"
     = Done (l_license_name r)
  /\ get_member (or_else (member m "license") (YMap ∅)) "url"
     = Done (l_license_url r)
  /\ get_member (or_else (member m "links") (YMap ∅)) "homepage"
     = Done (l_homepage r).
Proof.
  unfold load_resource, mbind at 1 2 3 4, attempt_bind.
  destruct (_req (YMap m) "id" fp) as [rid|]; [|done].
  destruct (_req (YMap m) "name" fp) as [nm|]; [|done].
  destruct (_req (YMap m) "kind" fp) as [kd|]; [|done].
  destruct (allowed_kind kd) as [[]|]; [|done|done]. cbn [negb].
  assert (forall k, get_member (YMap m) k = Done (member m k)) as Hget by done.
  rewrite !Hget. clear Hget.
  unfold mbind, attempt_bind. cbv beta iota.
  destruct (iterate _) as [ds|]; [|done].
  destruct (load_distributions ds) as [dists|] eqn:Hds; [|done].
  destruct (_bool_or_none _) as [fr|]; [|done].
  destruct (get_member _ "name") as [ln|]; [|done].
  destruct (get_member _ "url") as [lu|]; [|done].
  destruct (get_member _ "homepage") as [hp|]; [|done].
  intros [= <-]. cbn. split; [by exists ds|]. done.
Qed.

Lemma load_distributions_done (ds : list yaml) (xs : list Loaded_distribution) :
  load_distributions ds = Done xs ->
  Forall2 (fun d x =>
             exists dm : gmap string yaml,
               d = YMap dm
               /\ l_format x = member dm "format"
               /\ l_media_type x = member dm "media_type"
               /\ l_download_url x = member dm "download_url") ds xs.
Proof.
  revert xs. induction ds as [|d ds IH]; intros xs; cbn.
  - intros [= <-]. constructor.
  - unfold mbind, attempt_bind.
    destruct (load_distribution d) as [x|] eqn:Ed; [|done].
    destruct (load_distributions ds) as [xs'|]; [|done].
    intros [= <-]. constructor; [|by apply IH].
    destruct d as [| | | | |dm]; try done. exists dm.
    cbn in Ed. injection Ed as <-. done.
Qed.

(** X10: the distributions of a resource that loads are those of the file,
    as many and in the same order, each a mapping of which [format],
    [media_type] and [download_url] are kept (null when not given); a file
    whose [distributions] member is absent, null or empty gives none. *)
Theorem distributions_loaded_in_order (m : gmap string yaml) (fp : string)
    (r : Loaded) :
  load_resource (YMap m) fp = Done r ->
  (forall ds : list yaml,
     m !! "distributions" = Some (YSeq ds) ->
     Forall2 (fun d x =>
                exists dm : gmap string yaml,
                  d = YMap dm
                  /\ l_format x = member dm "format"
                  /\ l_media_type x = member dm "media_type"
                  /\ l_download_url x = member dm "download_url")
             ds (l_distributions r))
  /\ (truth (member m "distributions") = false -> l_distributions r = []).
Proof.
  intros Hload.
  destruct (load_resource_done m fp r Hload) as ((ds' & Hiter & Hds) & _).
  split.
  - intros ds Hm. unfold member in Hiter. rewrite Hm in Hiter. cbn in Hiter.
    apply load_distributions_done.
    destruct ds as [|d ds]; cbn in Hiter; injection Hiter as <-; done.
  - intros Hfalse. unfold or_else in Hiter. rewrite Hfalse in Hiter.
    cbn in Hiter. injection Hiter as <-. cbn in Hds. by injection Hds as <-.
Qed.

Lemma distributions_loaded_in_order_witness :
  exists r : Loaded,
    load_resource skos_file "resources/skos.yaml" = Done r
    /\ map l_format (l_distributions r) = [YStr "rdf"; YStr "ttl"]
    /\ length (l_distributions r) = 2%nat.
Proof.
  assert (exists r, load_resource skos_file "resources/skos.yaml" = Done r)
    as [r Hload] by (eexists; vm_compute; reflexivity).
  exists r. split; [exact Hload|].
  destruct (distributions_loaded_in_order _ _ r Hload) as [Hds _].
  specialize (Hds [ YMap (list_to_map [ ("format", YStr "rdf") ]);
                    YMap (list_to_map [ ("format", YStr "ttl");
                                        ("media_type", YStr "text/turtle") ]) ]
                eq_refl).
  apply Forall2_cons_inv_l in Hds as (x1 & xs1 & (dm1 & Hd1 & Hf1 & _) & Hds & ->).
  apply Forall2_cons_inv_l in Hds as (x2 & xs2 & (dm2 & Hd2 & Hf2 & _) & Hds & ->).
  apply Forall2_nil_inv_l in Hds as ->.
  injection Hd1 as <-. injection Hd2 as <-.
  cbn [map l_distributions length]. rewrite Hf1, Hf2. split; reflexivity.
Defined.

(** X11: the license and the links of a resource that loads. A [license]
    (or [links]) member that is absent, null or empty gives null fields; one
    that is a mapping gives its [name] and [url] (its [homepage]), null
    when not given; no other value loads: a file whose license is written
    as a text is refused. *)
Theorem license_and_links_loaded (m : gmap string yaml) (fp : string) :
  (forall r : Loaded,
     load_resource (YMap m) fp = Done r ->
     (truth (member m "license") = false ->
      l_license_name r = YNull /\ l_license_url r = YNull)
     /\ (forall lm : gmap string yaml,
           member m "license" = YMap lm ->
           l_license_name r = member lm "name"
           /\ l_license_url r = member lm "url")
     /\ (truth (member m "links") = false -> l_homepage r = YNull)
     /\ (forall lm : gmap string yaml,
           member m "links" = YMap lm -> l_homepage r = member lm "homepage"))
  /\ (forall s : string,
        member m "license" = YStr s -> s <> "" ->
        exists e : failure, load_resource (YMap m) fp = Failed e).
Proof.
  split.
  - intros r Hload.
    destruct (load_resource_done m fp r Hload)
      as (_ & _ & _ & _ & _ & Hname & Hurl & Hhome).
    unfold or_else in *. split; [|split; [|split]].
    + intros Hfalse. rewrite Hfalse in Hname, Hurl. cbn in Hname, Hurl.
      rewrite lookup_empty in Hname, Hurl. cbn in Hname, Hurl.
      split; congruence.
    + intros lm Hlm. rewrite Hlm in Hname, Hurl. cbn [truth] in Hname, Hurl.
      unfold member. destruct (decide (lm = ∅)) as [Hempty | Hfull].
      * rewrite bool_decide_eq_true_2 in Hname, Hurl by done.
        cbn in Hname, Hurl. rewrite Hempty, !lookup_empty.
        rewrite lookup_empty in Hname, Hurl. split; congruence.
      * rewrite bool_decide_eq_false_2 in Hname, Hurl by done.
        cbn in Hname, Hurl. split; congruence.
    + intros Hfalse. rewrite Hfalse in Hhome. cbn in Hhome.
      rewrite lookup_empty in Hhome. cbn in Hhome. congruence.
    + intros lm Hlm. rewrite Hlm in Hhome. cbn [truth] in Hhome.
      unfold member. destruct (decide (lm = ∅)) as [Hempty | Hfull].
      * rewrite bool_decide_eq_true_2 in Hhome by done.
        cbn in Hhome. rewrite Hempty, lookup_empty.
        rewrite lookup_empty in Hhome. congruence.
      * rewrite bool_decide_eq_false_2 in Hhome by done.
        cbn in Hhome. congruence.
  - intros s Hs Hne. destruct (load_resource (YMap m) fp) as [r|e] eqn:Hload;
      [|by eexists].
    destruct (load_resource_done m fp r Hload)
      as (_ & _ & _ & _ & _ & Hname & _).
    rewrite Hs in Hname. unfold or_else in Hname. cbn in Hname.
    destruct (String.eqb_spec s ""); [done|]. cbn in Hname. done.
Qed.

Lemma license_and_links_loaded_witness :
  exists e : failure,
    load_resource license_text_file "resources/foaf.yaml" = Failed e.
Proof.
  destruct (license_and_links_loaded
              (list_to_map
                 [ ("id", YStr "foaf"); ("name", YStr "FOAF");
                   ("kind", YStr "ontology"); ("license", YStr "CC-BY") ])
              "resources/foaf.yaml") as [_ Htext].
  apply (Htext "CC-BY"); [reflexivity | discriminate].
Defined.

(** X12: [main] exits when there is no resources folder, and when the
    folder holds no resource, as one with templates only; the resources it
    goes on to write are those loaded, at least one. *)
Theorem main_needs_a_resource (read : string -> attempt yaml)
    (walk : list (string * list string)) :
  main_resources read false walk = Failed No_resources_folder
  /\ (Forall (fun fp => kept fp = false /\ exists data, read fp = Done data)
             (iter_yaml_files walk) ->
      main_resources read true walk = Failed No_resources_found)
  /\ (forall (isdir : bool) (rs : list Loaded),
        main_resources read isdir walk = Done rs ->
        isdir = true /\ rs <> [] /\ load_resources read walk = Done rs).
Proof.
  split; [done|]. split.
  - intros Hall. unfold main_resources, load_resources. cbn [negb].
    rewrite load_files_filter.
    + replace (List.filter kept (iter_yaml_files walk)) with (@nil string);
        [done|].
      symmetry. induction Hall as [|fp l [Hk _] _ IH]; [done|].
      cbn. by rewrite Hk.
    + eapply Forall_impl; [exact Hall|]. by intros fp [_ ?] _.
  - intros isdir rs. unfold main_resources. destruct isdir; [|done]. cbn [negb].
    unfold mbind, attempt_bind.
    destruct (load_resources read walk) as [[|r rs']|]; try done.
    by intros [= <-].
Qed.

Lemma main_needs_a_resource_witness :
  main_resources read_tree true [("resources", ["_template.yaml"; "README.md"])]
    = Failed No_resources_found
  /\ exists rs : list Loaded,
       main_resources read_tree true tree = Done rs /\ rs <> [].
Proof.
  destruct (main_needs_a_resource read_tree
              [("resources", ["_template.yaml"; "README.md"])])
    as (_ & Hnone & _).
  split.
  - apply Hnone. repeat constructor. exists kindless_file. reflexivity.
  - assert (exists rs, main_resources read_tree true tree = Done rs)
      as [rs Hrs] by (eexists; vm_compute; reflexivity).
    exists rs. split; [exact Hrs|].
    destruct (main_needs_a_resource read_tree tree) as (_ & _ & Hdone).
    exact (proj1 (proj2 (Hdone true rs Hrs))).
Defined.

End LoaderSpec.

(** * The graph of the catalog *)

Module TurtleSpec.
Import Py BuildCatalog Turtle CatalogSamples CatalogStated.

(** *** Texts *)

Lemma append_String (x : ascii) (a b : string) :
  String x a +:+ b = String x (a +:+ b).
Proof. reflexivity. Qed.

Lemma append_inv_head (a x y : string) : a +:+ x = a +:+ y -> x = y.
Proof.
  induction a as [|c a IH]; [done|]. rewrite !append_String.
  intros [= H]. by apply IH.
Qed.

Lemma rstrip_with_append (sp : ascii -> bool) (s t : string) :
  rstrip_with sp t = "" -> rstrip_with sp (s +:+ t) = rstrip_with sp s.
Proof.
  intros Ht. induction s as [|c s IH]; [exact Ht|].
  rewrite append_String. cbn [rstrip_with]. by rewrite IH.
Qed.

Lemma rstrip_with_idemp (sp : ascii -> bool) (s : string) :
  rstrip_with sp (rstrip_with sp s) = rstrip_with sp s.
Proof.
  induction s as [|c s IH]; [done|]. cbn [rstrip_with].
  destruct (rstrip_with sp s) as [|c' s'] eqn:E.
  - destruct (sp c) eqn:Ec; [done|]. cbn. by rewrite Ec.
  - cbn [rstrip_with] in *. by rewrite IH.
Qed.

(** *** The base of the IRIs *)

Lemma graph_of_base (b b' : string) (resources : list Resource) :
  BASE b = BASE b' -> write_ttl resources b = write_ttl resources b'.
Proof.
  intros Hb. unfold write_ttl. f_equal.
  - unfold catalog. by rewrite Hb.
  - f_equal. apply List.map_ext. intros r.
    unfold resource_triples, subject, catalog, FREE. rewrite Hb.
    do 12 f_equal. apply imap_ext. intros k d _.
    unfold distribution_triples, distribution_node, subject. by rewrite Hb.
Qed.

(** X13: slashes at the end of the base IRI do not count. The graph is the
    same for a base written with or without them, every IRI under the base
    being made with one slash behind what is left of it. *)
Theorem base_iri_trailing_slashes (resources : list Resource) (b t : string) :
  slashes t ->
  write_ttl resources (b +:+ t) = write_ttl resources b
  /\ BASE (b +:+ t) = rstrip_with is_slash b +:+ "/"
  /\ write_ttl resources (BASE b) = write_ttl resources b.
Proof.
  intros Ht.
  assert (BASE (b +:+ t) = BASE b) as Hb
    by (unfold BASE; by rewrite rstrip_with_append).
  split; [by apply graph_of_base|]. split; [exact Hb|].
  apply graph_of_base. unfold BASE.
  rewrite rstrip_with_append by reflexivity.
  by rewrite rstrip_with_idemp.
Qed.

Lemma base_iri_trailing_slashes_witness :
  write_ttl [skos] "https://example.org/catalog//"
  = write_ttl [skos] "https://example.org/catalog"
  /\ BASE "https://example.org/catalog//" = "https://example.org/catalog/".
Proof.
  destruct (base_iri_trailing_slashes [skos] "https://example.org/catalog" "//")
    as (Hgraph & Hbase & _); [reflexivity|].
  split; [exact Hgraph | exact Hbase].
Defined.

(** *** The triples of a resource *)

Lemma elem_of_when_given (t : triple) (o : option string)
    (f : string -> triple) :
  t ∈ when_given o f <-> exists s, o = Some s /\ s <> "" /\ t = f s.
Proof.
  unfold when_given, truthy. destruct o as [s|].
  - destruct (String.eqb_spec s "") as [-> | Hne]; cbn [negb].
    + rewrite elem_of_nil. split; [done|]. by intros (s & [= <-] & Hne & _).
    + rewrite list_elem_of_singleton. split.
      * intros ->. by exists s.
      * by intros (s' & [= <-] & _ & ->).
  - rewrite elem_of_nil. split; [done|]. by intros (s & [=] & _).
Qed.

Lemma elem_of_concat {A : Type} (x : A) (ls : list (list A)) :
  x ∈ concat ls <-> exists l, l ∈ ls /\ x ∈ l.
Proof.
  induction ls as [|l ls IH]; cbn [concat].
  - rewrite elem_of_nil. split; [done|]. intros (l & Hl & _).
    by apply elem_of_nil in Hl.
  - rewrite elem_of_app, IH. split.
    + intros [Hx | (l' & Hl' & Hx)].
      * exists l. split; [apply list_elem_of_here | done].
      * exists l'. split; [by apply list_elem_of_further | done].
    + intros (l' & Hl' & Hx). apply elem_of_cons in Hl' as [-> | Hl'].
      * by left.
      * right. by exists l'.
Qed.

(** The triples of one distribution. *)
Lemma elem_of_distribution_triples (b : string) (r : Resource) (k : nat)
    (d : Distribution) (t : triple) :
  t ∈ distribution_triples b r k d <->
  t = (distribution_node b r (S k), term_of RDF "type",
       term_of DCAT "Distribution")
  \/ t = (subject b r, term_of DCAT "distribution",
          distribution_node b r (S k))
  \/ (exists u, download_url d = Some u /\ u <> ""
        /\ t = (distribution_node b r (S k), term_of DCAT "downloadURL",
                URIRef u))
  \/ (exists m, media_type d = Some m /\ m <> ""
        /\ t = (distribution_node b r (S k), term_of DCAT "mediaType",
                Literal m))
  \/ (exists f, format d = Some f /\ f <> ""
        /\ t = (distribution_node b r (S k), term_of DCTERMS "format",
                Literal f)).
Proof.
  unfold distribution_triples. cbv zeta.
  rewrite !elem_of_app, !elem_of_cons, elem_of_nil, !elem_of_when_given.
  tauto.
Qed.

(** The triples of one resource, by the statement that adds them. *)
Lemma elem_of_resource_triples (b : string) (r : Resource) (t : triple) :
  t ∈ resource_triples b r <->
  (kind r = "reference-dataset"
   /\ t = (subject b r, term_of RDF "type", term_of DCAT "Dataset"))
  \/ (kind r <> "reference-dataset"
      /\ t = (subject b r, term_of RDF "type", term_of DCAT "Resource"))
  \/ (kind r = "ontology"
      /\ t = (subject b r, term_of RDF "type", term_of OWL "Ontology"))
  \/ ((kind r = "taxonomy" \/ kind r = "vocabulary")
      /\ t = (subject b r, term_of RDF "type", term_of SKOS "ConceptScheme"))
  \/ t = (subject b r, term_of DCTERMS "identifier", Literal (BuildCatalog.id r))
  \/ t = (subject b r, term_of DCTERMS "title", Literal (name r))
  \/ (exists s, description r = Some s /\ s <> ""
        /\ t = (subject b r, term_of DCTERMS "description", Literal s))
  \/ (exists s, publisher r = Some s /\ s <> ""
        /\ t = (subject b r, term_of DCTERMS "publisher", Literal s))
  \/ (exists s, homepage r = Some s /\ s <> ""
        /\ t = (subject b r, term_of DCAT "landingPage", URIRef s))
  \/ (exists s, license_url r = Some s /\ s <> ""
        /\ t = (subject b r, term_of DCTERMS "license", URIRef s))
  \/ (truthy (license_url r) = false
      /\ exists s, license_name r = Some s /\ s <> ""
           /\ t = (subject b r, term_of DCTERMS "license", Literal s))
  \/ (exists s, domain r = Some s /\ s <> ""
        /\ t = (subject b r, term_of DCAT "theme", Literal s))
  \/ (exists f, free r = Some f
        /\ t = (subject b r, FREE b, Literal_boolean f))
  \/ t = (catalog b, term_of DCAT "dataset", subject b r)
  \/ (exists k d, distributions r !! k = Some d
        /\ t ∈ distribution_triples b r k d).
Proof.
  unfold resource_triples. cbv zeta.
  rewrite !elem_of_app, !elem_of_cons, !elem_of_nil.
  assert (t ∈ concat (imap (distribution_triples b r) (distributions r))
          <-> exists k d, distributions r !! k = Some d
                /\ t ∈ distribution_triples b r k d) as ->.
  { rewrite elem_of_concat. split.
    - intros (l & Hl & Ht). apply elem_of_lookup_imap in Hl as (k & d & -> & Hd).
      by exists k, d.
    - intros (k & d & Hd & Ht). exists (distribution_triples b r k d).
      split; [|done]. apply elem_of_lookup_imap. by exists k, d. }
  assert (t ∈ match free r with
              | Some f => [(subject b r, FREE b, Literal_boolean f)]
              | None => []
              end
          <-> exists f, free r = Some f
                /\ t = (subject b r, FREE b, Literal_boolean f)) as ->.
  { destruct (free r) as [f|].
    - rewrite list_elem_of_singleton. split.
      + intros ->. by exists f.
      + by intros (f' & [= <-] & ->).
    - rewrite elem_of_nil. split; [done|]. by intros (f & [=] & _). }
  assert (t ∈ (if truthy (license_url r)
               then when_given (license_url r)
                      (fun s => (subject b r, term_of DCTERMS "license", URIRef s))
               else when_given (license_name r)
                      (fun s => (subject b r, term_of DCTERMS "license", Literal s)))
          <-> (exists s, license_url r = Some s /\ s <> ""
                 /\ t = (subject b r, term_of DCTERMS "license", URIRef s))
              \/ (truthy (license_url r) = false
                  /\ exists s, license_name r = Some s /\ s <> ""
                       /\ t = (subject b r, term_of DCTERMS "license", Literal s)))
    as ->.
  { destruct (truthy (license_url r)) eqn:Eurl; rewrite elem_of_when_given.
    - split; [by left|]. by intros [? | [[=] _]].
    - split; [by right|]. intros [(s & Hs & Hne & _) | [_ ?]]; [|done].
      rewrite Hs in Eurl. cbn in Eurl.
      by destruct (String.eqb_spec s ""). }
  rewrite !elem_of_when_given.
  destruct (String.eqb_spec (kind r) "reference-dataset") as [Eds | Eds];
    destruct (String.eqb_spec (kind r) "ontology") as [Eon | Eon];
    destruct (String.eqb_spec (kind r) "taxonomy") as [Etx | Etx];
    destruct (String.eqb_spec (kind r) "vocabulary") as [Evc | Evc];
    cbn [orb]; rewrite ?elem_of_cons, ?elem_of_nil; try congruence; tauto.
Qed.

Lemma elem_of_write_ttl (resources : list Resource) (b : string) (t : triple) :
  t ∈ write_ttl resources b <->
  t = (catalog b, term_of RDF "type", term_of DCAT "Catalog")
  \/ t = (catalog b, term_of DCTERMS "title",
          Literal "Open Knowledge Graph Resources Catalog")
  \/ t = (catalog b, term_of DCTERMS "description",
          Literal "A community-maintained catalog of open ontologies, taxonomies, vocabularies, and reference datasets.")
  \/ exists r, r ∈ resources /\ t ∈ resource_triples b r.
Proof.
  unfold write_ttl. rewrite elem_of_app, !elem_of_cons, elem_of_nil, elem_of_concat.
  assert ((exists l, l ∈ map (resource_triples b) resources /\ t ∈ l)
          <-> exists r, r ∈ resources /\ t ∈ resource_triples b r) as ->; [|tauto].
  split.
  - intros (l & Hl & Ht). apply list_elem_of_fmap in Hl as (r & -> & Hr).
    by exists r.
  - intros (r & Hr & Ht). exists (resource_triples b r). split; [|done].
    apply list_elem_of_fmap. by exists r.
Qed.

(** *** Telling the nodes and the properties apart *)

Lemma ends_with_append (a s : string) : ends_with s (a +:+ s) = true.
Proof.
  induction a as [|x a IH].
  - change ("" +:+ s) with s. destruct s; cbn [ends_with];
      by rewrite String.eqb_refl.
  - rewrite append_String. cbn [ends_with]. rewrite IH. apply orb_true_r.
Qed.

(** The property [prop/free] of the base is none of the vocabularies'. *)
Lemma FREE_is_no_term (b p : string) :
  ends_with "prop/free" p = false -> URIRef p = FREE b -> False.
Proof.
  intros Hp [= ->]. by rewrite ends_with_append in Hp.
Qed.

Lemma node_is_no_subject (b : string) (r : Resource) (i : nat) :
  distribution_node b r i = subject b r -> False.
Proof.
  unfold distribution_node, subject, term_of. intros [= H].
  apply append_inv_head in H. discriminate H.
Qed.

Lemma subject_inj (b : string) (r r' : Resource) :
  subject b r = subject b r' -> BuildCatalog.id r = BuildCatalog.id r'.
Proof.
  unfold subject, term_of. intros [= H].
  by do 2 apply append_inv_head in H.
Qed.

Lemma distribution_node_inj (b : string) (r : Resource) (i j : nat) :
  distribution_node b r i = distribution_node b r j -> i = j.
Proof.
  unfold distribution_node, term_of, decimal. intros [= H].
  do 4 apply append_inv_head in H.
  apply (inj pretty) in H. by apply Nat2Z.inj.
Qed.

Ltac wrong_predicate H :=
  apply (f_equal (fun t : triple => snd (fst t))) in H; cbn [fst snd] in H;
  solve [ vm_compute in H; discriminate H
        | exfalso; eapply FREE_is_no_term; [|exact H]; reflexivity
        | exfalso; symmetry in H; eapply FREE_is_no_term; [|exact H];
          reflexivity ].

Ltac cases H :=
  repeat match type of H with
         | _ \/ _ => destruct H as [H | H]
         end.

Ltac unpack :=
  repeat match goal with
         | H : _ /\ _ |- _ => destruct H
         | H : exists _, _ |- _ => destruct H
         end.

(** X14: the classes of a resource follow its kind alone. A reference
    dataset is a [dcat:Dataset] and every other resource a
    [dcat:Resource], never both; an ontology is an [owl:Ontology] as
    well, a taxonomy and a vocabulary a [skos:ConceptScheme]; a schema has
    no class of its own. *)
Theorem resource_classes_by_kind (b : string) (r : Resource) (o : term) :
  (subject b r, term_of RDF "type", o) ∈ resource_triples b r <->
  (kind r = "reference-dataset" /\ o = term_of DCAT "Dataset")
  \/ (kind r <> "reference-dataset" /\ o = term_of DCAT "Resource")
  \/ (kind r = "ontology" /\ o = term_of OWL "Ontology")
  \/ ((kind r = "taxonomy" \/ kind r = "vocabulary")
      /\ o = term_of SKOS "ConceptScheme").
Proof.
  split.
  - intros H. apply elem_of_resource_triples in H.
    destruct H as [H|[H|[H|[H|H]]]].
    1-4: destruct H as [Hk [= ->]]; tauto.
    cases H; unpack;
      try match goal with
          | H : _ ∈ distribution_triples _ _ _ _ |- _ =>
              apply elem_of_distribution_triples in H; cases H; unpack
          end;
      match goal with
      | H : (_, _, _) = (_, _, _) |- _ =>
          first [ wrong_predicate H
                | apply (f_equal (fun t : triple => fst (fst t))) in H;
                  cbn [fst] in H; symmetry in H;
                  by apply node_is_no_subject in H ]
      end.
  - intros H. apply elem_of_resource_triples.
    destruct H as [[Hk ->]|[[Hk ->]|[[Hk ->]|[Hk ->]]]]; tauto.
Qed.

Lemma resource_classes_by_kind_witness :
  (subject "https://example.org" skos, term_of RDF "type",
   term_of SKOS "ConceptScheme") ∈ resource_triples "https://example.org" skos.
Proof.
  apply (resource_classes_by_kind "https://example.org" skos).
  do 3 right. split; [by right | reflexivity].
Defined.

(** X15: a resource has at most one license in the graph: the IRI of its
    [license_url] when that is given, and only without one the text of its
    [license_name]. *)
Theorem license_url_before_name (b : string) (r : Resource) :
  (forall o : term,
     (subject b r, term_of DCTERMS "license", o) ∈ resource_triples b r <->
     (exists u, license_url r = Some u /\ u <> "" /\ o = URIRef u)
     \/ ((license_url r = None \/ license_url r = Some "")
         /\ exists n, license_name r = Some n /\ n <> "" /\ o = Literal n))
  /\ (forall o o' : term,
        (subject b r, term_of DCTERMS "license", o) ∈ resource_triples b r ->
        (subject b r, term_of DCTERMS "license", o') ∈ resource_triples b r ->
        o = o').
Proof.
  assert (forall o : term,
     (subject b r, term_of DCTERMS "license", o) ∈ resource_triples b r <->
     (exists u, license_url r = Some u /\ u <> "" /\ o = URIRef u)
     \/ ((license_url r = None \/ license_url r = Some "")
         /\ exists n, license_name r = Some n /\ n <> "" /\ o = Literal n))
    as Hlicense.
  { intros o. split.
    - intros H. apply elem_of_resource_triples in H.
      cases H; unpack;
        try match goal with
            | H : _ ∈ distribution_triples _ _ _ _ |- _ =>
                apply elem_of_distribution_triples in H; cases H; unpack
            end;
        match goal with
        | H : (_, _, _) = (_, _, _) |- _ =>
            first [ wrong_predicate H | injection H as -> ]
        end.
      + left. eauto.
      + right. split; [|eauto].
        match goal with H : truthy _ = false |- _ => rename H into Hfalse end.
        destruct (license_url r) as [u|]; [|by left]. right.
        cbn in Hfalse. destruct (String.eqb_spec u ""); [by subst | done].
    - intros H. apply elem_of_resource_triples.
      do 9 right. destruct H as [(u & Hu & Hne & ->) | (Hnone & n & Hn & Hne & ->)].
      + left. by exists u.
      + right. left. split; [|by exists n].
        by destruct Hnone as [-> | ->]. }
  split; [exact Hlicense|].
  intros o o' Ho Ho'. apply Hlicense in Ho, Ho'.
  destruct Ho as [(u & Hu & Hne & ->) | (Hnone & n & Hn & _ & ->)];
    destruct Ho' as [(u' & Hu' & Hne' & ->) | (Hnone' & n' & Hn' & _ & ->)].
  - congruence.
  - destruct Hnone' as [? | ?]; congruence.
  - destruct Hnone as [? | ?]; congruence.
  - congruence.
Qed.

Lemma license_url_before_name_witness :
  (subject "https://example.org" skos, term_of DCTERMS "license",
   URIRef "https://www.w3.org/Consortium/Legal/copyright-software")
    ∈ resource_triples "https://example.org" skos
  /\ (subject "https://example.org" skos, term_of DCTERMS "license",
      Literal "W3C Software Notice and License")
       ∉ resource_triples "https://example.org" skos.
Proof.
  destruct (license_url_before_name "https://example.org" skos)
    as [Hlicense Honce].
  assert ((subject "https://example.org" skos, term_of DCTERMS "license",
           URIRef "https://www.w3.org/Consortium/Legal/copyright-software")
            ∈ resource_triples "https://example.org" skos) as Hurl.
  { apply Hlicense. left. eexists. split; [reflexivity|]. split; [|reflexivity].
    discriminate. }
  split; [exact Hurl|]. intros Hname.
  discriminate (Honce _ _ Hurl Hname).
Defined.

Ltac triples H :=
  apply elem_of_resource_triples in H; cases H; unpack;
  try match goal with
      | H' : _ ∈ distribution_triples _ _ _ _ |- _ =>
          apply elem_of_distribution_triples in H'; cases H'; unpack
      end.

Ltac object H :=
  apply (f_equal (fun t : triple => snd t)) in H; cbn [snd] in H.

Ltac node H :=
  apply (f_equal (fun t : triple => fst (fst t))) in H; cbn [fst] in H.

(** X16: the catalog lists every resource, whatever its kind, and nothing
    else, under [dcat:dataset]; two resources are one node of the graph
    exactly when they have the same [id]. *)
Theorem catalog_lists_every_resource (resources : list Resource) (b : string) :
  (forall o : term,
     (catalog b, term_of DCAT "dataset", o) ∈ write_ttl resources b
     <-> exists r, r ∈ resources /\ o = subject b r)
  /\ (forall r r' : Resource,
        subject b r = subject b r' <-> BuildCatalog.id r = BuildCatalog.id r').
Proof.
  split.
  - intros o. rewrite elem_of_write_ttl. split.
    + intros [H|[H|[H|(r & Hr & H)]]]; [wrong_predicate H..|].
      exists r. split; [done|].
      triples H;
        match goal with
        | H : (_, _, _) = (_, _, _) |- _ =>
            first [ wrong_predicate H | by object H ]
        end.
    + intros (r & Hr & ->). do 3 right. exists r. split; [done|].
      apply elem_of_resource_triples. do 13 right. by left.
  - intros r r'. split; [apply subject_inj|].
    unfold subject. by intros ->.
Qed.

Lemma catalog_lists_every_resource_witness :
  (catalog "https://example.org", term_of DCAT "dataset",
   URIRef "https://example.org/resource/skos")
    ∈ write_ttl [skos] "https://example.org".
Proof.
  destruct (catalog_lists_every_resource [skos] "https://example.org")
    as (Hlisted & _).
  apply Hlisted. exists skos. split; [apply list_elem_of_here | reflexivity].
Defined.

(** X17: the distributions of a resource are numbered from 1 in the order
    of its list: the resource has one [dcat:distribution] for each, the
    nodes are distinct, each is a [dcat:Distribution], and the node
    numbered [k + 1] carries the download URL of the distribution at
    position [k], when that has one. *)
Theorem distributions_numbered_from_one (b : string) (r : Resource) :
  (forall o : term,
     (subject b r, term_of DCAT "distribution", o) ∈ resource_triples b r
     <-> exists k : nat,
           (k < length (distributions r))%nat
           /\ o = distribution_node b r (S k))
  /\ (forall k : nat,
        (k < length (distributions r))%nat ->
        (distribution_node b r (S k), term_of RDF "type",
         term_of DCAT "Distribution") ∈ resource_triples b r)
  /\ (forall i j : nat,
        distribution_node b r i = distribution_node b r j -> i = j)
  /\ (forall (k : nat) (o : term),
        (distribution_node b r (S k), term_of DCAT "downloadURL", o)
          ∈ resource_triples b r
        <-> exists d u,
              distributions r !! k = Some d /\ download_url d = Some u
              /\ u <> "" /\ o = URIRef u).
Proof.
  split; [|split; [|split]].
  - intros o. split.
    + intros H. triples H;
        match goal with
        | H : (_, _, _) = (_, _, _) |- _ =>
            first [ wrong_predicate H | object H ]
        end.
      match goal with
      | Hk : distributions r !! ?k = Some _ |- _ =>
          exists k; split; [by apply lookup_lt_Some in Hk | done]
      end.
    + intros (k & Hk & ->). apply lookup_lt_is_Some_2 in Hk as [d Hd].
      apply elem_of_resource_triples. do 14 right. exists k, d.
      split; [done|]. apply elem_of_distribution_triples. right. by left.
  - intros k Hk. apply lookup_lt_is_Some_2 in Hk as [d Hd].
    apply elem_of_resource_triples. do 14 right. exists k, d.
    split; [done|]. apply elem_of_distribution_triples. by left.
  - apply distribution_node_inj.
  - intros k o. split.
    + intros H. triples H;
        match goal with
        | H : (_, _, _) = (_, _, _) |- _ =>
            first [ wrong_predicate H | pose proof H as Hnode; node Hnode ]
        end.
      apply distribution_node_inj in Hnode. injection Hnode as ->.
      match goal with
      | H : (_, _, _) = (_, _, _) |- _ => object H
      end.
      eauto 10.
    + intros (d & u & Hd & Hu & Hne & ->).
      apply elem_of_resource_triples. do 14 right. exists k, d.
      split; [done|]. apply elem_of_distribution_triples.
      do 2 right. left. by exists u.
Qed.

Lemma distributions_numbered_from_one_witness :
  (subject "https://example.org" skos, term_of DCAT "distribution",
   URIRef "https://example.org/distribution/skos/2")
    ∈ resource_triples "https://example.org" skos
  /\ (URIRef "https://example.org/distribution/skos/1",
      term_of DCAT "downloadURL",
      URIRef "http://www.w3.org/2004/02/skos/core.rdf")
       ∈ resource_triples "https://example.org" skos.
Proof.
  destruct (distributions_numbered_from_one "https://example.org" skos)
    as (Hlinks & _ & _ & Hurl).
  split.
  - apply Hlinks. exists 1%nat. split; [cbn; lia | reflexivity].
  - apply (Hurl 0%nat). eexists _, _.
    split; [reflexivity|]. split; [reflexivity|]. split; [discriminate|].
    reflexivity.
Defined.

(** X18: whether a resource is free is written whenever it is known, also
    when it is not free: the one field of which a false value is kept. *)
Theorem free_written_when_known (b : string) (r : Resource) (o : term) :
  (subject b r, FREE b, o) ∈ resource_triples b r
  <-> exists f : bool, free r = Some f /\ o = Literal_boolean f.
Proof.
  split.
  - intros H. triples H;
      match goal with
      | H : (_, _, _) = (_, _, _) |- _ =>
          first [ wrong_predicate H | object H ]
      end.
    eauto.
  - intros (f & Hf & ->). apply elem_of_resource_triples.
    do 12 right. left. by exists f.
Qed.

Lemma free_written_when_known_witness :
  (subject "https://example.org" skos, FREE "https://example.org",
   Literal_boolean true) ∈ resource_triples "https://example.org" skos.
Proof.
  apply (free_written_when_known "https://example.org" skos).
  by exists true.
Defined.

(** *** Empty texts *)

Lemma truthy_nonempty (o : option string) : truthy (nonempty o) = truthy o.
Proof. unfold nonempty. by destruct (truthy o) eqn:E. Qed.

Lemma when_given_nonempty (o : option string) (f : string -> triple) :
  when_given (nonempty o) f = when_given o f.
Proof.
  unfold when_given. rewrite truthy_nonempty. unfold nonempty.
  by destruct (truthy o).
Qed.

Lemma or_empty_nonempty (o : option string) :
  or_empty (nonempty o) = or_empty o.
Proof.
  unfold or_empty. rewrite truthy_nonempty. unfold nonempty.
  by destruct (truthy o).
Qed.

Lemma formats_of_without_blanks (r : Resource) :
  formats_of (without_blanks r) = formats_of r.
Proof.
  unfold formats_of. cbn [distributions without_blanks].
  induction (distributions r) as [|d ds IH]; [done|].
  cbn [map omap list_omap format distribution_without_blanks].
  rewrite truthy_nonempty, IH. unfold nonempty.
  by destruct (truthy (format d)).
Qed.

Lemma resource_triples_without_blanks (b : string) (r : Resource) :
  resource_triples b (without_blanks r) = resource_triples b r.
Proof.
  unfold resource_triples. cbv zeta.
  change (subject b (without_blanks r)) with (subject b r).
  cbn [kind name BuildCatalog.id description publisher homepage license_url
       license_name domain free distributions without_blanks].
  rewrite !when_given_nonempty, truthy_nonempty.
  do 12 f_equal.
  change (map distribution_without_blanks (distributions r))
    with (distribution_without_blanks <$> distributions r).
  rewrite imap_fmap. apply imap_ext. intros k d _.
  unfold distribution_triples. cbv zeta.
  change (subject b (without_blanks r)) with (subject b r).
  change (distribution_node b (without_blanks r) (S k))
    with (distribution_node b r (S k)).
  cbn [compose download_url media_type format distribution_without_blanks].
  by rewrite !when_given_nonempty.
Qed.

(** X19: an optional text that is empty is the same as one not given, in
    the graph and in the CSV row, for every field of a resource and of its
    distributions. *)
Theorem empty_text_is_no_text (resources : list Resource) (b : string) :
  write_ttl (map without_blanks resources) b = write_ttl resources b
  /\ (forall r : Resource, csv_row (without_blanks r) = csv_row r).
Proof.
  split.
  - unfold write_ttl. do 2 f_equal. rewrite List.map_map.
    apply List.map_ext. apply resource_triples_without_blanks.
  - intros r. unfold csv_row, summarize_formats.
    rewrite formats_of_without_blanks.
    cbn [kind name BuildCatalog.id publisher homepage license_url
         license_name domain free without_blanks].
    by rewrite !or_empty_nonempty.
Qed.

End TurtleSpec.

(** * The rest of the script *)

Module AppSpec.
Import Py App Stated Samples SortSpec.

(** *** One request *)

(** X20: an answer that is not a 429 ends the run at once: one request, no
    sleep and no second try, also for the server errors from 500 on. A
    status from 400 to 599 raises the HTTP error of that status, any other
    status gives the decoded body, or the decoding error of a body that is
    not JSON; an exception of the transport goes through as it is. *)
Theorem run_wdqs_without_retry (query : string) (srv : remote) :
  let rq := wdqs_request query in
  let out := run_wdqs query srv [] in
  (forall e : exn, srv 0%nat rq = Fails e -> out = (Raise e, [Get rq]))
  /\ (forall r : Response,
        srv 0%nat rq = Answers r ->
        status_code r <> 429 ->
        snd out = [Get rq]
        /\ (400 <= status_code r < 600 ->
            fst out = Raise (HTTPError (status_code r)))
        /\ (status_code r < 400 \/ 600 <= status_code r ->
            fst out = json r /\
            (body r = None -> fst out = Raise JSONDecodeError))).
Proof.
  cbv zeta. rewrite TransportSpec.run_wdqs_cases. cbv zeta.
  cbn [requests_made List.filter length app]. split.
  - by intros e ->.
  - intros r -> Hst. destruct (Z.eqb_spec (status_code r) 429); [done|].
    cbn [fst snd]. split; [done|]. unfold raise_for_status. split.
    + intros [Hlo Hhi].
      destruct (Z.leb_spec 400 (status_code r)); [|lia].
      destruct (Z.ltb_spec (status_code r) 600); [|lia]. done.
    + intros Hout.
      assert ((400 <=? status_code r) && (status_code r <? 600) = false) as ->.
      { destruct (Z.leb_spec 400 (status_code r));
          destruct (Z.ltb_spec (status_code r) 600); (done || lia). }
      split; [done|]. intros Hbody. cbn. unfold json. by rewrite Hbody.
Qed.

Lemma run_wdqs_without_retry_witness :
  run_wdqs "q"
    (up_an_hour (fun _ _ => Answers (response 503 [("retry-after", "2")] [])))
    []
  = (Raise (HTTPError 503), [Get (wdqs_request "q")]).
Proof.
  destruct (run_wdqs_without_retry "q"
              (up_an_hour
                 (fun _ _ => Answers (response 503 [("retry-after", "2")] []))))
    as [_ Hanswer].
  destruct (Hanswer (response 503 [("retry-after", "2")] []))
    as (Htrace & Herror & _); [reflexivity | discriminate |].
  cbn [status_code response] in Herror.
  rewrite (surjective_pairing (run_wdqs _ _ _)), Htrace, Herror; [done | lia].
Defined.

(** X21: a run sleeps at most once, and only between a 429 and the second
    request: for the wait read from that answer, which is then a duration
    that [time.sleep] takes. Every request of a run is the same one. *)
Theorem run_wdqs_sleeps_only_when_busy (query : string) (srv : remote) :
  let rq := wdqs_request query in
  let trace := snd (run_wdqs query srv []) in
  (suspensions trace <= 1)%nat
  /\ (forall secs : Z,
        Sleep secs ∈ trace ->
        0 <= secs <= SLEEP_MAX
        /\ trace = [Get rq; Sleep secs; Get rq]
        /\ exists r : Response,
             srv 0%nat rq = Answers r /\ status_code r = 429
             /\ retry_after r = Return secs)
  /\ (forall rq' : Request, Get rq' ∈ trace -> rq' = rq).
Proof.
  cbv zeta. rewrite TransportSpec.run_wdqs_cases. cbv zeta.
  cbn [requests_made List.filter length app].
  assert (forall secs : Z, Sleep secs ∈ [Get (wdqs_request query)] -> False)
    as Hnone.
  { intros secs H. apply list_elem_of_singleton in H. discriminate H. }
  assert (forall rq' : Request,
            Get rq' ∈ [Get (wdqs_request query)] -> rq' = wdqs_request query)
    as Hone.
  { intros rq' H. apply list_elem_of_singleton in H. by injection H. }
  destruct (srv 0%nat _) as [r|e] eqn:Hsrv; cbn [snd];
    [|split; [cbn; lia | split; [intros ? Hin; by apply Hnone in Hin | done]]].
  destruct (Z.eqb_spec (status_code r) 429) as [Hst|Hst]; cbn [snd];
    [|split; [cbn; lia | split; [intros ? Hin; by apply Hnone in Hin | done]]].
  destruct (retry_after r) as [secs|e] eqn:Hwait; cbn [snd];
    [|split; [cbn; lia | split; [intros ? Hin; by apply Hnone in Hin | done]]].
  destruct (Z.ltb_spec secs 0); cbn [snd];
    [split; [cbn; lia | split; [intros ? Hin; by apply Hnone in Hin | done]]|].
  destruct (Z.ltb_spec SLEEP_MAX secs); cbn [snd];
    [split; [cbn; lia | split; [intros ? Hin; by apply Hnone in Hin | done]]|].
  destruct (Z.ltb_spec PyTime_MAX (monotonic srv + secs * 1000000000));
    cbn [snd];
    [split; [cbn; lia | split; [intros ? Hin; by apply Hnone in Hin | done]]|].
  cbn [app requests_made List.filter length is_get].
  destruct (srv 1%nat _) as [r2|e2]; cbn [snd app];
    (split; [cbn; lia|]; split;
     [ intros secs' Hin; rewrite !elem_of_cons, elem_of_nil in Hin;
       destruct Hin as [[=] | [[= ->] | [[=] | []]]];
       split; [lia|]; split; [done|]; by exists r
     | intros rq' Hin; rewrite !elem_of_cons, elem_of_nil in Hin;
       by destruct Hin as [[= ->] | [[=] | [[= ->] | []]]] ]).
Qed.

Lemma run_wdqs_sleeps_only_when_busy_witness :
  snd (run_wdqs "q" (busy_once []) [])
  = [Get (wdqs_request "q"); Sleep 2; Get (wdqs_request "q")]
  /\ suspensions (snd (run_wdqs "q" (ready []) [])) = 0%nat.
Proof.
  destruct (run_wdqs_sleeps_only_when_busy "q" (busy_once []))
    as (_ & Hsleep & _).
  destruct (Hsleep 2) as (_ & Htrace & _).
  - vm_compute. apply list_elem_of_further, list_elem_of_here.
  - split; [exact Htrace | reflexivity].
Defined.

(** *** From the answer to the rows *)

Lemma for_each_Forall2 {A B} (f : A -> result B) (l : list A) (ys : list B) :
  for_each f l = Return ys -> Forall2 (fun x y => f x = Return y) l ys.
Proof.
  revert ys. induction l as [|x l IH]; intros ys; cbn.
  - intros [= <-]. constructor.
  - unfold mbind, result_bind. destruct (f x) as [y|] eqn:Ey; [|done].
    destruct (for_each f l) as [ys'|]; [|done].
    intros [= <-]. constructor; [done | by apply IH].
Qed.

Lemma query_to_df_cases (query : string) (srv : remote) (trace : list event) :
  query_to_df query srv trace =
  match run_wdqs query srv trace with
  | (Raise e, trace') => (Raise e, trace')
  | (Return data, trace') =>
      match data !! "results" with
      | None => (Raise (KeyError "results"), trace')
      | Some results =>
          match results !! "bindings" with
          | None => (Raise (KeyError "bindings"), trace')
          | Some bindings => (for_each row_of bindings, trace')
          end
      end
  end.
Proof.
  unfold query_to_df, mbind, IO_bind, lift, getitem.
  destruct (run_wdqs query srv trace) as [[data|e] trace']; [|done].
  destruct (data !! "results") as [results|]; [|done].
  by destruct (results !! "bindings").
Qed.

(** X22: [query_to_df] sends nothing of its own: its requests and sleeps
    are those of [run_wdqs], whose exception it passes on. A decoded answer
    without [results], or without [bindings] in them, is a [KeyError] of
    that name; the rows returned are those of the bindings, one for each
    and in their order. *)
Theorem query_to_df_follows_run_wdqs (query : string) (srv : remote) :
  let run := run_wdqs query srv [] in
  let out := query_to_df query srv [] in
  snd out = snd run
  /\ (forall e : exn, fst run = Raise e -> fst out = Raise e)
  /\ (forall data : Data,
        fst run = Return data ->
        (data !! "results" = None -> fst out = Raise (KeyError "results"))
        /\ (forall results,
              data !! "results" = Some results ->
              results !! "bindings" = None ->
              fst out = Raise (KeyError "bindings")))
  /\ (forall rows : list Row,
        fst out = Return rows ->
        exists (data : Data) results (bindings : list Binding),
          fst run = Return data
          /\ data !! "results" = Some results
          /\ results !! "bindings" = Some bindings
          /\ Forall2 (fun b row => row_of b = Return row) bindings rows).
Proof.
  cbv zeta. rewrite query_to_df_cases.
  destruct (run_wdqs query srv []) as [[data|e] trace]; cbn [fst snd].
  - split; [|split; [done|split]].
    + destruct (data !! "results") as [results|]; [|done].
      by destruct (results !! "bindings").
    + intros ? [= <-]. split.
      * by intros ->.
      * by intros results -> ->.
    + intros rows. destruct (data !! "results") as [results|] eqn:Hres; [|done].
      destruct (results !! "bindings") as [bindings|] eqn:Hbind; [|done].
      cbn [fst]. intros Hrows. exists data, results, bindings.
      split; [done|]. split; [done|]. split; [done|].
      by apply for_each_Forall2.
  - split; [done|]. split; [by intros ? [= ->]|]. split; [done|]. done.
Qed.

Lemma query_to_df_follows_run_wdqs_witness :
  snd (query_to_df "q" (busy_once []) [])
  = [Get (wdqs_request "q"); Sleep 2; Get (wdqs_request "q")]
  /\ fst (query_to_df "q" always_busy []) = Raise (HTTPError 429).
Proof.
  split.
  - destruct (query_to_df_follows_run_wdqs "q" (busy_once []))
      as (Htrace & _).
    rewrite Htrace. reflexivity.
  - destruct (query_to_df_follows_run_wdqs "q" always_busy)
      as (_ & Hraise & _).
    apply Hraise. reflexivity.
Defined.

(** *** The script as a whole *)

Section Script.

Variable to_datetime : list string -> nat -> datetime.

Lemma script_cases (RESOURCE_KIND : string) (LIMIT : Z) (srv : remote)
    (trace : list event) :
  script to_datetime RESOURCE_KIND LIMIT srv trace =
  match query_to_df (query RESOURCE_KIND LIMIT) srv trace with
  | (Raise e, trace') => (Raise e, trace')
  | (Return [], trace') => (Raise (KeyError "Official websites"), trace')
  | (Return rows, trace') =>
      (Return
         (if is_software RESOURCE_KIND
          then SoftwareView (software_view to_datetime (imap derive rows))
          else OntologyView (ontology_view (imap derive rows))),
       trace')
  end.
Proof.
  unfold script, mbind, IO_bind, lift, mret, IO_ret.
  destruct (query_to_df _ srv trace) as [[[|row rows]|e] trace']; done.
Qed.


(** X23: a query that matches nothing stops the script. With no row the
    frame has no column, and reading [Official websites] from it is a
    [KeyError]: no empty table is ever shown, and a table that is shown
    has a row. *)
Theorem script_needs_a_row (RESOURCE_KIND : string) (LIMIT : Z)
    (srv : remote) :
  let rows := query_to_df (query RESOURCE_KIND LIMIT) srv [] in
  let out := script to_datetime RESOURCE_KIND LIMIT srv [] in
  (fst rows = Return [] -> fst out = Raise (KeyError "Official websites"))
  /\ (forall view : View,
        fst out = Return view ->
        exists (row : Row) (others : list Row),
          fst rows = Return (row :: others)
          /\ match view with
             | SoftwareView t => length (records t) = S (length others)
             | OntologyView t => length (records t) = S (length others)
             end)
  /\ snd out = snd rows.
Proof.
  cbv zeta. rewrite script_cases.
  destruct (query_to_df _ srv []) as [[[|row rows]|e] trace]; cbn [fst snd].
  - split; [done|]. split; [done|]. done.
  - split; [done|]. split; [|done]. intros view [= <-].
    exists row, rows. split; [done|].
    destruct (is_software RESOURCE_KIND); cbn [records software_view
      ontology_view drop select].
    + unfold software_sorted.
      rewrite SortSpec.sort_values_perm. unfold parse_latest_release.
      rewrite length_imap. cbn [length]. by rewrite length_imap.
    + unfold ontology_sorted.
      rewrite SortSpec.sort_values_perm. cbn [length]. by rewrite length_imap.
  - split; [done|]. split; [done|]. done.
Qed.


End Script.

Lemma script_needs_a_row_witness :
  fst (script iso_to_datetime "Software (semantic / KG tools)" 500
         (ready []) [])
  = Raise (KeyError "Official websites").
Proof.
  destruct (script_needs_a_row iso_to_datetime
              "Software (semantic / KG tools)" 500 (ready []))
    as (Hnone & _).
  apply Hnone. reflexivity.
Defined.


(** *** The order of the other table *)

(** X25: the table of ontologies and vocabularies holds the rows of the
    frame, rearranged so that of any two rows the upper one has a website
    when the lower one has, then a license when the lower one has, then
    the name that comes first; the release date plays no part. Of two rows
    where only the second has a website, the second comes out on top. *)
Theorem ontology_sort_order (rows : list Row) :
  let df := imap derive rows in
  let out := ontology_sorted df in
  out ≡ₚ df
  /\ (forall (i j : nat) (r s : Rec string),
        (i < j)%nat -> out !! i = Some r -> out !! j = Some s ->
        ontology_order r s
        /\ (Has_website s = true -> Has_website r = true))
  /\ (forall a b : Row,
        rows = [a; b] ->
        nonblank (row_Official_websites a) = false ->
        nonblank (row_Official_websites b) = true ->
        map Item out = [row_Item b; row_Item a]).
Proof.
  cbv zeta. split; [apply SortSpec.sort_values_perm|]. split.
  - intros i j r s Hij Hr Hs.
    assert (ontology_order r s) as Hord.
    { apply SortSpec.before_tie_order.
      apply (SortSpec.settled_before ontology_keys).
      apply (SortSpec.StronglySorted_lookup _ _ i j r s
               (SortSpec.sort_values_settled _ _ _
                  (SortSpec.derive_labelled rows)) Hij Hr Hs). }
    split; [done|]. intros Hweb.
    destruct Hord as [[? ?] | [Heq _]]; congruence.
  - intros a b -> Ha Hb.
    unfold ontology_sorted, sort_values. cbn [imap foldr zip zip_with place].
    unfold keys_compare, column_compare. cbn [Has_website derive compose].
    rewrite Ha, Hb. reflexivity.
Qed.

Lemma ontology_sort_order_witness :
  map Item (ontology_sorted
              (imap derive [ row "Foo" "" "MIT" "";
                             row "Bar" "http://bar" "" "" ]))
  = ["Bar"; "Foo"].
Proof.
  destruct (ontology_sort_order [ row "Foo" "" "MIT" "";
                                  row "Bar" "http://bar" "" "" ])
    as (_ & _ & Hexample).
  apply (Hexample (row "Foo" "" "MIT" "") (row "Bar" "http://bar" "" ""));
    reflexivity.
Defined.

(** *** The derived columns *)

(** X26: the columns the script adds to a row of the frame. The row keeps
    its place as its label and the six fields that came from the binding as
    they were; it has a website (a license) exactly when that text holds a
    character that is not white space; its Wikidata page is its Wikidata
    IRI and its website the websites up to their first space; the frame has
    as many rows as there were. *)
Theorem derived_columns_of_rows (rows : list Row) (df : list (Rec string))
    (i : nat) (r : Rec string) :
  derived_columns rows = Return df ->
  df !! i = Some r ->
  exists row : Row,
    rows !! i = Some row
    /\ index r = i
    /\ Item r = row_Item row
    /\ Wikidata r = row_Wikidata row
    /\ Official_websites r = row_Official_websites row
    /\ Licenses r = row_Licenses row
    /\ Part_of r = row_Part_of row
    /\ latest_release r = row_latest_release row
    /\ Has_website r = has_visible (row_Official_websites row)
    /\ Has_license r = has_visible (row_Licenses row)
    /\ Wikidata_page r = row_Wikidata row
    /\ Official_website r = until_space (row_Official_websites row)
    /\ length df = length rows.
Proof.
  unfold derived_columns. destruct rows as [|row0 rows0] eqn:Hrows; [done|].
  rewrite <- Hrows. intros [= <-] Hr.
  destruct (SortSpec.derive_lookup rows i r Hr) as (row & Hrow & ->).
  exists row. split; [done|]. split; [done|].
  destruct (EnrichSpec.derive_columns i row) as (Hweb & Hlic & Hsite).
  do 6 (split; [done|]). split; [done|]. split; [done|]. split; [done|].
  split; [done|]. by rewrite length_imap.
Qed.

Lemma derived_columns_of_rows_witness :
  exists r : Rec string,
    derived_columns [ row "Foo" "   " "MIT" "" ] = Return [r]
    /\ Has_website r = false /\ Has_license r = true
    /\ Wikidata r = "http://www.wikidata.org/entity/Foo"
    /\ Official_websites r = "   ".
Proof.
  exists (derive 0 (row "Foo" "   " "MIT" "")). split; [reflexivity|].
  destruct (derived_columns_of_rows [ row "Foo" "   " "MIT" "" ]
              [ derive 0 (row "Foo" "   " "MIT" "") ] 0%nat
              (derive 0 (row "Foo" "   " "MIT" "")))
    as (row' & Hrow & _ & _ & Hwiki & Hsites & _ & _ & _ & Hweb & Hlic & _);
    [reflexivity | reflexivity |].
  injection Hrow as <-. rewrite Hweb, Hlic, Hwiki, Hsites.
  repeat split; reflexivity.
Defined.

(** *** The text of the query *)

Lemma length_append (a b : string) :
  String.length (a +:+ b) = (String.length a + String.length b)%nat.
Proof.
  induction a as [|c a IH]; [done|].
  rewrite TurtleSpec.append_String. cbn [String.length]. by rewrite IH.
Qed.

Lemma append_inv_tail (a b s : string) : a +:+ s = b +:+ s -> a = b.
Proof.
  revert b. induction a as [|c a IH]; intros [|d b] H.
  - done.
  - apply (f_equal String.length) in H. rewrite !length_append in H.
    cbn [String.length] in H. lia.
  - apply (f_equal String.length) in H. rewrite !length_append in H.
    cbn [String.length] in H. lia.
  - rewrite !TurtleSpec.append_String in H. injection H as -> H.
    by rewrite (IH b H).
Qed.

Lemma limit_inj (pre post : string) (LIMIT LIMIT' : Z) :
  pre +:+ "    LIMIT " +:+ decimal LIMIT +:+ nl +:+ post
  = pre +:+ "    LIMIT " +:+ decimal LIMIT' +:+ nl +:+ post ->
  LIMIT = LIMIT'.
Proof.
  intros H. do 2 apply TurtleSpec.append_inv_head in H.
  apply append_inv_tail in H. by apply (inj pretty) in H.
Qed.

(** X27: the text of the query tells the choices it was made from: two
    queries are the same text only for the same limit and the same
    template, so that no two choices share an entry of the cache, which is
    kept by that text. *)
Theorem query_tells_its_choices (kind kind' : string) (LIMIT LIMIT' : Z) :
  query kind LIMIT = query kind' LIMIT' ->
  LIMIT = LIMIT'
  /\ startswith kind "Ontologies" = startswith kind' "Ontologies".
Proof.
  assert (forall L L' : Z, BASE_QUERY_ONTO_VOCAB L = BASE_QUERY_SOFTWARE L' ->
                           False) as Hdiffer.
  { intros L L' H. apply (f_equal (String.get 255)) in H.
    vm_compute in H. discriminate H. }
  destruct QuerySpec.BASE_QUERY_SOFTWARE_limit as (pre & post & Hsoft).
  destruct QuerySpec.BASE_QUERY_ONTO_VOCAB_limit as (pre' & post' & Honto).
  unfold query.
  destruct (startswith kind "Ontologies"), (startswith kind' "Ontologies");
    intros H.
  - rewrite !Honto in H. by apply limit_inj in H.
  - by apply Hdiffer in H.
  - symmetry in H. by apply Hdiffer in H.
  - rewrite !Hsoft in H. by apply limit_inj in H.
Qed.

Lemma query_tells_its_choices_witness :
  query "Software (semantic / KG tools)" 500
  = query "Software (semantic / KG tools)" (250 + 250)
  /\ 500 = 250 + 250.
Proof.
  split; [reflexivity|].
  apply (query_tells_its_choices "Software (semantic / KG tools)"
           "Software (semantic / KG tools)" 500 (250 + 250)).
  reflexivity.
Defined.

End AppSpec.
